(** * A paged, single-table record store: model of [main.c] and its properties

    The C program keeps one table of fixed-width rows in an array of
    4096-byte pages that are loaded lazily from a backing file and written
    back when the table is closed.  This development embeds the storage core
    of the program (record codec, pager, table, insert and select) as Rocq
    functions and proves the properties of record round-trips, append order,
    capacity, the frame of an insert and what closing and reopening does.
    The command line (reading a line, preparing a statement, the loop of
    [main]) is embedded as well, with what it accepts and what it executes.

    Conventions of the embedding
    - [uint32_t] values are [Z]; arithmetic that C performs modulo 2^32 is
      written with [u32];
    - memory is [list byte]; an address inside a page is a byte offset;
    - [malloc] returns a block whose contents the program does not control:
      they are drawn from the [Heap], an oracle threaded through the code;
    - [exit(EXIT_FAILURE)] is the outcome [Exit]; an access outside the
      [pages] array has no defined behaviour in C and is the outcome
      [Undefined];
    - system calls are assumed not to fail ([open], [lseek], [read], [write]
      and [close] returning -1 are faults of the environment);
    - an input line is the sequence of bytes that [getline] returns, the
      standard input the list of these lines; what the program prints is a
      list of [Output]s, one for each [printf]. *)

From Stdlib Require Import ZArith Lia.
From Stdlib Require Import Strings.Byte.
From stdpp Require Import base tactics option list list_numbers.

Local Open Scope Z_scope.

(** ** Constants *)

Definition COLUMN_USERNAME_SIZE : Z := 32.
Definition COLUMN_EMAIL_SIZE : Z := 255.

(** [size_of_attribute(Row, id)] and so on: [uint32_t id],
    [char username[COLUMN_USERNAME_SIZE + 1]], [char email[COLUMN_EMAIL_SIZE + 1]]. *)
Definition ID_SIZE : Z := 4.
Definition USERNAME_SIZE : Z := COLUMN_USERNAME_SIZE + 1.
Definition EMAIL_SIZE : Z := COLUMN_EMAIL_SIZE + 1.
Definition ID_OFFSET : Z := 0.
Definition USERNAME_OFFSET : Z := ID_OFFSET + ID_SIZE.
Definition EMAIL_OFFSET : Z := USERNAME_OFFSET + USERNAME_SIZE.
Definition ROW_SIZE : Z := ID_SIZE + USERNAME_SIZE + EMAIL_SIZE.

Definition PAGE_SIZE : Z := 4096.
Definition TABLE_MAX_PAGES : Z := 100.
Definition ROWS_PER_PAGE : Z := PAGE_SIZE / ROW_SIZE.
Definition TABLE_MAX_ROWS : Z := ROWS_PER_PAGE * TABLE_MAX_PAGES.

Definition EXIT_SUCCESS : Z := 0.
Definition EXIT_FAILURE : Z := 1.

(** Arithmetic on [uint32_t] wraps around. *)
Definition u32 (z : Z) : Z := z mod 2 ^ 32.

(** ** Bytes and the object representation of [uint32_t] *)

Definition byte_of_Z (z : Z) : byte :=
  default x00 (Byte.of_N (Z.to_N (z mod 256))).

Definition Z_of_byte (b : byte) : Z := Z.of_N (Byte.to_N b).

(** The four bytes of a [uint32_t] as [memcpy] sees them (least significant
    byte first, the order of the machines the program is built for). *)
Definition u32_to_bytes (z : Z) : list byte :=
  [byte_of_Z z; byte_of_Z (z / 2 ^ 8); byte_of_Z (z / 2 ^ 16); byte_of_Z (z / 2 ^ 24)].

Definition u32_of_bytes (bs : list byte) : Z :=
  foldr (fun b acc => Z_of_byte b + 256 * acc) 0 bs.

(** ** Rows *)

(** [typedef struct { uint32_t id; char username[33]; char email[256]; } Row;] *)
Record Row : Type := mkRow {
  id : Z;
  username : list byte;
  email : list byte
}.

(** [strlen]: the number of bytes before the first NUL. *)
Fixpoint strlen (s : list byte) : Z :=
  match s with
  | [] => 0
  | b :: s' => if Byte.eqb b x00 then 0 else 1 + strlen s'
  end.

(** ** Raw memory *)

(** [memcpy(dst + off, src, n)] on the block [dst]. *)
Definition memcpy (dst : list byte) (off : Z) (src : list byte) (n : Z) : list byte :=
  list_inserts (Z.to_nat off) (take (Z.to_nat n) src) dst.

(** The [n] bytes of [src] from offset [off], as [memcpy(&field, src + off, n)] copies them. *)
Definition load (src : list byte) (off : Z) (n : Z) : list byte :=
  take (Z.to_nat n) (drop (Z.to_nat off) src).

(** ** Record codec *)

(** [serialize_row(source, destination)], where [destination] is the address
    [dst] inside the block [mem]. *)
Definition serialize_row (source : Row) (mem : list byte) (dst : Z) : list byte :=
  let mem := memcpy mem (dst + ID_OFFSET) (u32_to_bytes (id source)) ID_SIZE in
  let mem := memcpy mem (dst + USERNAME_OFFSET) (username source) USERNAME_SIZE in
  memcpy mem (dst + EMAIL_OFFSET) (email source) EMAIL_SIZE.

(** [deserialize_row(&row, source)], where [source] is the address [src]
    inside the block [mem]; every field of the destination is overwritten. *)
Definition deserialize_row (mem : list byte) (src : Z) : Row :=
  {| id := u32_of_bytes (load mem (src + ID_OFFSET) ID_SIZE);
     username := load mem (src + USERNAME_OFFSET) USERNAME_SIZE;
     email := load mem (src + EMAIL_OFFSET) EMAIL_SIZE |}.

(** A [Row] object as the C type lays it out. *)
Definition wf_row (r : Row) : Prop :=
  0 <= id r < 2 ^ 32 /\
  Z.of_nat (length (username r)) = USERNAME_SIZE /\
  Z.of_nat (length (email r)) = EMAIL_SIZE.

(** A row that the statement parser accepts: both strings are terminated
    within their column width. *)
Definition valid_row (r : Row) : Prop :=
  wf_row r /\
  strlen (username r) <= COLUMN_USERNAME_SIZE /\
  strlen (email r) <= COLUMN_EMAIL_SIZE.

(** ** Outcomes, the allocator and the program monad *)

(** What a call does: it returns, it terminates the process with [exit], or
    it performs an access for which C defines no behaviour. *)
Inductive outcome (A : Type) : Type :=
| Ret (a : A)
| Exit (status : Z)
| Undefined.
Arguments Ret {A} a.
Arguments Exit {A} status.
Arguments Undefined {A}.

(** The allocator as the program sees it: [uninit h k] is the content of the
    block that the [k]-th call of [malloc] returns. *)
Record Heap : Type := mkHeap {
  allocations : nat;
  uninit : nat -> nat -> byte
}.

Definition M (A : Type) : Type := Heap -> outcome (A * Heap).

Definition ret {A} (a : A) : M A := fun h => Ret (a, h).

Definition bind {A B} (m : M A) (k : A -> M B) : M B := fun h =>
  match m h with
  | Ret (a, h') => k a h'
  | Exit status => Exit status
  | Undefined => Undefined
  end.

Definition exit {A} (status : Z) : M A := fun _ => Exit status.
Definition undefined {A} : M A := fun _ => Undefined.

Notation "'let*' p := m 'in' k" := (bind m (fun p => k))
  (at level 10, p pattern, m at level 100, k at level 200,
   format "'[v' 'let*'  p  :=  m  'in' '/' k ']'").

(** [malloc(size)]: a fresh block of [size] bytes with indeterminate content. *)
Definition malloc (size : Z) : M (list byte) := fun h =>
  Ret (uninit h (allocations h) <$> seq 0 (Z.to_nat size),
       mkHeap (S (allocations h)) (uninit h)).

(** ** The backing file *)

Abbreviation File := (list byte).

(** [lseek(fd, off, SEEK_SET); read(fd, buf, n)]: the bytes the file gives,
    fewer than [n] at the end of the file. *)
Definition pread (f : File) (off n : Z) : list byte :=
  take (Z.to_nat n) (drop (Z.to_nat off) f).

(** [lseek(fd, off, SEEK_SET); write(fd, data, length data)]; a gap between
    the end of the file and [off] reads as zeros. *)
Definition pwrite (f : File) (off : Z) (data : list byte) : File :=
  take (Z.to_nat off) f ++ replicate (Z.to_nat off - length f)%nat x00 ++
  data ++ drop (Z.to_nat off + length data)%nat f.

(** ** Pager and table *)

(** [fd] stands for the open file: the model keeps the file's content where
    the C struct keeps the descriptor.  An entry [None] of [pages] is a
    [NULL] pointer. *)
Record Pager : Type := mkPager {
  fd : File;
  file_length : Z;
  pages : list (option (list byte))
}.

Record Table : Type := mkTable {
  num_rows : Z;
  pager : Pager
}.

Definition set_page (p : Pager) (page_num : Z) (page : option (list byte)) : Pager :=
  {| fd := fd p; file_length := file_length p;
     pages := <[Z.to_nat page_num := page]> (pages p) |}.

Definition set_pager (t : Table) (p : Pager) : Table :=
  {| num_rows := num_rows t; pager := p |}.

(** [pager_open(filename)] on a file with content [file] (empty when [open]
    has just created it). *)
Definition pager_open (file : File) : Pager :=
  {| fd := file;
     file_length := u32 (Z.of_nat (length file));
     pages := replicate (Z.to_nat TABLE_MAX_PAGES) None |}.

(** [db_open(filename)].  The C function builds the table and falls off its
    end without a [return]; the model returns the table it has built, which
    is what its caller uses. *)
Definition db_open (file : File) : Table :=
  let pager := pager_open file in
  let num_rows := file_length pager / ROW_SIZE in
  {| num_rows := num_rows; pager := pager |}.

(** [get_page(pager, page_num)].  The pointer it returns is [pages[page_num]]
    of the pager it leaves; the model returns that pager. *)
Definition get_page (pager : Pager) (page_num : Z) : M Pager :=
  if page_num >? TABLE_MAX_PAGES then exit EXIT_FAILURE
  else
    match pages pager !! Z.to_nat page_num with
    | None => undefined
    | Some (Some _) => ret pager
    | Some None =>
        let* page := malloc PAGE_SIZE in
        let num_pages := u32 (file_length pager + PAGE_SIZE - 1) / PAGE_SIZE in
        let page :=
          if page_num <=? num_pages
          then list_inserts 0 (pread (fd pager) (u32 (page_num * PAGE_SIZE)) PAGE_SIZE) page
          else page in
        ret (set_page pager page_num (Some page))
    end.

(** [pager_flush(pager, page_num, size)]. *)
Definition pager_flush (pager : Pager) (page_num : Z) (size : Z) : M Pager :=
  match pages pager !! Z.to_nat page_num with
  | None => undefined
  | Some None => exit EXIT_FAILURE
  | Some (Some page) =>
      ret {| fd := pwrite (fd pager) (u32 (page_num * PAGE_SIZE)) (take (Z.to_nat size) page);
             file_length := file_length pager;
             pages := pages pager |}
  end.

(** The first loop of [db_close]: [n] iterations are left, the next one is
    for page [i]. *)
Fixpoint db_close_full_pages (n : nat) (i : Z) (pager : Pager) : M Pager :=
  match n with
  | O => ret pager
  | S n' =>
      match pages pager !! Z.to_nat i with
      | None => undefined
      | Some None => db_close_full_pages n' (i + 1) pager
      | Some (Some _) =>
          let* pager := pager_flush pager i PAGE_SIZE in
          db_close_full_pages n' (i + 1) (set_page pager i None)
      end
  end.

(** [db_close(table)]: what is left is the file. *)
Definition db_close (table : Table) : M File :=
  let pager := pager table in
  let num_full_pages := num_rows table / ROWS_PER_PAGE in
  let* pager := db_close_full_pages (Z.to_nat num_full_pages) 0 pager in
  let num_additional_rows := num_rows table mod ROWS_PER_PAGE in
  let* pager :=
    (if num_additional_rows =? 0 then ret pager
     else
       let page_num := num_full_pages in
       match pages pager !! Z.to_nat page_num with
       | None => undefined
       | Some None => ret pager
       | Some (Some _) =>
           let* pager := pager_flush pager page_num PAGE_SIZE in
           ret (set_page pager page_num None)
       end) in
  ret (fd pager).

(** An address inside a page: [pages[page_of]] plus [offset_of] bytes. *)
Record slot : Type := mkSlot {
  page_of : Z;
  offset_of : Z
}.

(** [row_slot(table, row_num)]. *)
Definition row_slot (table : Table) (row_num : Z) : M (Table * slot) :=
  let page_num := row_num / ROWS_PER_PAGE in
  let* pager := get_page (pager table) page_num in
  let row_offset := row_num mod ROWS_PER_PAGE in
  let byte_offset := u32 (row_offset * ROW_SIZE) in
  ret (set_pager table pager, {| page_of := page_num; offset_of := byte_offset |}).

(** ** Statements and their execution *)

Inductive StatementType : Type := STATEMENT_INSERT | STATEMENT_SELECT.

Inductive EXECUTE_RESULT : Type :=
| EXECUTE_SUCCESS
| EXECUTE_TABLE_EMPTY
| EXECUTE_TABLE_FULL.

(** [row_to_insert = None] is the [NULL] of [create_statement]. *)
Record Statement : Type := mkStatement {
  type : StatementType;
  row_to_insert : option Row
}.

(** [serialize_row(row, p)] for a pointer [p] into a page of the table. *)
Definition write_slot (table : Table) (p : slot) (row : Row) : M Table :=
  match pages (pager table) !! Z.to_nat (page_of p) with
  | Some (Some page) =>
      ret (set_pager table
             (set_page (pager table) (page_of p)
                (Some (serialize_row row page (offset_of p)))))
  | _ => undefined
  end.

(** [deserialize_row(&row, p)] for a pointer [p] into a page of the table. *)
Definition read_slot (table : Table) (p : slot) : M Row :=
  match pages (pager table) !! Z.to_nat (page_of p) with
  | Some (Some page) => ret (deserialize_row page (offset_of p))
  | _ => undefined
  end.

(** [execute_insert(statement, table)]. *)
Definition execute_insert (statement : Statement) (table : Table)
  : M (EXECUTE_RESULT * Table) :=
  if num_rows table >=? TABLE_MAX_ROWS then ret (EXECUTE_TABLE_FULL, table)
  else
    match row_to_insert statement with
    | None => undefined
    | Some row =>
        let* (table, p) := row_slot table (num_rows table) in
        let* table := write_slot table p row in
        ret (EXECUTE_SUCCESS,
             {| num_rows := u32 (num_rows table + 1); pager := pager table |})
    end.

(** The body of the loop of [execute_select]: the row handed to [print_row]. *)
Definition select_row (table : Table) (i : Z) : M (Row * Table) :=
  let* (table, p) := row_slot table i in
  let* row := read_slot table p in
  ret (row, table).

(** The loop of [execute_select]: [n] iterations are left, the next one is
    for row [i]. *)
Fixpoint select_loop (n : nat) (i : Z) (table : Table) : M (list Row * Table) :=
  match n with
  | O => ret ([], table)
  | S n' =>
      let* (row, table) := select_row table i in
      let* (rows, table) := select_loop n' (u32 (i + 1)) table in
      ret (row :: rows, table)
  end.

(** [execute_select(statement, table)], with the rows it prints, in order. *)
Definition execute_select (statement : Statement) (table : Table)
  : M (EXECUTE_RESULT * list Row * Table) :=
  if num_rows table =? 0 then ret (EXECUTE_TABLE_EMPTY, [], table)
  else
    let* (rows, table) := select_loop (Z.to_nat (num_rows table)) 0 table in
    ret (EXECUTE_SUCCESS, rows, table).

(** [execute_statement(statement, table)]. *)
Definition execute_statement (statement : Statement) (table : Table)
  : M (EXECUTE_RESULT * list Row * Table) :=
  match type statement with
  | STATEMENT_INSERT =>
      let* (result, table) := execute_insert statement table in
      ret (result, [], table)
  | STATEMENT_SELECT => execute_select statement table
  end.

Definition insert_statement (row : Row) : Statement :=
  {| type := STATEMENT_INSERT; row_to_insert := Some row |}.

Definition select_statement : Statement :=
  {| type := STATEMENT_SELECT; row_to_insert := None |}.

(** The command loop of [main] on a sequence of prepared statements: each is
    executed in turn; the result code and the printed rows of each are kept. *)
Fixpoint run (statements : list Statement) (table : Table)
  : M (list (EXECUTE_RESULT * list Row) * Table) :=
  match statements with
  | [] => ret ([], table)
  | statement :: statements' =>
      let* (result, rows, table) := execute_statement statement table in
      let* (outputs, table) := run statements' table in
      ret ((result, rows) :: outputs, table)
  end.

(** The row that decoding slot [i] of the table gives, if the decoding returns. *)
Definition row_at (table : Table) (i : Z) (h : Heap) : option Row :=
  match select_row table i h with
  | Ret (row, _, _) => Some row
  | _ => None
  end.

(** ** Well-formed states *)

(** The shape that the C types give a pager: [void* pages[TABLE_MAX_PAGES]],
    every page a block of [PAGE_SIZE] bytes. *)
Definition wf_pager (p : Pager) : Prop :=
  Z.of_nat (length (pages p)) = TABLE_MAX_PAGES /\
  forall (n : nat) (page : list byte),
    pages p !! n = Some (Some page) -> Z.of_nat (length page) = PAGE_SIZE.

Definition wf_table (t : Table) : Prop := wf_pager (pager t).

(** A statement as [prepare_statement] leaves it on success: an insert
    carries a row. *)
Definition wf_statement (s : Statement) : Prop :=
  match type s with
  | STATEMENT_INSERT => exists r, row_to_insert s = Some r /\ wf_row r
  | STATEMENT_SELECT => True
  end.

(** The table holds the rows [rs], all of them in resident pages. *)
Definition holds (rs : list Row) (t : Table) : Prop :=
  wf_table t /\
  num_rows t = Z.of_nat (length rs) /\
  num_rows t <= TABLE_MAX_ROWS /\
  forall (i : Z) (r : Row),
    0 <= i -> rs !! Z.to_nat i = Some r ->
    exists page,
      pages (pager t) !! Z.to_nat (i / ROWS_PER_PAGE) = Some (Some page) /\
      deserialize_row page (i mod ROWS_PER_PAGE * ROW_SIZE) = r.

(** ** Sample data *)

(** A string in a [char] array of [width] bytes, the rest of it zero. *)
Definition c_string (width : Z) (s : list byte) : list byte :=
  take (Z.to_nat width) (s ++ replicate (Z.to_nat width) x00).

(** The row of [insert 1 user1 person1@example.com]. *)
Definition sample_row : Row :=
  {| id := 1;
     username := c_string USERNAME_SIZE [x75; x73; x65; x72; x31];
     email := c_string EMAIL_SIZE
                [x70; x65; x72; x73; x6f; x6e; x31; x40; x65; x78; x61; x6d;
                 x70; x6c; x65; x2e; x63; x6f; x6d] |}.

(** An allocator whose blocks are filled with the byte 0xaa. *)
Definition sample_heap : Heap :=
  {| allocations := 0; uninit := fun _ _ => xaa |}.

(** The allocator after one more [malloc]. *)
Definition next_heap (h : Heap) : Heap :=
  {| allocations := S (allocations h); uninit := uninit h |}.

(** A file of 1301 rows' worth of bytes, one row more than a table takes. *)
Definition oversize_file : File := replicate (Z.to_nat (1301 * ROW_SIZE)) x00.

(** ** What a closed table leaves in the file *)

(** The number of pages that [n] rows occupy. *)
Definition pages_for (n : Z) : Z := (n + ROWS_PER_PAGE - 1) / ROWS_PER_PAGE.

(** The bytes of the first [n] pages of a pager in order, a page that is not
    resident contributing none. *)
Definition image (n : nat) (p : Pager) : list byte :=
  concat (default [] <$> take n (pages p)).

(** The place of row [i] in the file: page [i / ROWS_PER_PAGE], and in that
    page the slot [i mod ROWS_PER_PAGE]. *)
Definition file_offset (i : Z) : Z :=
  i / ROWS_PER_PAGE * PAGE_SIZE + i mod ROWS_PER_PAGE * ROW_SIZE.

(** Every row of [rs] can be decoded from the table at its index, whatever
    the allocator returns for the pages that have to be loaded. *)
Definition backed (rs : list Row) (t : Table) : Prop :=
  wf_table t /\
  forall (i : nat) (r : Row),
    rs !! i = Some r -> forall g, row_at t (Z.of_nat i) g = Some r.

(** ** The command line: strings *)

#[global] Instance byte_eq_dec : EqDecision byte := Byte.byte_eq_dec.

(** The content of a C string: the bytes before the first NUL. *)
Fixpoint cstr (s : list byte) : list byte :=
  match s with
  | [] => []
  | b :: s' => if Byte.eqb b x00 then [] else b :: cstr s'
  end.

(** ["insert"], ["select"], [".exit"]. *)
Definition kw_insert : list byte := [x69; x6e; x73; x65; x72; x74].
Definition kw_select : list byte := [x73; x65; x6c; x65; x63; x74].
Definition kw_exit : list byte := [x2e; x65; x78; x69; x74].

(** [strcmp(s, lit) == 0] and [strncmp(s, lit, n) == 0] on string contents. *)
Definition strcmp_eq (s lit : list byte) : bool := bool_decide (s = lit).
Definition strncmp_eq (s lit : list byte) (n : nat) : bool :=
  bool_decide (take n s = take n lit).

(** [strtok] with the delimiter [" "]: the argument is the rest of the
    string at the saved position; the result is the token, if there is one,
    and the new saved position. *)
Fixpoint skip_delim (s : list byte) : list byte :=
  match s with
  | b :: s' => if Byte.eqb b x20 then skip_delim s' else s
  | [] => []
  end.

Fixpoint token (s : list byte) : list byte * list byte :=
  match s with
  | [] => ([], [])
  | b :: s' =>
      if Byte.eqb b x20 then ([], s')
      else let (tok, rest) := token s' in (b :: tok, rest)
  end.

Definition strtok (s : list byte) : option (list byte) * list byte :=
  match skip_delim s with
  | [] => (None, [])
  | s' => let (tok, rest) := token s' in (Some tok, rest)
  end.

(** [atoi]: white space, an optional sign, decimal digits.  A value that an
    [int] cannot hold has no defined result ([None]). *)
Definition isspace (b : byte) : bool :=
  let c := Z_of_byte b in (c =? 32) || ((9 <=? c) && (c <=? 13)).

Definition digit (b : byte) : option Z :=
  let c := Z_of_byte b in
  if (48 <=? c) && (c <=? 57) then Some (c - 48) else None.

Fixpoint skip_space (s : list byte) : list byte :=
  match s with
  | b :: s' => if isspace b then skip_space s' else s
  | [] => []
  end.

Fixpoint digits_value (acc : Z) (s : list byte) : Z :=
  match s with
  | [] => acc
  | b :: s' =>
      match digit b with
      | Some d => digits_value (10 * acc + d) s'
      | None => acc
      end
  end.

Definition INT_MIN : Z := - 2 ^ 31.
Definition INT_MAX : Z := 2 ^ 31 - 1.

Definition atoi (s : list byte) : option Z :=
  let v :=
    match skip_space s with
    | b :: s' =>
        if Byte.eqb b x2d then - digits_value 0 s'
        else if Byte.eqb b x2b then digits_value 0 s'
        else digits_value 0 (b :: s')
    | [] => 0
    end in
  if (INT_MIN <=? v) && (v <=? INT_MAX) then Some v else None.

(** [strcpy(dst + off, s)] on the block [dst]: the string and its terminator. *)
Definition strcpy (dst : list byte) (off : Z) (s : list byte) : list byte :=
  memcpy dst off (cstr s ++ [x00]) (strlen s + 1).

(** ** The command line: statements *)

Inductive MetaCommandResult : Type :=
| META_COMMAND_SUCCESS
| META_COMMAND_UNRECOGNIZED_COMMAND.

Inductive PrepareResult : Type :=
| PREPARE_NEGATIVE_ID
| PREPARE_NOT_ID
| PREPARE_STRING_NOT_RIGHT
| PREPARE_STRING_TOO_LONG
| PREPARE_SUCCESS
| PREPARE_SYNTAX_ERROR
| PREPARE_UNRECOGNIZED_STATEMENT.

(** [sizeof(Row)] and [sizeof(Statement)] where [int] has four bytes and a
    pointer eight: 293 bytes of fields and three of padding; an enum, four
    bytes of padding and a pointer. *)
Definition SIZEOF_ROW : Z := 296.
Definition SIZEOF_STATEMENT : Z := 16.

(** The [Row] that a block of [sizeof(Row)] bytes is: the fields lie at the
    offsets 0, 4 and 37, which are [ID_OFFSET], [USERNAME_OFFSET] and
    [EMAIL_OFFSET]. *)
Definition row_object (raw : list byte) : Row :=
  {| id := u32_of_bytes (load raw ID_OFFSET ID_SIZE);
     username := load raw USERNAME_OFFSET USERNAME_SIZE;
     email := load raw EMAIL_OFFSET EMAIL_SIZE |}.

(** The [type] of a statement whose block has just been allocated: it is
    what the block happens to hold.  [main] does not read it before
    [prepare_statement] has set it. *)
Definition statement_type_of (raw : list byte) : StatementType :=
  if u32_of_bytes (load raw 0 4) =? 1 then STATEMENT_SELECT else STATEMENT_INSERT.

(** [create_statement()]. *)
Definition create_statement : M Statement :=
  let* raw := malloc SIZEOF_STATEMENT in
  ret {| type := statement_type_of raw; row_to_insert := None |}.

(** [prepare_insert(input_buffer, statement)] on the string in the buffer. *)
Definition prepare_insert (buffer : list byte) (statement : Statement)
  : M (PrepareResult * Statement) :=
  let* raw := malloc SIZEOF_ROW in
  let statement raw :=
    {| type := STATEMENT_INSERT; row_to_insert := Some (row_object raw) |} in
  let '(keywrod, saved) := strtok buffer in
  let '(id_string, saved) := strtok saved in
  let '(username, saved) := strtok saved in
  let '(email, saved) := strtok saved in
  match id_string, username, email with
  | Some id_string, Some username, Some email =>
      match atoi id_string with
      | None => undefined
      | Some id =>
          if id =? 0 then ret (PREPARE_NOT_ID, statement raw)
          else if strlen username >? USERNAME_SIZE
          then ret (PREPARE_STRING_TOO_LONG, statement raw)
          else if strlen email >? EMAIL_SIZE
          then ret (PREPARE_STRING_TOO_LONG, statement raw)
          else
            let raw := memcpy raw ID_OFFSET (u32_to_bytes (u32 id)) ID_SIZE in
            let raw := strcpy raw USERNAME_OFFSET username in
            let raw := strcpy raw EMAIL_OFFSET email in
            ret (PREPARE_SUCCESS, statement raw)
      end
  | _, _, _ => ret (PREPARE_STRING_NOT_RIGHT, statement raw)
  end.

(** [prepare_statement(input_buffer, statement)]. *)
Definition prepare_statement (buffer : list byte) (statement : Statement)
  : M (PrepareResult * Statement) :=
  if strncmp_eq buffer kw_insert 6 then prepare_insert buffer statement
  else if strcmp_eq buffer kw_select
  then ret (PREPARE_SUCCESS,
            {| type := STATEMENT_SELECT; row_to_insert := row_to_insert statement |})
  else ret (PREPARE_UNRECOGNIZED_STATEMENT, statement).

(** [do_meta_command(input_buffer, table)].  On [.exit] the table is closed
    and the process exits with [EXIT_SUCCESS]: the result is then the file
    that is left. *)
Definition do_meta_command (buffer : list byte) (table : Table)
  : M (File + MetaCommandResult) :=
  if strcmp_eq buffer kw_exit
  then let* file := db_close table in ret (inl file)
  else ret (inr META_COMMAND_UNRECOGNIZED_COMMAND).

(** [read_input(input_buffer)], where [raw] is the line that [getline]
    returns: the last byte is replaced by the terminator. *)
Definition read_input (raw : list byte) : M (list byte) :=
  if Z.of_nat (length raw) <=? 0 then exit EXIT_FAILURE
  else ret (cstr (take (length raw - 1) raw)).

(** What the program prints. *)
Inductive Output : Type :=
| out_prompt
| out_unrecognized (buffer : list byte)
| out_id_positive
| out_too_long
| out_syntax_error
| out_executed
| out_table_full
| out_table_empty
| out_row (row : Row).

(** One turn of the loop of [main] after [read_input]: the loop goes on with
    the table, or the process has exited with [EXIT_SUCCESS] and left the
    file. *)
Inductive Step : Type :=
| Continue (out : list Output) (table : Table)
| Exited (file : File).

Definition main_step (buffer : list byte) (table : Table) : M Step :=
  if bool_decide (head buffer = Some x2e) then
    let* r := do_meta_command buffer table in
    match r with
    | inl file => ret (Exited file)
    | inr META_COMMAND_SUCCESS => ret (Continue [] table)
    | inr META_COMMAND_UNRECOGNIZED_COMMAND =>
        ret (Continue [out_unrecognized buffer] table)
    end
  else
    let* statement := create_statement in
    let* (result, statement) := prepare_statement buffer statement in
    match result with
    | PREPARE_NEGATIVE_ID => ret (Continue [out_id_positive] table)
    | PREPARE_STRING_TOO_LONG => ret (Continue [out_too_long; out_syntax_error] table)
    | PREPARE_SYNTAX_ERROR => ret (Continue [out_syntax_error] table)
    | PREPARE_UNRECOGNIZED_STATEMENT => ret (Continue [out_unrecognized buffer] table)
    | PREPARE_SUCCESS | PREPARE_NOT_ID | PREPARE_STRING_NOT_RIGHT =>
        let* (result, rows, table) := execute_statement statement table in
        let message :=
          match result with
          | EXECUTE_SUCCESS => out_executed
          | EXECUTE_TABLE_FULL => out_table_full
          | EXECUTE_TABLE_EMPTY => out_table_empty
          end in
        ret (Continue ((out_row <$> rows) ++ [message]) table)
    end.

(** The loop of [main] on the lines that [getline] returns one after the
    other; at the end of the input [getline] fails and [read_input] exits. *)
Fixpoint main_loop (stdin : list (list byte)) (table : Table)
  : M (list Output * File) :=
  match stdin with
  | [] => exit EXIT_FAILURE
  | raw :: stdin' =>
      let* buffer := read_input raw in
      let* step := main_step buffer table in
      match step with
      | Exited file => ret ([out_prompt], file)
      | Continue out table =>
          let* (outs, file) := main_loop stdin' table in
          ret (out_prompt :: out ++ outs, file)
      end
  end.

(** An input line [insert <id> <username> <email>] with its newline. *)
Definition insert_line (id_string username email : list byte) : list byte :=
  kw_insert ++ [x20] ++ id_string ++ [x20] ++ username ++ [x20] ++ email ++ [x0a].

(** A token: not empty, without a space and without a NUL. *)
Definition is_token (s : list byte) : Prop :=
  (s <> []) /\ (x20 ∉ s) /\ (x00 ∉ s).

(** The block that the next [malloc(size)] returns. *)
Definition fresh_block (size : Z) (h : Heap) : list byte :=
  uninit h (allocations h) <$> seq 0 (Z.to_nat size).

(** The statement that [prepare_insert] leaves for the row object [raw]. *)
Definition insert_of (raw : list byte) : Statement :=
  {| type := STATEMENT_INSERT; row_to_insert := Some (row_object raw) |}.

(** The row object after the three assignments of [prepare_insert]. *)
Definition filled (raw : list byte) (id : Z) (username email : list byte) : list byte :=
  strcpy (strcpy (memcpy raw ID_OFFSET (u32_to_bytes (u32 id)) ID_SIZE)
                 USERNAME_OFFSET username)
         EMAIL_OFFSET email.

(** The test for [is_token]. *)
Definition is_tokenb (s : list byte) : bool :=
  negb (bool_decide (s = [])) &&
  forallb (fun b => negb (Byte.eqb b x20) && negb (Byte.eqb b x00)) s.

(** The line [kw arg ... arg]: tokens separated by single spaces. *)
Definition command_line (kw : list byte) (args : list (list byte)) : list byte :=
  kw ++ concat ((fun arg => x20 :: arg) <$> args).

(** ** Sessions *)

(** The arguments of an insert line: id, username, email. *)
Definition Command : Type := list byte * list byte * list byte.

Definition line_of (c : Command) : list byte :=
  let '(ids, user, mail) := c in insert_line ids user mail.

(** An insert that the program accepts and stores with terminated strings. *)
Definition good_command (c : Command) : Prop :=
  let '(ids, user, mail) := c in
  is_token ids /\ is_token user /\ is_token mail /\
  (exists v, atoi ids = Some v /\ v <> 0) /\
  Z.of_nat (length user) <= COLUMN_USERNAME_SIZE /\
  Z.of_nat (length mail) <= COLUMN_EMAIL_SIZE.

(** The row [r] is what the command asks for. *)
Definition answers (c : Command) (r : Row) : Prop :=
  let '(ids, user, mail) := c in
  wf_row r /\
  (exists v, atoi ids = Some v /\ id r = u32 v) /\
  cstr (username r) = user /\ cstr (email r) = mail.

(** The output [out], and then what [o] gives. *)
Definition with_output (out : list Output) (o : outcome (list Output * File * Heap))
  : outcome (list Output * File * Heap) :=
  match o with
  | Ret (outs, file, h) => Ret (out ++ outs, file, h)
  | Exit status => Exit status
  | Undefined => Undefined
  end.

(** ** Further definitions *)

(** The local [num_pages] of [get_page]: the recorded length in pages,
    rounded up, computed on 32 bits. *)
Definition num_pages (pager : Pager) : Z :=
  u32 (file_length pager + PAGE_SIZE - 1) / PAGE_SIZE.

(** The table after [insert 1 user1 person1@example.com] on an empty file,
    with the allocator [sample_heap]: page 0 is resident and holds the row
    in slot 0. *)
Definition one_row_table : Table :=
  {| num_rows := 1;
     pager := set_page (pager_open []) 0
                (Some (serialize_row sample_row
                         (replicate (Z.to_nat PAGE_SIZE) xaa) 0)) |}.

(** The row of [insert 2 bob b@c]. *)
Definition second_row : Row :=
  {| id := 2;
     username := c_string USERNAME_SIZE [x62; x6f; x62];
     email := c_string EMAIL_SIZE [x62; x40; x63] |}.

(** The conversion [%d] applied to the [uint32_t] argument [row->id]: the
    32 bits are taken as an [int], so a value above [INT_MAX] is printed
    as a negative number. *)
Definition as_int (z : Z) : Z := if z <=? INT_MAX then z else z - 2 ^ 32.

(** The conversion [%s] applied to a [char] array: the bytes before the
    terminator; [None] when the array holds no terminator and [printf] reads
    past its end. *)
Definition print_string (s : list byte) : option (list byte) :=
  if bool_decide (x00 ∈ s) then Some (cstr s) else None.

(** [print_row(row)]: the three fields of the line [(%d, %s, %s)] that it
    prints. *)
Definition print_row (row : Row) : option (Z * list byte * list byte) :=
  match print_string (username row), print_string (email row) with
  | Some u, Some m => Some (as_int (id row), u, m)
  | _, _ => None
  end.

(** The line that [print_row] prints for [r] shows the three arguments of
    the command, the first as the [int] that [atoi] reads. *)
Definition printed_as (c : Command) (r : Row) : Prop :=
  let '(ids, user, mail) := c in
  exists v, atoi ids = Some v /\ print_row r = Some (v, user, mail).

(** The loop of [main] again, keeping the table instead of the output: the
    table that the loop holds when it has taken the lines [stdin] and asks
    for the next one, [None] when [.exit] has ended the process before. *)
Fixpoint main_state (stdin : list (list byte)) (table : Table) : M (option Table) :=
  match stdin with
  | [] => ret (Some table)
  | raw :: stdin' =>
      let* buffer := read_input raw in
      let* step := main_step buffer table in
      match step with
      | Exited _ => ret None
      | Continue _ table => main_state stdin' table
      end
  end.

(** * Properties *)

Ltac consts :=
  cbv [TABLE_MAX_ROWS ROWS_PER_PAGE TABLE_MAX_PAGES PAGE_SIZE ROW_SIZE
       EMAIL_OFFSET USERNAME_OFFSET ID_OFFSET EMAIL_SIZE USERNAME_SIZE ID_SIZE
       COLUMN_EMAIL_SIZE COLUMN_USERNAME_SIZE] in *.

Lemma Z_of_byte_of_Z z : Z_of_byte (byte_of_Z z) = z mod 256.
Proof.
  unfold Z_of_byte, byte_of_Z.
  assert (Hr : 0 <= z mod 256 < 256) by (apply Z.mod_pos_bound; lia).
  pose proof (Byte.to_of_N_option_map (Z.to_N (z mod 256))) as H.
  destruct (Byte.of_N (Z.to_N (z mod 256))) as [b|] eqn:Hb; simpl in *.
  - destruct (N.leb_spec (Z.to_N (z mod 256)) 255); [|discriminate].
    injection H as ->. lia.
  - destruct (N.leb_spec (Z.to_N (z mod 256)) 255); [discriminate|lia].
Qed.

Lemma u32_of_to_bytes z : 0 <= z < 2 ^ 32 -> u32_of_bytes (u32_to_bytes z) = z.
Proof.
  intros Hz. unfold u32_of_bytes, u32_to_bytes. simpl foldr.
  rewrite !Z_of_byte_of_Z.
  change (2 ^ 8) with 256. change (2 ^ 16) with (256 * 256).
  change (2 ^ 24) with (256 * 256 * 256).
  change (2 ^ 32) with (256 * 256 * 256 * 256) in Hz.
  rewrite <- !Z.div_div by lia.
  pose proof (Z.div_mod z 256 ltac:(lia)).
  pose proof (Z.div_mod (z / 256) 256 ltac:(lia)).
  pose proof (Z.div_mod (z / 256 / 256) 256 ltac:(lia)).
  assert (0 <= z / 256 / 256 / 256 < 256).
  { split; [repeat apply Z.div_pos; lia|].
    repeat (apply Z.div_lt_upper_bound; [lia|]). lia. }
  rewrite (Z.mod_small (z / 256 / 256 / 256)) by lia. lia.
Qed.

Section Memory.
Implicit Types (mem src : list byte) (off n : Z).

Lemma length_memcpy mem off src n : length (memcpy mem off src n) = length mem.
Proof. apply length_inserts. Qed.

Lemma load_memcpy_same mem off src n :
  0 <= off -> 0 <= n ->
  off + n <= Z.of_nat (length mem) ->
  n <= Z.of_nat (length src) ->
  load (memcpy mem off src n) off n = take (Z.to_nat n) src.
Proof.
  intros Hoff Hn Hmem Hsrc. unfold load, memcpy.
  apply list_eq. intros j.
  destruct (decide (j < Z.to_nat n)%nat) as [Hj|Hj].
  - rewrite lookup_take_lt, lookup_drop by done.
    rewrite list_lookup_inserts by (rewrite ?length_take; lia).
    f_equal. lia.
  - rewrite !lookup_take_ge by lia. done.
Qed.

Lemma load_memcpy_disjoint mem off src n off' n' :
  0 <= off -> 0 <= off' -> 0 <= n -> 0 <= n' ->
  off' + n' <= off \/ off + n <= off' ->
  n <= Z.of_nat (length src) ->
  load (memcpy mem off src n) off' n' = load mem off' n'.
Proof.
  intros Hoff Hoff' Hn Hn' Hdis Hsrc. unfold load, memcpy.
  apply list_eq. intros j.
  destruct (decide (j < Z.to_nat n')%nat) as [Hj|Hj].
  - rewrite !lookup_take_lt, !lookup_drop by done.
    destruct Hdis.
    + apply list_lookup_inserts_lt. lia.
    + apply list_lookup_inserts_ge. rewrite length_take. lia.
  - rewrite !lookup_take_ge by lia. done.
Qed.
End Memory.

(** ** The record codec *)

Section Codec.
Implicit Types (r : Row) (mem : list byte) (dst src : Z).

Lemma length_serialize_row r mem dst :
  length (serialize_row r mem dst) = length mem.
Proof. unfold serialize_row. by rewrite !length_memcpy. Qed.

Lemma length_u32_to_bytes z : length (u32_to_bytes z) = 4%nat.
Proof. done. Qed.

(** Bytes outside the destination slot are not written. *)
Lemma serialize_row_frame r mem dst (k : nat) :
  0 <= dst ->
  ~ (dst <= Z.of_nat k < dst + ROW_SIZE) ->
  serialize_row r mem dst !! k = mem !! k.
Proof.
  intros Hdst Hk. unfold serialize_row, memcpy.
  assert (Hlen : forall n (l : list byte), (length (take n l) <= n)%nat).
  { intros n l. rewrite length_take. lia. }
  pose proof (Hlen (Z.to_nat ID_SIZE) (u32_to_bytes (id r))).
  pose proof (Hlen (Z.to_nat USERNAME_SIZE) (username r)).
  pose proof (Hlen (Z.to_nat EMAIL_SIZE) (email r)).
  consts.
  destruct (decide (Z.of_nat k < dst)).
  - rewrite !list_lookup_inserts_lt by lia. done.
  - rewrite !list_lookup_inserts_ge by lia. done.
Qed.

Lemma deserialize_serialize r mem dst :
  wf_row r -> 0 <= dst ->
  dst + ROW_SIZE <= Z.of_nat (length mem) ->
  deserialize_row (serialize_row r mem dst) dst = r.
Proof.
  intros (Hid & Hu & He) Hdst Hmem. destruct r as [i u e]; simpl in *.
  unfold deserialize_row, serialize_row; simpl.
  pose proof (length_u32_to_bytes i) as Hi.
  f_equal.
  - rewrite !load_memcpy_disjoint by (consts; lia).
    rewrite load_memcpy_same by (consts; lia).
    rewrite take_ge by (consts; lia). by apply u32_of_to_bytes.
  - rewrite load_memcpy_disjoint by (consts; lia).
    rewrite load_memcpy_same by (rewrite ?length_memcpy; consts; lia).
    apply take_ge. consts; lia.
  - rewrite load_memcpy_same by (rewrite ?length_memcpy; consts; lia).
    apply take_ge. consts; lia.
Qed.

Lemma deserialize_serialize_other r mem dst src :
  wf_row r -> 0 <= dst -> 0 <= src ->
  src + ROW_SIZE <= dst \/ dst + ROW_SIZE <= src ->
  deserialize_row (serialize_row r mem dst) src = deserialize_row mem src.
Proof.
  intros (Hid & Hu & He) Hdst Hsrc Hdis.
  pose proof (length_u32_to_bytes (id r)) as Hi.
  unfold deserialize_row, serialize_row.
  f_equal; [f_equal|..]; rewrite !load_memcpy_disjoint by (consts; lia); done.
Qed.

Lemma valid_sample_row : valid_row sample_row.
Proof. repeat split; try done; vm_compute; discriminate. Qed.
End Codec.

(** C5.  Round-trip law of the record codec: for every row whose username is
    at most 32 bytes and whose email is at most 255 bytes, deserializing from
    a slot what [serialize_row] wrote into it yields the row again. *)
Theorem C5_deserialize_serialize_roundtrip (r : Row) (mem : list byte) (dst : Z) :
  valid_row r ->
  0 <= dst -> dst + ROW_SIZE <= Z.of_nat (length mem) ->
  deserialize_row (serialize_row r mem dst) dst = r.
Proof. intros [Hwf _]. by apply deserialize_serialize. Qed.

(** The round trip of [sample_row] through the first slot of a zeroed page. *)
Lemma C5_witness :
  deserialize_row (serialize_row sample_row (replicate (Z.to_nat PAGE_SIZE) x00) 0) 0
  = sample_row.
Proof.
  apply (C5_deserialize_serialize_roundtrip sample_row).
  - apply valid_sample_row.
  - lia.
  - rewrite length_replicate. vm_compute. discriminate.
Defined.

(** ** The program monad *)

Section Monad.
Context {A B : Type}.
Implicit Types (m : M A) (k : A -> M B) (h : Heap).

Lemma bind_Ret m k h a h' : m h = Ret (a, h') -> bind m k h = k a h'.
Proof. unfold bind. by intros ->. Qed.

Lemma bind_Ret_inv m k h b h2 :
  bind m k h = Ret (b, h2) ->
  exists a h1, m h = Ret (a, h1) /\ k a h1 = Ret (b, h2).
Proof. unfold bind. destruct (m h) as [[a h1]| |]; [eauto|done..]. Qed.

Lemma bind_Undefined m k h : m h = Undefined -> bind m k h = Undefined.
Proof. unfold bind. by intros ->. Qed.

Lemma bind_Exit m k h s : m h = Exit s -> bind m k h = Exit s.
Proof. unfold bind. by intros ->. Qed.
End Monad.

(** ** Constants and row arithmetic *)

Lemma ROW_SIZE_eq : ROW_SIZE = 293.
Proof. reflexivity. Qed.

Lemma ROWS_PER_PAGE_eq : ROWS_PER_PAGE = 13.
Proof. reflexivity. Qed.

Lemma TABLE_MAX_ROWS_eq : TABLE_MAX_ROWS = 1300.
Proof. reflexivity. Qed.

Ltac arith :=
  rewrite ?TABLE_MAX_ROWS_eq, ?ROWS_PER_PAGE_eq, ?ROW_SIZE_eq in *;
  unfold u32, TABLE_MAX_PAGES, PAGE_SIZE in *;
  Z.to_euclidean_division_equations; lia.

Lemma row_page_bound i :
  0 <= i < TABLE_MAX_ROWS -> 0 <= i / ROWS_PER_PAGE < TABLE_MAX_PAGES.
Proof. intros. arith. Qed.

Lemma row_offset_bound i :
  0 <= i ->
  0 <= i mod ROWS_PER_PAGE * ROW_SIZE /\
  i mod ROWS_PER_PAGE * ROW_SIZE + ROW_SIZE <= PAGE_SIZE.
Proof. intros. arith. Qed.

Lemma row_offset_u32 i :
  0 <= i -> u32 (i mod ROWS_PER_PAGE * ROW_SIZE) = i mod ROWS_PER_PAGE * ROW_SIZE.
Proof. intros. unfold u32. apply Z.mod_small. arith. Qed.

Lemma row_slots_disjoint i j :
  0 <= i -> 0 <= j -> i <> j -> i / ROWS_PER_PAGE = j / ROWS_PER_PAGE ->
  i mod ROWS_PER_PAGE * ROW_SIZE + ROW_SIZE <= j mod ROWS_PER_PAGE * ROW_SIZE \/
  j mod ROWS_PER_PAGE * ROW_SIZE + ROW_SIZE <= i mod ROWS_PER_PAGE * ROW_SIZE.
Proof. intros. arith. Qed.

(** ** The pager *)

Section PagerFacts.
Implicit Types (p : Pager) (h : Heap) (page : list byte).

Lemma length_malloc size h page h' :
  malloc size h = Ret (page, h') -> length page = Z.to_nat size.
Proof. unfold malloc. intros [= <- _]. by rewrite length_fmap, length_seq. Qed.

Lemma wf_pager_open file : wf_pager (pager_open file).
Proof.
  split; cbn [pager_open pages].
  - by rewrite length_replicate, Z2Nat.id.
  - intros n page [[=] _]%lookup_replicate.
Qed.

Lemma wf_set_page p n page :
  wf_pager p -> Z.of_nat (length page) = PAGE_SIZE ->
  wf_pager (set_page p n (Some page)).
Proof.
  intros [Hlen Hpages] Hpage. split; simpl.
  - by rewrite length_insert.
  - intros k page' Hk.
    destruct (decide (Z.to_nat n = k)) as [<-|Hne].
    + apply lookup_lt_Some in Hk as Hlt. rewrite length_insert in Hlt.
      rewrite list_lookup_insert_eq in Hk by done. by injection Hk as <-.
    + rewrite list_lookup_insert_ne in Hk by done. eauto.
Qed.

(** A resident page is returned as it is. *)
Lemma get_page_resident p n page h :
  n <= TABLE_MAX_PAGES ->
  pages p !! Z.to_nat n = Some (Some page) ->
  get_page p n h = Ret (p, h).
Proof.
  intros Hn Hres. unfold get_page.
  destruct (Z.gtb_spec n TABLE_MAX_PAGES); [lia|]. by rewrite Hres.
Qed.

(** A page that is not resident is allocated, filled and installed. *)
Lemma get_page_absent p n h :
  n <= TABLE_MAX_PAGES ->
  pages p !! Z.to_nat n = Some None ->
  exists page h',
    get_page p n h = Ret (set_page p n (Some page), h') /\
    Z.of_nat (length page) = PAGE_SIZE.
Proof.
  intros Hn Habs. unfold get_page.
  destruct (Z.gtb_spec n TABLE_MAX_PAGES); [lia|]. rewrite Habs.
  unfold bind. destruct (malloc PAGE_SIZE h) as [[page h']| |] eqn:Hm; [|done..].
  apply length_malloc in Hm.
  eexists _, _. split; [reflexivity|].
  destruct (n <=? _); rewrite ?length_inserts, Hm; done.
Qed.

(** On a well-formed pager every page below [TABLE_MAX_PAGES] can be had. *)
Lemma get_page_in_bounds p n h :
  wf_pager p -> 0 <= n < TABLE_MAX_PAGES ->
  exists p' h' page,
    get_page p n h = Ret (p', h') /\
    wf_pager p' /\
    fd p' = fd p /\ file_length p' = file_length p /\
    pages p' = <[Z.to_nat n := Some page]> (pages p) /\
    pages p' !! Z.to_nat n = Some (Some page) /\
    (forall page0, pages p !! Z.to_nat n = Some (Some page0) ->
                   p' = p /\ h' = h /\ page = page0).
Proof.
  intros Hwf Hn. pose proof Hwf as [Hlen Hpages].
  assert (Hlt : (Z.to_nat n < length (pages p))%nat) by lia.
  destruct (lookup_lt_is_Some_2 _ _ Hlt) as [[page|] Hp].
  - exists p, h, page. rewrite (get_page_resident p n page) by (done || lia).
    rewrite list_insert_id by done.
    do 6 (split; [done|]). intros page0 Hq. rewrite Hp in Hq. by injection Hq as <-.
  - destruct (get_page_absent p n h) as (page & h' & Hget & Hpage); [lia|done|].
    exists (set_page p n (Some page)), h', page. rewrite Hget.
    split; [done|]. split; [by apply wf_set_page|].
    do 3 (split; [done|]). split.
    + simpl. by apply list_lookup_insert_eq.
    + intros page0 ?. congruence.
Qed.
End PagerFacts.

(** ** Rows in the table *)

Section TableFacts.
Implicit Types (t : Table) (p : Pager) (h : Heap) (r : Row) (page : list byte).

Lemma set_pager_id t : set_pager t (pager t) = t.
Proof. by destruct t. Qed.

Lemma row_slot_eq t i h p' h' :
  0 <= i ->
  get_page (pager t) (i / ROWS_PER_PAGE) h = Ret (p', h') ->
  row_slot t i h =
    Ret (set_pager t p',
         {| page_of := i / ROWS_PER_PAGE;
            offset_of := i mod ROWS_PER_PAGE * ROW_SIZE |}, h').
Proof.
  intros Hi Hget. unfold row_slot.
  rewrite (bind_Ret _ _ _ _ _ Hget). by rewrite row_offset_u32.
Qed.

Lemma select_row_eq t i h p' h' page :
  0 <= i ->
  get_page (pager t) (i / ROWS_PER_PAGE) h = Ret (p', h') ->
  pages p' !! Z.to_nat (i / ROWS_PER_PAGE) = Some (Some page) ->
  select_row t i h =
    Ret (deserialize_row page (i mod ROWS_PER_PAGE * ROW_SIZE), set_pager t p', h').
Proof.
  intros Hi Hget Hpage. unfold select_row.
  rewrite (bind_Ret _ _ _ _ _ (row_slot_eq t i h p' h' Hi Hget)).
  unfold read_slot; cbn [page_of offset_of set_pager pager]. by rewrite Hpage.
Qed.

(** Decoding a row of a resident page changes nothing. *)
Lemma select_row_resident t i h page :
  0 <= i -> i / ROWS_PER_PAGE <= TABLE_MAX_PAGES ->
  pages (pager t) !! Z.to_nat (i / ROWS_PER_PAGE) = Some (Some page) ->
  select_row t i h =
    Ret (deserialize_row page (i mod ROWS_PER_PAGE * ROW_SIZE), t, h).
Proof.
  intros Hi Hb Hpage.
  rewrite (select_row_eq t i h (pager t) h page); try done.
  - by rewrite set_pager_id.
  - by eapply get_page_resident.
Qed.

(** What a successful insert does, step by step: the page of row
    [num_rows] is fetched, the row is written into its slot there, and
    [num_rows] is incremented. *)
Lemma execute_insert_eq t r h :
  wf_table t -> 0 <= num_rows t < TABLE_MAX_ROWS ->
  exists p1 h1 page,
    get_page (pager t) (num_rows t / ROWS_PER_PAGE) h = Ret (p1, h1) /\
    wf_pager p1 /\
    fd p1 = fd (pager t) /\ file_length p1 = file_length (pager t) /\
    pages p1 = <[Z.to_nat (num_rows t / ROWS_PER_PAGE) := Some page]> (pages (pager t)) /\
    pages p1 !! Z.to_nat (num_rows t / ROWS_PER_PAGE) = Some (Some page) /\
    (forall page0,
       pages (pager t) !! Z.to_nat (num_rows t / ROWS_PER_PAGE) = Some (Some page0) ->
       p1 = pager t /\ h1 = h /\ page = page0) /\
    execute_insert (insert_statement r) t h =
      Ret (EXECUTE_SUCCESS,
           {| num_rows := num_rows t + 1;
              pager := set_page p1 (num_rows t / ROWS_PER_PAGE)
                         (Some (serialize_row r page
                                  (num_rows t mod ROWS_PER_PAGE * ROW_SIZE))) |},
           h1).
Proof.
  intros Hwf Hn.
  destruct (get_page_in_bounds (pager t) (num_rows t / ROWS_PER_PAGE) h Hwf)
    as (p1 & h1 & page & Hget & Hwf1 & Hfd & Hfl & Hpages & Hpage & Hres).
  { by apply row_page_bound. }
  exists p1, h1, page. do 7 (split; [done|]).
  unfold execute_insert.
  destruct (Z.geb_spec (num_rows t) TABLE_MAX_ROWS); [lia|].
  cbn [insert_statement row_to_insert].
  rewrite (bind_Ret _ _ _ _ _ (row_slot_eq t _ h p1 h1 (proj1 Hn) Hget)).
  unfold write_slot at 1; cbn [page_of offset_of set_pager pager num_rows].
  rewrite Hpage. unfold bind, ret; cbn [num_rows pager set_pager].
  do 3 f_equal. unfold u32. rewrite Z.mod_small; [done|]. arith.
Qed.
End TableFacts.

(** ** Tables built by inserts *)

Section Holds.
Implicit Types (t : Table) (h : Heap) (r : Row) (rs : list Row).

Lemma db_open_empty :
  db_open [] = {| num_rows := 0; pager := pager_open [] |}.
Proof. reflexivity. Qed.

Lemma holds_open_empty : holds [] (db_open []).
Proof.
  rewrite db_open_empty. split; [apply wf_pager_open|].
  split; [done|]. split; [done|]. intros i r _ Hr. by rewrite lookup_nil in Hr.
Qed.

Lemma holds_insert rs t r h :
  holds rs t -> wf_row r -> num_rows t < TABLE_MAX_ROWS ->
  exists t' h',
    execute_insert (insert_statement r) t h = Ret (EXECUTE_SUCCESS, t', h') /\
    holds (rs ++ [r]) t'.
Proof.
  intros (Hwf & Hnum & Hmax & Hrows) Hr Hlt.
  destruct (execute_insert_eq t r h Hwf ltac:(lia))
    as (p1 & h1 & page & Hget & Hwf1 & _ & _ & Hpages & Hpage & Hres & Hins).
  eexists _, _. split; [exact Hins|].
  assert (Hlen : Z.of_nat (length page) = PAGE_SIZE) by (eapply Hwf1, Hpage).
  set (n := num_rows t) in *.
  split; [|split; [|split]]; cbn [num_rows pager].
  - apply wf_set_page; [done|]. by rewrite length_serialize_row.
  - rewrite length_app; simpl. lia.
  - lia.
  - intros i r0 Hi Hr0. cbn [set_page pages].
    assert (Hslot : (Z.to_nat (n / ROWS_PER_PAGE) < length (pages p1))%nat)
      by (eapply lookup_lt_Some, Hpage).
    destruct (decide (i = n)) as [->|Hne].
    + rewrite lookup_app_r, Hnum in Hr0 by lia.
      rewrite Nat2Z.id, Nat.sub_diag in Hr0. injection Hr0 as <-.
      eexists. split; [by apply list_lookup_insert_eq|].
      apply deserialize_serialize; [done|arith|].
      pose proof (row_offset_bound n). lia.
    + assert (Hrs : rs !! Z.to_nat i = Some r0).
      { destruct (decide (i < n)).
        - rewrite lookup_app_l in Hr0 by lia. done.
        - apply lookup_lt_Some in Hr0. rewrite length_app in Hr0. simpl in Hr0. lia. }
      apply lookup_lt_Some in Hrs as Hilt.
      destruct (Hrows i r0 Hi Hrs) as (page0 & Hpage0 & Hdec).
      destruct (decide (i / ROWS_PER_PAGE = n / ROWS_PER_PAGE)) as [Heq|Hneq].
      * rewrite Heq in *.
        destruct (Hres page0 Hpage0) as (_ & _ & ->).
        eexists. split; [by apply list_lookup_insert_eq|].
        rewrite deserialize_serialize_other; [done|done|arith|arith|].
        destruct (row_slots_disjoint i n); try done; lia.
      * exists page0. split; [|done].
        rewrite list_lookup_insert_ne by arith.
        rewrite Hpages, list_lookup_insert_ne by arith. done.
Qed.

Lemma holds_select_row rs t i r h :
  holds rs t -> 0 <= i -> rs !! Z.to_nat i = Some r ->
  select_row t i h = Ret (r, t, h).
Proof.
  intros (Hwf & Hnum & Hmax & Hrows) Hi Hr.
  destruct (Hrows i r Hi Hr) as (page & Hpage & <-).
  apply select_row_resident; [done| |done].
  apply lookup_lt_Some in Hr. arith.
Qed.

Lemma holds_select_loop rs t h (n : nat) :
  holds rs t ->
  forall i, 0 <= i -> i + Z.of_nat n <= Z.of_nat (length rs) ->
  select_loop n i t h = Ret (take n (drop (Z.to_nat i) rs), t, h).
Proof.
  intros Hholds. induction n as [|n IH]; intros i Hi Hn; [done|].
  destruct (lookup_lt_is_Some_2 rs (Z.to_nat i)) as [r Hr]; [lia|].
  cbn [select_loop].
  rewrite (bind_Ret _ _ _ _ _ (holds_select_row rs t i r h Hholds Hi Hr)).
  assert (Hu : u32 (i + 1) = i + 1).
  { destruct Hholds as (_ & Hnum & Hmax & _). unfold u32. apply Z.mod_small. arith. }
  rewrite Hu, (bind_Ret _ _ _ _ _ (IH (i + 1) ltac:(lia) ltac:(lia))).
  unfold ret. do 3 f_equal.
  rewrite (drop_S _ _ _ Hr). simpl. do 3 f_equal. lia.
Qed.

(** A select prints the rows the table holds and leaves the table as it is. *)
Lemma holds_execute_select rs t h s :
  holds rs t -> rs <> [] ->
  execute_select s t h = Ret (EXECUTE_SUCCESS, rs, t, h).
Proof.
  intros Hholds Hne. pose proof Hholds as (_ & Hnum & _).
  unfold execute_select.
  destruct (Z.eqb_spec (num_rows t) 0) as [H0|_].
  { destruct rs; [done|simpl in *; lia]. }
  rewrite (bind_Ret _ _ _ _ _
             (holds_select_loop rs t h (Z.to_nat (num_rows t)) Hholds 0
                ltac:(lia) ltac:(lia))).
  unfold ret. rewrite Hnum, Nat2Z.id. change (Z.to_nat 0) with 0%nat.
  by rewrite drop_0, take_ge by lia.
Qed.

Lemma holds_execute_select_empty t h s :
  holds [] t -> execute_select s t h = Ret (EXECUTE_TABLE_EMPTY, [], t, h).
Proof. intros (_ & Hnum & _). unfold execute_select. by rewrite Hnum. Qed.

Lemma holds_insert_full rs t h s :
  holds rs t -> TABLE_MAX_ROWS <= num_rows t ->
  execute_insert s t h = Ret (EXECUTE_TABLE_FULL, t, h).
Proof.
  intros _ Hfull. unfold execute_insert.
  by destruct (Z.geb_spec (num_rows t) TABLE_MAX_ROWS); [|lia].
Qed.

Lemma execute_statement_insert r t h :
  execute_statement (insert_statement r) t h =
    (let* (result, table) := execute_insert (insert_statement r) t in
     ret (result, [], table)) h.
Proof. done. Qed.

Lemma holds_run_inserts rs :
  forall rs0 t h,
    holds rs0 t -> Forall wf_row rs ->
    Z.of_nat (length rs0) + Z.of_nat (length rs) <= TABLE_MAX_ROWS ->
    exists t' h',
      run (insert_statement <$> rs) t h =
        Ret ((fun _ => (EXECUTE_SUCCESS, [])) <$> rs, t', h') /\
      holds (rs0 ++ rs) t'.
Proof.
  induction rs as [|r rs IH]; intros rs0 t h Hholds Hwf Hlen.
  { exists t, h. by rewrite app_nil_r. }
  apply Forall_cons in Hwf as [Hr Hwf]. simpl in Hlen.
  destruct (holds_insert rs0 t r h Hholds Hr) as (t1 & h1 & Hins & Hholds1).
  { destruct Hholds as (_ & -> & _). lia. }
  destruct (IH (rs0 ++ [r]) t1 h1 Hholds1 Hwf) as (t' & h' & Hrun & Hholds').
  { rewrite length_app. simpl. lia. }
  exists t', h'. rewrite <- app_assoc in Hholds'. split; [|done].
  rewrite fmap_cons. cbn [run].
  assert (Hexec : execute_statement (insert_statement r) t h =
                    Ret (EXECUTE_SUCCESS, [], t1, h1)).
  { rewrite execute_statement_insert. by rewrite (bind_Ret _ _ _ _ _ Hins). }
  rewrite (bind_Ret _ _ _ _ _ Hexec). cbv beta iota.
  by rewrite (bind_Ret _ _ _ _ _ Hrun).
Qed.

Lemma holds_execute_statement rs t h s :
  holds rs t -> wf_statement s ->
  exists result rows t' h' rs',
    execute_statement s t h = Ret (result, rows, t', h') /\ holds rs' t'.
Proof.
  intros Hholds Hs. destruct s as [[] row]; unfold wf_statement in Hs; simpl in Hs.
  - destruct Hs as (r & -> & Hr).
    change (mkStatement STATEMENT_INSERT (Some r)) with (insert_statement r).
    rewrite execute_statement_insert.
    destruct (decide (num_rows t < TABLE_MAX_ROWS)).
    + destruct (holds_insert rs t r h Hholds Hr) as (t1 & h1 & Hins & Hholds1); [done|].
      exists EXECUTE_SUCCESS, [], t1, h1, (rs ++ [r]).
      by rewrite (bind_Ret _ _ _ _ _ Hins).
    + exists EXECUTE_TABLE_FULL, [], t, h, rs.
      by rewrite (bind_Ret _ _ _ _ _ (holds_insert_full rs t h _ Hholds ltac:(lia))).
  - unfold execute_statement; cbn [type].
    destruct rs as [|r0 rs].
    + exists EXECUTE_TABLE_EMPTY, [], t, h, [].
      by rewrite holds_execute_select_empty.
    + exists EXECUTE_SUCCESS, (r0 :: rs), t, h, (r0 :: rs).
      by rewrite (holds_execute_select (r0 :: rs)).
Qed.

Lemma holds_run statements :
  forall rs t h,
    holds rs t -> Forall wf_statement statements ->
    exists outputs t' h' rs',
      run statements t h = Ret (outputs, t', h') /\ holds rs' t'.
Proof.
  induction statements as [|s statements IH]; intros rs t h Hholds Hwf.
  { by exists [], t, h, rs. }
  apply Forall_cons in Hwf as [Hs Hwf].
  destruct (holds_execute_statement rs t h s Hholds Hs)
    as (result & rows & t1 & h1 & rs1 & Hexec & Hholds1).
  destruct (IH rs1 t1 h1 Hholds1 Hwf) as (outputs & t' & h' & rs' & Hrun & Hholds').
  exists ((result, rows) :: outputs), t', h', rs'. split; [|done].
  cbn [run]. rewrite (bind_Ret _ _ _ _ _ Hexec). cbv beta iota.
  by rewrite (bind_Ret _ _ _ _ _ Hrun).
Qed.

End Holds.

(** C6.  Append order: for every non-empty sequence of valid rows that fits
    the table, inserting them in order into a table opened on an empty file
    succeeds at each insert, and the select that follows succeeds and prints
    exactly these rows, in that order (it decodes rows 0 to [num_rows - 1]
    in ascending order). *)
Theorem C6_select_yields_inserted_rows (rs : list Row) (h : Heap) :
  Forall valid_row rs -> rs <> [] ->
  Z.of_nat (length rs) <= TABLE_MAX_ROWS ->
  exists t h',
    run (insert_statement <$> rs) (db_open []) h =
      Ret ((fun _ => (EXECUTE_SUCCESS, [])) <$> rs, t, h') /\
    num_rows t = Z.of_nat (length rs) /\
    execute_select select_statement t h' = Ret (EXECUTE_SUCCESS, rs, t, h').
Proof.
  intros Hvalid Hne Hlen.
  destruct (holds_run_inserts rs [] (db_open []) h holds_open_empty) as (t & h' & Hrun & Hholds).
  { eapply Forall_impl; [exact Hvalid|]. by intros r [Hr _]. }
  { simpl. lia. }
  exists t, h'. split; [done|]. split; [apply Hholds|].
  by apply holds_execute_select.
Qed.

(** Two rows are inserted and selected. *)
Lemma C6_witness :
  exists t h',
    run (insert_statement <$> [sample_row; sample_row]) (db_open []) sample_heap =
      Ret ((fun _ => (EXECUTE_SUCCESS, [])) <$> [sample_row; sample_row], t, h') /\
    num_rows t = Z.of_nat (length [sample_row; sample_row]) /\
    execute_select select_statement t h' =
      Ret (EXECUTE_SUCCESS, [sample_row; sample_row], t, h').
Proof.
  apply (C6_select_yields_inserted_rows [sample_row; sample_row] sample_heap).
  - repeat constructor; apply valid_sample_row.
  - discriminate.
  - vm_compute. discriminate.
Defined.


(** ** Capacity *)

Lemma execute_insert_full_inv s t h t' h' :
  execute_insert s t h = Ret (EXECUTE_TABLE_FULL, t', h') ->
  TABLE_MAX_ROWS <= num_rows t /\ t' = t /\ h' = h.
Proof.
  unfold execute_insert.
  destruct (Z.geb_spec (num_rows t) TABLE_MAX_ROWS) as [Hfull|Hroom].
  - intros [= <- <-]. done.
  - destruct (row_to_insert s) as [row|]; [|done].
    intros ([t1 p] & h1 & _ & Hk)%bind_Ret_inv.
    apply bind_Ret_inv in Hk as (t2 & h2 & _ & Hk). discriminate Hk.
Qed.

(** C7.  An insert returns [EXECUTE_TABLE_FULL] exactly when [num_rows] has
    reached [TABLE_MAX_ROWS]; it then leaves the table as it was; and after
    [TABLE_MAX_ROWS] successful inserts into a table opened on an empty file
    the next insert returns [EXECUTE_TABLE_FULL] with [num_rows] unchanged. *)
Theorem C7_insert_table_full :
  (forall s t h,
     (exists t' h', execute_insert s t h = Ret (EXECUTE_TABLE_FULL, t', h')) <->
     TABLE_MAX_ROWS <= num_rows t) /\
  (forall s t h t' h',
     execute_insert s t h = Ret (EXECUTE_TABLE_FULL, t', h') -> t' = t /\ h' = h) /\
  (forall rs r h,
     Forall wf_row rs -> Z.of_nat (length rs) = TABLE_MAX_ROWS ->
     exists t h',
       run (insert_statement <$> rs) (db_open []) h =
         Ret ((fun _ => (EXECUTE_SUCCESS, [])) <$> rs, t, h') /\
       num_rows t = TABLE_MAX_ROWS /\
       execute_insert (insert_statement r) t h' = Ret (EXECUTE_TABLE_FULL, t, h')).
Proof.
  split; [|split].
  - intros s t h. split.
    + intros (t' & h' & Hfull). by apply execute_insert_full_inv in Hfull as [? _].
    + intros Hfull. exists t, h. unfold execute_insert.
      by destruct (Z.geb_spec (num_rows t) TABLE_MAX_ROWS); [|lia].
  - intros s t h t' h' Hfull. by apply execute_insert_full_inv in Hfull as [_ ?].
  - intros rs r h Hwf Hlen.
    destruct (holds_run_inserts rs [] (db_open []) h holds_open_empty Hwf)
      as (t & h' & Hrun & Hholds); [simpl; lia|].
    exists t, h'. split; [done|].
    assert (Hnum : num_rows t = TABLE_MAX_ROWS) by (destruct Hholds as (_ & -> & _); done).
    split; [done|]. eapply holds_insert_full; [exact Hholds|lia].
Qed.

(** [TABLE_MAX_ROWS] copies of [sample_row] fill the table; the next insert is refused. *)
Lemma C7_witness :
  exists t h',
    run (insert_statement <$> replicate (Z.to_nat TABLE_MAX_ROWS) sample_row)
        (db_open []) sample_heap =
      Ret ((fun _ => (EXECUTE_SUCCESS, [])) <$> replicate (Z.to_nat TABLE_MAX_ROWS) sample_row,
           t, h') /\
    num_rows t = TABLE_MAX_ROWS /\
    execute_insert (insert_statement sample_row) t h' = Ret (EXECUTE_TABLE_FULL, t, h').
Proof.
  apply (proj2 (proj2 C7_insert_table_full)).
  - apply Forall_replicate, valid_sample_row.
  - by rewrite length_replicate, Z2Nat.id.
Defined.

(** ** The row-count invariant *)

(** C10.  Whatever sequence of inserts and selects is run on a table opened
    on an empty file, the run returns and leaves [num_rows] at most
    [TABLE_MAX_ROWS]; hence every row index the next statement addresses
    (rows below [num_rows] for a select, row [num_rows] for an insert that is
    not refused) lies on a page below [TABLE_MAX_PAGES]. *)
Theorem C10_num_rows_bounded (statements : list Statement) (h : Heap) :
  Forall wf_statement statements ->
  exists outputs t h',
    run statements (db_open []) h = Ret (outputs, t, h') /\
    0 <= num_rows t <= TABLE_MAX_ROWS /\
    forall i,
      0 <= i < num_rows t \/ (i = num_rows t /\ num_rows t < TABLE_MAX_ROWS) ->
      0 <= i / ROWS_PER_PAGE < TABLE_MAX_PAGES.
Proof.
  intros Hwf.
  destruct (holds_run statements [] (db_open []) h holds_open_empty Hwf)
    as (outputs & t & h' & rs & Hrun & Hholds).
  exists outputs, t, h'. split; [done|].
  destruct Hholds as (_ & Hnum & Hmax & _).
  split; [lia|]. intros i Hi. apply row_page_bound. lia.
Qed.

(** An insert, a select and an insert on a table opened on an empty file. *)
Lemma C10_witness :
  exists outputs t h',
    run [insert_statement sample_row; select_statement; insert_statement sample_row]
        (db_open []) sample_heap = Ret (outputs, t, h') /\
    0 <= num_rows t <= TABLE_MAX_ROWS /\
    forall i,
      0 <= i < num_rows t \/ (i = num_rows t /\ num_rows t < TABLE_MAX_ROWS) ->
      0 <= i / ROWS_PER_PAGE < TABLE_MAX_PAGES.
Proof.
  apply (C10_num_rows_bounded
           [insert_statement sample_row; select_statement; insert_statement sample_row]).
  repeat constructor; exists sample_row; split; try done; apply valid_sample_row.
Defined.

(** ** Page requests *)

Section GetPage.
Implicit Types (p : Pager) (h : Heap).

(** A request above [TABLE_MAX_PAGES] terminates the process before any
    allocation. *)
Lemma get_page_above_max p n h :
  TABLE_MAX_PAGES < n -> get_page p n h = Exit EXIT_FAILURE.
Proof.
  intros Hn. unfold get_page.
  by destruct (Z.gtb_spec n TABLE_MAX_PAGES); [|lia].
Qed.

Lemma get_page_at_max p h :
  wf_pager p -> get_page p TABLE_MAX_PAGES h = Undefined.
Proof.
  intros [Hlen _]. unfold get_page.
  destruct (Z.gtb_spec TABLE_MAX_PAGES TABLE_MAX_PAGES); [lia|].
  by rewrite lookup_ge_None_2 by lia.
Qed.

(** Only pages below [TABLE_MAX_PAGES] can be returned. *)
Lemma get_page_Ret_bound p n h p' h' :
  wf_pager p -> 0 <= n -> get_page p n h = Ret (p', h') -> n < TABLE_MAX_PAGES.
Proof.
  intros [Hlen _] Hn. unfold get_page.
  destruct (Z.gtb_spec n TABLE_MAX_PAGES); [done|].
  destruct (pages p !! Z.to_nat n) as [o|] eqn:Hp; [|done].
  apply lookup_lt_Some in Hp. lia.
Qed.

(** The result of a request depends on the pager through the entry of the
    page, the file and its recorded length only. *)
Lemma get_page_congr p q n h p' h' :
  fd p = fd q -> file_length p = file_length q ->
  pages p !! Z.to_nat n = pages q !! Z.to_nat n ->
  get_page p n h = Ret (p', h') ->
  exists q', get_page q n h = Ret (q', h') /\
             pages q' !! Z.to_nat n = pages p' !! Z.to_nat n.
Proof.
  intros Hfd Hfl Hpages. unfold get_page.
  destruct (n >? TABLE_MAX_PAGES); [done|]. rewrite <- Hpages.
  destruct (pages p !! Z.to_nat n) as [[page|]|] eqn:Hp; [| |done].
  - intros [= <- <-]. exists q. by rewrite <- Hpages.
  - unfold bind, malloc, ret. rewrite <- Hfd, <- Hfl.
    match goal with
    | |- Ret (set_page _ _ (Some ?page), ?h1) = _ -> _ => generalize page, h1
    end.
    intros page h1 [= <- <-]. eexists. split; [reflexivity|]. cbn [set_page pages].
    apply lookup_lt_Some in Hp as Hlt. symmetry in Hpages.
    apply lookup_lt_Some in Hpages as Hlt'.
    by rewrite !list_lookup_insert_eq.
Qed.
End GetPage.

(** C3.  At [page_num = TABLE_MAX_PAGES] the bounds check of [get_page] lets
    the request through (it compares with [>]): the call does not terminate
    with the out-of-bounds failure, it reads [pages[TABLE_MAX_PAGES]], one
    entry past the end of the array. *)
Theorem C3_get_page_at_max_pages (p : Pager) (h : Heap) :
  (forall status, get_page p TABLE_MAX_PAGES h <> Exit status) /\
  (wf_pager p -> get_page p TABLE_MAX_PAGES h = Undefined).
Proof.
  split; [|apply get_page_at_max].
  intros status. unfold get_page.
  destruct (Z.gtb_spec TABLE_MAX_PAGES TABLE_MAX_PAGES); [lia|].
  destruct (pages p !! Z.to_nat TABLE_MAX_PAGES) as [[page|]|]; try done.
Qed.

(** Page [TABLE_MAX_PAGES] of a pager just opened on an empty file. *)
Lemma C3_witness : get_page (pager_open []) TABLE_MAX_PAGES sample_heap = Undefined.
Proof.
  apply (proj2 (C3_get_page_at_max_pages (pager_open []) sample_heap)).
  apply wf_pager_open.
Defined.

(** C4, as stated, fails: the buffer comes from [malloc] and is not zeroed.
    On an empty file the page that [get_page] makes resident is not the
    all-zero page when the allocator hands out a block of 0xaa bytes. *)
Lemma C4_buffer_not_zeroed :
  ~ exists p' h',
      get_page (pager_open []) 0 sample_heap = Ret (p', h') /\
      pages p' !! 0%nat = Some (Some (replicate (Z.to_nat PAGE_SIZE) x00)).
Proof.
  intros (p' & h' & Hget & Hpage).
  vm_compute in Hget. injection Hget as <- <-.
  vm_compute in Hpage. discriminate Hpage.
Qed.

(** What [get_page] puts into a page that was not resident. *)
Lemma get_page_loads (p : Pager) (n : Z) (h : Heap) :
  0 <= n < TABLE_MAX_PAGES ->
  pages p !! Z.to_nat n = Some None ->
  file_length p = Z.of_nat (length (fd p)) ->
  Z.of_nat (length (fd p)) + PAGE_SIZE <= 2 ^ 32 ->
  exists page,
    get_page p n h = Ret (set_page p n (Some page), next_heap h) /\
    Z.of_nat (length page) = PAGE_SIZE /\
    forall k : nat,
      Z.of_nat k < PAGE_SIZE ->
      page !! k =
        Some (default (uninit h (allocations h) k)
                      (fd p !! (Z.to_nat (n * PAGE_SIZE) + k)%nat)).
Proof.
  intros Hn Habs Hfl Hsize.
  set (block := uninit h (allocations h) <$> seq 0 (Z.to_nat PAGE_SIZE)).
  assert (Hblock : forall k : nat, Z.of_nat k < PAGE_SIZE ->
                     block !! k = Some (uninit h (allocations h) k)).
  { intros k Hk. unfold block. rewrite list_lookup_fmap, lookup_seq_lt by lia. done. }
  assert (Hblen : Z.of_nat (length block) = PAGE_SIZE).
  { unfold block. by rewrite length_fmap, length_seq, Z2Nat.id. }
  unfold get_page. destruct (Z.gtb_spec n TABLE_MAX_PAGES); [lia|].
  rewrite Habs. unfold bind, malloc, ret, next_heap. fold block.
  eexists. split; [reflexivity|]. rewrite Hfl.
  assert (Hoff : u32 (n * PAGE_SIZE) = n * PAGE_SIZE).
  { unfold u32. apply Z.mod_small. unfold TABLE_MAX_PAGES, PAGE_SIZE in *. lia. }
  destruct (Z.leb_spec n (u32 (Z.of_nat (length (fd p)) + PAGE_SIZE - 1) / PAGE_SIZE))
    as [Hle|Hgt].
  - rewrite Hoff. unfold pread. split; [rewrite length_inserts; lia|].
    intros k Hk.
    set (rd := take (Z.to_nat PAGE_SIZE) (drop (Z.to_nat (n * PAGE_SIZE)) (fd p))).
    destruct (decide (k < length rd)%nat) as [Hin|Hout].
    + rewrite list_lookup_inserts by lia.
      unfold rd in *. rewrite Nat.sub_0_r, lookup_take_lt, lookup_drop by lia.
      rewrite length_take, length_drop in Hin.
      destruct (lookup_lt_is_Some_2 (fd p) (Z.to_nat (n * PAGE_SIZE) + k)) as [b ->]; [lia|].
      done.
    + rewrite list_lookup_inserts_ge by (simpl; lia).
      unfold rd in *. rewrite length_take, length_drop in Hout.
      rewrite (lookup_ge_None_2 (fd p)) by lia. by apply Hblock.
  - split; [lia|]. intros k Hk.
    rewrite (lookup_ge_None_2 (fd p)); [by apply Hblock|].
    unfold u32 in Hgt. rewrite Z.mod_small in Hgt by (unfold PAGE_SIZE in *; lia).
    unfold PAGE_SIZE in *. Z.to_euclidean_division_equations. lia.
Qed.

(** What [get_page] puts into a page that was not resident, whatever the
    recorded length: the guard [page_num <= num_pages] decides whether the
    file is read. *)
Lemma get_page_fetch (p : Pager) (n : Z) (h : Heap) :
  0 <= n < TABLE_MAX_PAGES ->
  pages p !! Z.to_nat n = Some None ->
  exists page,
    get_page p n h = Ret (set_page p n (Some page), next_heap h) /\
    Z.of_nat (length page) = PAGE_SIZE /\
    forall k : nat,
      Z.of_nat k < PAGE_SIZE ->
      page !! k =
        Some (if n <=? num_pages p
              then default (uninit h (allocations h) k)
                           (fd p !! (Z.to_nat (n * PAGE_SIZE) + k)%nat)
              else uninit h (allocations h) k).
Proof.
  intros Hn Habs.
  set (block := uninit h (allocations h) <$> seq 0 (Z.to_nat PAGE_SIZE)).
  assert (Hblock : forall k : nat, Z.of_nat k < PAGE_SIZE ->
                     block !! k = Some (uninit h (allocations h) k)).
  { intros k Hk. unfold block. rewrite list_lookup_fmap, lookup_seq_lt by lia. done. }
  assert (Hblen : Z.of_nat (length block) = PAGE_SIZE).
  { unfold block. by rewrite length_fmap, length_seq, Z2Nat.id. }
  unfold get_page. destruct (Z.gtb_spec n TABLE_MAX_PAGES); [lia|].
  rewrite Habs. unfold bind, malloc, ret, next_heap. fold block.
  eexists. split; [reflexivity|].
  assert (Hoff : u32 (n * PAGE_SIZE) = n * PAGE_SIZE).
  { unfold u32. apply Z.mod_small. unfold TABLE_MAX_PAGES, PAGE_SIZE in *. lia. }
  unfold num_pages.
  destruct (Z.leb_spec n (u32 (file_length p + PAGE_SIZE - 1) / PAGE_SIZE)) as [Hle|Hgt].
  - rewrite Hoff. unfold pread. split; [rewrite length_inserts; lia|].
    intros k Hk.
    set (rd := take (Z.to_nat PAGE_SIZE) (drop (Z.to_nat (n * PAGE_SIZE)) (fd p))).
    destruct (decide (k < length rd)%nat) as [Hin|Hout].
    + rewrite list_lookup_inserts by lia.
      unfold rd in *. rewrite Nat.sub_0_r, lookup_take_lt, lookup_drop by lia.
      rewrite length_take, length_drop in Hin.
      destruct (lookup_lt_is_Some_2 (fd p) (Z.to_nat (n * PAGE_SIZE) + k)) as [b ->]; [lia|].
      done.
    + rewrite list_lookup_inserts_ge by (simpl; lia).
      unfold rd in *. rewrite length_take, length_drop in Hout.
      rewrite (lookup_ge_None_2 (fd p)) by lia. by apply Hblock.
  - split; [lia|]. intros k Hk. by apply Hblock.
Qed.

(** Without wrap-around, [page_num <= num_pages] says that the page starts
    less than a page after the recorded length. *)
Lemma num_pages_guard (p : Pager) (n : Z) :
  0 <= file_length p -> file_length p + PAGE_SIZE <= 2 ^ 32 ->
  n <= num_pages p <-> n * PAGE_SIZE < file_length p + PAGE_SIZE.
Proof.
  intros H0 Hmax. unfold num_pages, u32.
  rewrite Z.mod_small by (unfold PAGE_SIZE in *; lia).
  unfold PAGE_SIZE in *. split; intros H; Z.to_euclidean_division_equations; lia.
Qed.

(** C4, amended.  For a page below [TABLE_MAX_PAGES] that is not resident,
    [get_page] makes resident a buffer of [PAGE_SIZE] bytes from [malloc],
    which is not zeroed.  It reads from the file only if
    [page_num <= num_pages]: then byte [k] of the buffer is the byte of the
    file at the page's offset plus [k] where the file has one, and every
    other byte is the byte of the freshly allocated block; without a read
    the whole buffer is the allocated block.  While the recorded length is
    at most [2^32 - PAGE_SIZE], the guard holds exactly for the pages that
    start below [file_length + PAGE_SIZE]: those within the recorded length
    and the page after them.  When moreover the recorded length is the
    length of the file, the buffer takes from the file exactly the bytes at
    offsets within the recorded length, and after a short read the rest of
    the buffer is what [malloc] returned, not zeros. *)
Theorem C4_get_page_loads (p : Pager) (n : Z) (h : Heap) :
  0 <= n < TABLE_MAX_PAGES ->
  pages p !! Z.to_nat n = Some None ->
  exists page,
    get_page p n h = Ret (set_page p n (Some page), next_heap h) /\
    Z.of_nat (length page) = PAGE_SIZE /\
    (forall k : nat,
       Z.of_nat k < PAGE_SIZE ->
       page !! k =
         Some (if n <=? num_pages p
               then default (uninit h (allocations h) k)
                            (fd p !! (Z.to_nat (n * PAGE_SIZE) + k)%nat)
               else uninit h (allocations h) k)) /\
    (0 <= file_length p -> file_length p + PAGE_SIZE <= 2 ^ 32 ->
     (n <= num_pages p <-> n * PAGE_SIZE < file_length p + PAGE_SIZE)) /\
    (file_length p = Z.of_nat (length (fd p)) ->
     file_length p + PAGE_SIZE <= 2 ^ 32 ->
     forall k : nat,
       Z.of_nat k < PAGE_SIZE ->
       page !! k =
         if decide (n * PAGE_SIZE + Z.of_nat k < file_length p)
         then fd p !! (Z.to_nat (n * PAGE_SIZE) + k)%nat
         else Some (uninit h (allocations h) k)).
Proof.
  intros Hn Habs.
  destruct (get_page_fetch p n h Hn Habs) as (page & Hget & Hlen & Hbytes).
  exists page. split; [done|]. split; [done|]. split; [done|].
  split; [apply num_pages_guard|].
  intros Hfl Hmax k Hk. rewrite (Hbytes k Hk).
  assert (H0 : 0 <= file_length p) by lia.
  pose proof (num_pages_guard p n H0 Hmax) as Hguard.
  destruct (decide (n * PAGE_SIZE + Z.of_nat k < file_length p)) as [Hin|Hout].
  - destruct (Z.leb_spec n (num_pages p)) as [_|Hgt]; [|lia].
    destruct (lookup_lt_is_Some_2 (fd p) (Z.to_nat (n * PAGE_SIZE) + k)) as [b ->];
      [lia|done].
  - destruct (Z.leb_spec n (num_pages p)) as [_|_]; [|done].
    by rewrite (lookup_ge_None_2 (fd p)) by lia.
Qed.

(** Page 0 of a pager opened on a file of two bytes: a short read. *)
Lemma C4_witness :
  exists page,
    get_page (pager_open [x64; x62]) 0 sample_heap =
      Ret (set_page (pager_open [x64; x62]) 0 (Some page), next_heap sample_heap) /\
    Z.of_nat (length page) = PAGE_SIZE /\
    (forall k : nat,
       Z.of_nat k < PAGE_SIZE ->
       page !! k =
         Some (if 0 <=? num_pages (pager_open [x64; x62])
               then default (uninit sample_heap (allocations sample_heap) k)
                            ([x64; x62] !! (Z.to_nat (0 * PAGE_SIZE) + k)%nat)
               else uninit sample_heap (allocations sample_heap) k)) /\
    (0 <= file_length (pager_open [x64; x62]) ->
     file_length (pager_open [x64; x62]) + PAGE_SIZE <= 2 ^ 32 ->
     (0 <= num_pages (pager_open [x64; x62]) <->
      0 * PAGE_SIZE < file_length (pager_open [x64; x62]) + PAGE_SIZE)) /\
    (file_length (pager_open [x64; x62]) = Z.of_nat (length (fd (pager_open [x64; x62]))) ->
     file_length (pager_open [x64; x62]) + PAGE_SIZE <= 2 ^ 32 ->
     forall k : nat,
       Z.of_nat k < PAGE_SIZE ->
       page !! k =
         if decide (0 * PAGE_SIZE + Z.of_nat k < file_length (pager_open [x64; x62]))
         then [x64; x62] !! (Z.to_nat (0 * PAGE_SIZE) + k)%nat
         else Some (uninit sample_heap (allocations sample_heap) k)).
Proof.
  apply (C4_get_page_loads (pager_open [x64; x62]) 0 sample_heap).
  - unfold TABLE_MAX_PAGES. lia.
  - reflexivity.
Defined.

(** ** Scans *)

Section Select.
Implicit Types (t : Table) (h : Heap).

Lemma select_row_in_bounds t i h :
  wf_table t -> 0 <= i < TABLE_MAX_ROWS ->
  exists row t' h',
    select_row t i h = Ret (row, t', h') /\ wf_table t' /\ num_rows t' = num_rows t.
Proof.
  intros Hwf Hi.
  destruct (get_page_in_bounds (pager t) (i / ROWS_PER_PAGE) h Hwf)
    as (p' & h' & page & Hget & Hwf' & _ & _ & _ & Hpage & _).
  { by apply row_page_bound. }
  eexists _, _, _. split; [|split].
  - eapply select_row_eq; [lia|exact Hget|exact Hpage].
  - done.
  - done.
Qed.

Lemma select_loop_in_bounds (n : nat) :
  forall t i h,
    wf_table t -> 0 <= i -> i + Z.of_nat n <= TABLE_MAX_ROWS ->
    exists rows t' h',
      select_loop n i t h = Ret (rows, t', h') /\ length rows = n.
Proof.
  induction n as [|n IH]; intros t i h Hwf Hi Hn.
  { by exists [], t, h. }
  destruct (select_row_in_bounds t i h Hwf) as (row & t1 & h1 & Hrow & Hwf1 & _); [lia|].
  assert (Hu : u32 (i + 1) = i + 1) by (unfold u32; apply Z.mod_small; arith).
  destruct (IH t1 (i + 1) h1 Hwf1) as (rows & t' & h' & Hloop & Hlen); [lia..|].
  exists (row :: rows), t', h'. split; [|by rewrite <- Hlen].
  cbn [select_loop]. rewrite (bind_Ret _ _ _ _ _ Hrow). cbv beta iota.
  rewrite Hu. by rewrite (bind_Ret _ _ _ _ _ Hloop).
Qed.

(** A scan that goes past row [TABLE_MAX_ROWS - 1] asks for page
    [TABLE_MAX_PAGES]. *)
Lemma select_loop_overrun (n : nat) :
  forall t i h,
    wf_table t -> 0 <= i <= TABLE_MAX_ROWS -> TABLE_MAX_ROWS < i + Z.of_nat n ->
    select_loop n i t h = Undefined.
Proof.
  induction n as [|n IH]; intros t i h Hwf Hi Hn; [lia|].
  cbn [select_loop].
  destruct (decide (i = TABLE_MAX_ROWS)) as [->|Hne].
  - apply bind_Undefined. unfold select_row. apply bind_Undefined.
    unfold row_slot. apply bind_Undefined. by apply get_page_at_max.
  - destruct (select_row_in_bounds t i h Hwf) as (row & t1 & h1 & Hrow & Hwf1 & _); [lia|].
    rewrite (bind_Ret _ _ _ _ _ Hrow). cbv beta iota.
    assert (Hu : u32 (i + 1) = i + 1) by (unfold u32; apply Z.mod_small; arith).
    rewrite Hu. apply bind_Undefined. apply IH; [done|lia..].
Qed.

Lemma execute_select_oversize s t h :
  wf_table t -> TABLE_MAX_ROWS < num_rows t -> execute_select s t h = Undefined.
Proof.
  intros Hwf Hn. unfold execute_select.
  destruct (Z.eqb_spec (num_rows t) 0) as [H0|_]; [rewrite TABLE_MAX_ROWS_eq in Hn; lia|].
  apply bind_Undefined, select_loop_overrun; [done|rewrite TABLE_MAX_ROWS_eq; lia|lia].
Qed.

Lemma execute_select_in_bounds s t h :
  wf_table t -> 0 < num_rows t <= TABLE_MAX_ROWS ->
  exists rows t' h',
    execute_select s t h = Ret (EXECUTE_SUCCESS, rows, t', h') /\
    Z.of_nat (length rows) = num_rows t.
Proof.
  intros Hwf Hn. unfold execute_select.
  destruct (Z.eqb_spec (num_rows t) 0) as [H0|_]; [lia|].
  destruct (select_loop_in_bounds (Z.to_nat (num_rows t)) t 0 h Hwf)
    as (rows & t' & h' & Hloop & Hlen); [lia..|].
  exists rows, t', h'. rewrite (bind_Ret _ _ _ _ _ Hloop). split; [done|lia].
Qed.

Lemma wf_db_open file : wf_table (db_open file).
Proof. apply wf_pager_open. Qed.

Lemma num_rows_oversize : num_rows (db_open oversize_file) = TABLE_MAX_ROWS + 1.
Proof.
  unfold db_open, pager_open, oversize_file; cbn [num_rows file_length].
  rewrite length_replicate, Z2Nat.id by (rewrite ROW_SIZE_eq; lia).
  reflexivity.
Qed.
End Select.

(** C8, as stated, fails for a table with more than [TABLE_MAX_ROWS] rows,
    which [db_open] builds from a file of more than [TABLE_MAX_ROWS] rows'
    worth of bytes: [num_rows] is positive and the select does not succeed,
    its scan runs into page [TABLE_MAX_PAGES]. *)
Lemma C8_select_oversize_table :
  0 < num_rows (db_open oversize_file) /\
  ~ exists rows t' h',
      execute_select select_statement (db_open oversize_file) sample_heap =
        Ret (EXECUTE_SUCCESS, rows, t', h').
Proof.
  pose proof num_rows_oversize as Hnum. rewrite TABLE_MAX_ROWS_eq in Hnum.
  split; [lia|]. intros (rows & t' & h' & Hsel).
  rewrite execute_select_oversize in Hsel; [discriminate Hsel|apply wf_db_open|].
  rewrite TABLE_MAX_ROWS_eq. lia.
Qed.

(** C8, amended.  A select returns [EXECUTE_TABLE_EMPTY] exactly when
    [num_rows] is 0; in particular it does so on a table just opened on an
    empty file; and on a table with between 1 and [TABLE_MAX_ROWS] rows it
    succeeds and prints [num_rows] rows. *)
Theorem C8_select_table_empty :
  (forall s t h,
     (exists rows t' h', execute_select s t h = Ret (EXECUTE_TABLE_EMPTY, rows, t', h')) <->
     num_rows t = 0) /\
  (forall s h,
     execute_select s (db_open []) h = Ret (EXECUTE_TABLE_EMPTY, [], db_open [], h)) /\
  (forall s t h,
     wf_table t -> 0 < num_rows t <= TABLE_MAX_ROWS ->
     exists rows t' h',
       execute_select s t h = Ret (EXECUTE_SUCCESS, rows, t', h') /\
       Z.of_nat (length rows) = num_rows t).
Proof.
  split; [|split].
  - intros s t h. unfold execute_select.
    destruct (Z.eqb_spec (num_rows t) 0) as [H0|Hpos].
    + split; [done|]. intros _. by exists [], t, h.
    + split; [|done]. intros (rows & t' & h' & Hsel).
      apply bind_Ret_inv in Hsel as ([rows1 t1] & h1 & _ & Hk). discriminate Hk.
  - intros s h. by apply holds_execute_select_empty, holds_open_empty.
  - intros s t h. apply execute_select_in_bounds.
Qed.

(** A select on a table of one row. *)
Lemma C8_witness :
  exists rows t' h',
    execute_select select_statement
      {| num_rows := 1; pager := pager_open (replicate (Z.to_nat ROW_SIZE) x00) |}
      sample_heap = Ret (EXECUTE_SUCCESS, rows, t', h') /\
    Z.of_nat (length rows) = 1.
Proof.
  apply (proj2 (proj2 C8_select_table_empty) select_statement
           {| num_rows := 1; pager := pager_open (replicate (Z.to_nat ROW_SIZE) x00) |}).
  - apply wf_pager_open.
  - simpl. rewrite TABLE_MAX_ROWS_eq. lia.
Defined.

(** ** The frame of an insert *)

Section Frame.
Implicit Types (t : Table) (h g : Heap) (r : Row).

Lemma row_at_eq t i h p' h' page :
  0 <= i ->
  get_page (pager t) (i / ROWS_PER_PAGE) h = Ret (p', h') ->
  pages p' !! Z.to_nat (i / ROWS_PER_PAGE) = Some (Some page) ->
  row_at t i h = Some (deserialize_row page (i mod ROWS_PER_PAGE * ROW_SIZE)).
Proof.
  intros Hi Hget Hpage. unfold row_at.
  by rewrite (select_row_eq t i h p' h' page).
Qed.

(** The decoding of a row of a resident page does not depend on the
    allocator. *)
Lemma row_at_resident t i h g page :
  0 <= i < TABLE_MAX_ROWS ->
  pages (pager t) !! Z.to_nat (i / ROWS_PER_PAGE) = Some (Some page) ->
  row_at t i h = row_at t i g.
Proof.
  intros Hi Hpage. pose proof (row_page_bound i Hi).
  unfold row_at. by rewrite !(select_row_resident t i _ page) by (done || lia).
Qed.

(** Rows on other pages than the one written. *)
Lemma row_at_other_page t t' i g :
  wf_table t -> 0 <= i < TABLE_MAX_ROWS ->
  fd (pager t') = fd (pager t) ->
  file_length (pager t') = file_length (pager t) ->
  pages (pager t') !! Z.to_nat (i / ROWS_PER_PAGE) =
    pages (pager t) !! Z.to_nat (i / ROWS_PER_PAGE) ->
  row_at t' i g = row_at t i g.
Proof.
  intros Hwf Hi Hfd Hfl Hpages.
  destruct (get_page_in_bounds (pager t) (i / ROWS_PER_PAGE) g Hwf)
    as (p1 & g1 & page & Hget & _ & _ & _ & _ & Hpage & _).
  { by apply row_page_bound. }
  destruct (get_page_congr (pager t) (pager t') (i / ROWS_PER_PAGE) g p1 g1)
    as (q1 & Hget' & Hpage'); [done..|].
  rewrite (row_at_eq t i g p1 g1 page) by (done || lia).
  rewrite (row_at_eq t' i g q1 g1 page) by (done || lia || congruence). done.
Qed.
End Frame.

(** C9.  A successful insert into a table with room fetches the page of row
    [num_rows], writes the row into the slot at offset
    [(num_rows mod ROWS_PER_PAGE) * ROW_SIZE] of that page and nothing else
    (the other pages, the other bytes of that page and the file are as
    before), and increments [num_rows] by one.  Every earlier row decodes
    after the insert to what it decoded to before.  (A row on a page that is
    not resident is decoded by loading the page, and the bytes the file does
    not provide come from the allocator; for the page of the new slot the
    decoding before the insert is the one at the allocator state [h] of the
    insert, which brings that page in.) *)
Theorem C9_insert_frame (t : Table) (r : Row) (h : Heap) :
  wf_table t -> wf_row r -> 0 <= num_rows t < TABLE_MAX_ROWS ->
  let page_num := num_rows t / ROWS_PER_PAGE in
  let offset := num_rows t mod ROWS_PER_PAGE * ROW_SIZE in
  exists t' h' p1 page page',
    execute_insert (insert_statement r) t h = Ret (EXECUTE_SUCCESS, t', h') /\
    num_rows t' = num_rows t + 1 /\
    fd (pager t') = fd (pager t) /\
    file_length (pager t') = file_length (pager t) /\
    get_page (pager t) page_num h = Ret (p1, h') /\
    pages p1 !! Z.to_nat page_num = Some (Some page) /\
    pages (pager t') = <[Z.to_nat page_num := Some page']> (pages (pager t)) /\
    length page' = length page /\
    (forall k : nat,
       ~ (offset <= Z.of_nat k < offset + ROW_SIZE) -> page' !! k = page !! k) /\
    deserialize_row page' offset = r /\
    (forall i g,
       0 <= i < num_rows t ->
       is_Some (row_at t' i g) /\
       row_at t' i g =
         row_at t i (if decide (i / ROWS_PER_PAGE = page_num) then h else g)) /\
    (forall i g g' page0,
       0 <= i < num_rows t ->
       pages (pager t) !! Z.to_nat (i / ROWS_PER_PAGE) = Some (Some page0) ->
       row_at t' i g' = row_at t i g).
Proof.
  intros Hwf Hr Hn page_num offset.
  destruct (execute_insert_eq t r h Hwf Hn)
    as (p1 & h1 & page & Hget & Hwf1 & Hfd & Hfl & Hpages & Hpage & Hres & Hins).
  fold page_num offset in Hget, Hpages, Hpage, Hres, Hins.
  assert (Hlen : Z.of_nat (length page) = PAGE_SIZE) by (eapply Hwf1, Hpage).
  assert (Hoff : 0 <= offset /\ offset + ROW_SIZE <= PAGE_SIZE)
    by (apply row_offset_bound; lia).
  set (page' := serialize_row r page offset) in *.
  set (t' := {| num_rows := num_rows t + 1;
                pager := set_page p1 page_num (Some page') |}) in *.
  assert (Hpage' : pages (pager t') !! Z.to_nat page_num = Some (Some page')).
  { cbn [t' pager set_page pages]. apply list_lookup_insert_eq.
    eapply lookup_lt_Some, Hpage. }
  assert (Hrows : forall i g,
            0 <= i < num_rows t ->
            is_Some (row_at t' i g) /\
            row_at t' i g =
              row_at t i (if decide (i / ROWS_PER_PAGE = page_num) then h else g)).
  { intros i g Hi.
    pose proof (row_page_bound i ltac:(lia)) as Hpi.
    pose proof (row_page_bound (num_rows t) Hn) as Hpn. fold page_num in Hpn.
    destruct (decide (i / ROWS_PER_PAGE = page_num)) as [Heq|Hneq].
    - rewrite (row_at_eq t i h p1 h1 page) by (rewrite ?Heq; done || lia).
      unfold row_at. rewrite (select_row_resident t' i g page').
      + split; [done|]. f_equal.
        apply deserialize_serialize_other; [done|lia|apply row_offset_bound; lia|].
        destruct (row_slots_disjoint i (num_rows t)); try done; lia.
      + lia.
      + lia.
      + by rewrite Heq.
    - assert (Heq : row_at t' i g = row_at t i g).
      { apply row_at_other_page; [done|lia|done..|].
        cbn [t' pager set_page pages]. rewrite list_lookup_insert_ne by lia.
        rewrite Hpages, list_lookup_insert_ne by lia. done. }
      rewrite Heq. split; [|done].
      destruct (select_row_in_bounds t i g Hwf) as (row & t1 & g1 & Hrow & _); [lia|].
      unfold row_at. rewrite Hrow. done. }
  exists t', h1, p1, page, page'.
  split; [done|]. split; [done|]. split; [done|]. split; [done|].
  split; [done|]. split; [done|]. split.
  { cbn [t' pager set_page pages]. by rewrite Hpages, list_insert_insert_eq. }
  split; [apply length_serialize_row|]. split.
  { intros k Hk. apply serialize_row_frame; [lia|done]. }
  split; [apply deserialize_serialize; [done|lia|lia]|].
  split; [done|].
  intros i g g' page0 Hi Hpage0.
  destruct (Hrows i g' Hi) as [_ ->].
  apply row_at_resident with page0; [lia|done].
Qed.

(** [one_row_table] is the table that the first insert leaves. *)
Lemma one_row_table_reached :
  execute_insert (insert_statement sample_row) (db_open []) sample_heap =
    Ret (EXECUTE_SUCCESS, one_row_table, next_heap sample_heap).
Proof. vm_compute. reflexivity. Qed.

Lemma wf_one_row_table : wf_table one_row_table.
Proof.
  apply wf_set_page; [apply wf_pager_open|].
  rewrite length_serialize_row, length_replicate. by rewrite Z2Nat.id.
Qed.

Lemma wf_second_row : wf_row second_row.
Proof. repeat split; try done; vm_compute; discriminate. Qed.

(** Its row 0 is the row of the first insert. *)
Lemma one_row_table_row g : row_at one_row_table 0 g = Some sample_row.
Proof. vm_compute. reflexivity. Qed.

(** A second insert, into the table that holds one row in its resident page
    0: the earlier row 0 is in the page that the insert writes. *)
Lemma C9_witness :
  exists t' h' p1 page page',
    execute_insert (insert_statement second_row) one_row_table (next_heap sample_heap) =
      Ret (EXECUTE_SUCCESS, t', h') /\
    num_rows t' = num_rows one_row_table + 1 /\
    fd (pager t') = fd (pager one_row_table) /\
    file_length (pager t') = file_length (pager one_row_table) /\
    get_page (pager one_row_table) (num_rows one_row_table / ROWS_PER_PAGE) (next_heap sample_heap)
      = Ret (p1, h') /\
    pages p1 !! Z.to_nat (num_rows one_row_table / ROWS_PER_PAGE) = Some (Some page) /\
    pages (pager t') =
      <[Z.to_nat (num_rows one_row_table / ROWS_PER_PAGE) := Some page']>
        (pages (pager one_row_table)) /\
    length page' = length page /\
    (forall k : nat,
       ~ (num_rows one_row_table mod ROWS_PER_PAGE * ROW_SIZE <= Z.of_nat k
          < num_rows one_row_table mod ROWS_PER_PAGE * ROW_SIZE + ROW_SIZE) ->
       page' !! k = page !! k) /\
    deserialize_row page' (num_rows one_row_table mod ROWS_PER_PAGE * ROW_SIZE)
      = second_row /\
    (forall i g,
       0 <= i < num_rows one_row_table ->
       is_Some (row_at t' i g) /\
       row_at t' i g =
         row_at one_row_table i
           (if decide (i / ROWS_PER_PAGE = num_rows one_row_table / ROWS_PER_PAGE)
            then (next_heap sample_heap) else g)) /\
    (forall i g g' page0,
       0 <= i < num_rows one_row_table ->
       pages (pager one_row_table) !! Z.to_nat (i / ROWS_PER_PAGE) = Some (Some page0) ->
       row_at t' i g' = row_at one_row_table i g).
Proof.
  apply (C9_insert_frame one_row_table second_row (next_heap sample_heap)).
  - apply wf_one_row_table.
  - apply wf_second_row.
  - rewrite TABLE_MAX_ROWS_eq. unfold one_row_table; cbn [num_rows]. lia.
Defined.

(** ** Closing and reopening *)

Section Close.
Implicit Types (t : Table) (h : Heap) (r : Row).

Lemma pwrite_empty data : pwrite [] 0 data = data.
Proof. unfold pwrite. simpl. by rewrite drop_nil, app_nil_r. Qed.

(** One row is inserted into a table opened on an empty file and the table
    is closed: the file that is left is the whole page of the row, the row
    followed by what the allocator had put into the block. *)
Lemma close_after_one_insert r h :
  wf_row r ->
  exists t h1 file,
    run [insert_statement r] (db_open []) h = Ret ([(EXECUTE_SUCCESS, [])], t, h1) /\
    num_rows t = 1 /\
    db_close t h1 = Ret (file, h1) /\
    Z.of_nat (length file) = PAGE_SIZE /\
    deserialize_row file 0 = r /\
    forall k : nat,
      ROW_SIZE <= Z.of_nat k < PAGE_SIZE ->
      file !! k = Some (uninit h (allocations h) k).
Proof.
  intros Hr.
  destruct (get_page_loads (pager_open []) 0 h) as (block & Hget & Hlen & Hblock).
  { unfold TABLE_MAX_PAGES. lia. }
  { apply lookup_replicate_2. unfold TABLE_MAX_PAGES. lia. }
  { done. }
  { simpl. unfold PAGE_SIZE. lia. }
  destruct (execute_insert_eq (db_open []) r h (wf_db_open [])) as
    (p1 & h1 & page & Hget' & _ & _ & _ & _ & Hpage & _ & Hins).
  { rewrite db_open_empty, TABLE_MAX_ROWS_eq. simpl. lia. }
  rewrite db_open_empty in Hget', Hpage, Hins. cbn [num_rows pager] in Hget', Hpage, Hins.
  change (0 / ROWS_PER_PAGE) with 0 in Hget', Hpage, Hins.
  change (0 mod ROWS_PER_PAGE * ROW_SIZE) with 0 in Hins.
  rewrite Hget in Hget'. injection Hget' as <- <-.
  cbn [set_page pages pager_open] in Hpage.
  rewrite list_lookup_insert_eq in Hpage by (rewrite length_replicate; unfold TABLE_MAX_PAGES; lia).
  injection Hpage as <-.
  set (file := serialize_row r block 0) in *.
  assert (Hflen : Z.of_nat (length file) = PAGE_SIZE)
    by (unfold file; by rewrite length_serialize_row).
  set (t := {| num_rows := 0 + 1;
               pager := set_page (set_page (pager_open []) 0 (Some block)) 0 (Some file) |})
    in *.
  exists t, (next_heap h), file. split; [|split; [|split; [|split; [|split]]]].
  - rewrite <- db_open_empty in Hins. cbn [run].
    assert (Hexec : execute_statement (insert_statement r) (db_open []) h =
                      Ret (EXECUTE_SUCCESS, [], t, next_heap h)).
    { rewrite execute_statement_insert. by rewrite (bind_Ret _ _ _ _ _ Hins). }
    by rewrite (bind_Ret _ _ _ _ _ Hexec).
  - done.
  - unfold db_close, t; cbn [num_rows pager].
    change ((0 + 1) / ROWS_PER_PAGE) with 0. change (Z.to_nat 0) with 0%nat.
    cbn [db_close_full_pages]. unfold bind at 1, ret at 1.
    change ((0 + 1) mod ROWS_PER_PAGE =? 0) with false. cbv iota.
    cbn [set_page pages pager_open]. rewrite list_insert_insert_eq.
    change (Z.to_nat 0) with 0%nat.
    assert (Hl : <[0%nat:=Some file]> (replicate (Z.to_nat TABLE_MAX_PAGES) (@None (list byte)))
                   !! 0%nat = Some (Some file)).
    { apply list_lookup_insert_eq. rewrite length_replicate. unfold TABLE_MAX_PAGES. lia. }
    rewrite Hl. unfold pager_flush; cbn [pages fd file_length pager_open set_page].
    change (Z.to_nat 0) with 0%nat. rewrite list_insert_insert_eq, Hl.
    unfold bind, ret; cbn [fd set_page].
    change (u32 (0 * PAGE_SIZE)) with 0.
    rewrite pwrite_empty, take_ge by lia. done.
  - done.
  - apply deserialize_serialize; [done|lia|]. rewrite ROW_SIZE_eq; unfold PAGE_SIZE in *; lia.
  - intros k Hk. unfold file. rewrite serialize_row_frame by lia.
    rewrite Hblock by lia. cbn [fd pager_open]. by rewrite lookup_nil.
Qed.

Lemma num_rows_reopen_page file :
  Z.of_nat (length file) = PAGE_SIZE -> num_rows (db_open file) = ROWS_PER_PAGE.
Proof.
  intros Hlen. unfold db_open, pager_open; cbn [num_rows file_length].
  by rewrite Hlen.
Qed.
End Close.

(** C2 on the code.  A table with one row (a row count that is not a multiple
    of [ROWS_PER_PAGE]) is closed: [db_close] flushes the partial page with
    [PAGE_SIZE] bytes, not with the [ROW_SIZE] bytes of its one valid row.
    The file is [PAGE_SIZE] bytes long and its bytes after the row are the
    uninitialised rest of the page. *)
Theorem C2_close_writes_whole_partial_page (r : Row) (h : Heap) :
  wf_row r ->
  exists t h1 file,
    run [insert_statement r] (db_open []) h = Ret ([(EXECUTE_SUCCESS, [])], t, h1) /\
    num_rows t mod ROWS_PER_PAGE = 1 /\
    db_close t h1 = Ret (file, h1) /\
    Z.of_nat (length file) = PAGE_SIZE /\
    Z.of_nat (length file) <> num_rows t mod ROWS_PER_PAGE * ROW_SIZE /\
    forall k : nat,
      ROW_SIZE <= Z.of_nat k < PAGE_SIZE ->
      file !! k = Some (uninit h (allocations h) k).
Proof.
  intros Hr.
  destruct (close_after_one_insert r h Hr)
    as (t & h1 & file & Hrun & Hnum & Hclose & Hlen & _ & Htail).
  exists t, h1, file. rewrite Hnum, Hlen. done.
Qed.

(** [sample_row] is inserted and the table is closed. *)
Lemma C2_witness :
  exists t h1 file,
    run [insert_statement sample_row] (db_open []) sample_heap =
      Ret ([(EXECUTE_SUCCESS, [])], t, h1) /\
    num_rows t mod ROWS_PER_PAGE = 1 /\
    db_close t h1 = Ret (file, h1) /\
    Z.of_nat (length file) = PAGE_SIZE /\
    Z.of_nat (length file) <> num_rows t mod ROWS_PER_PAGE * ROW_SIZE /\
    forall k : nat,
      ROW_SIZE <= Z.of_nat k < PAGE_SIZE ->
      file !! k = Some (uninit sample_heap (allocations sample_heap) k).
Proof.
  apply (C2_close_writes_whole_partial_page sample_row sample_heap).
  apply valid_sample_row.
Defined.

(** C1 on the code.  One row is inserted into a table opened on an empty
    file, the table is closed and a table is opened on the file again: the
    reopened table counts [ROWS_PER_PAGE] = 13 rows, and a select on it
    prints 13 rows, not the one row that was inserted. *)
Theorem C1_reopen_after_one_insert (r : Row) (h g : Heap) :
  wf_row r ->
  exists t h1 file rows t' g',
    run [insert_statement r] (db_open []) h = Ret ([(EXECUTE_SUCCESS, [])], t, h1) /\
    num_rows t = 1 /\
    db_close t h1 = Ret (file, h1) /\
    num_rows (db_open file) = 13 /\
    execute_select select_statement (db_open file) g =
      Ret (EXECUTE_SUCCESS, rows, t', g') /\
    length rows = 13%nat /\
    rows <> [r].
Proof.
  intros Hr.
  destruct (close_after_one_insert r h Hr)
    as (t & h1 & file & Hrun & Hnum & Hclose & Hlen & _ & _).
  pose proof (num_rows_reopen_page file Hlen) as Hre. rewrite ROWS_PER_PAGE_eq in Hre.
  destruct (execute_select_in_bounds select_statement (db_open file) g (wf_db_open file))
    as (rows & t' & g' & Hsel & Hrows).
  { rewrite Hre, TABLE_MAX_ROWS_eq. lia. }
  exists t, h1, file, rows, t', g'.
  do 5 (split; [done|]). split; [rewrite Hre in Hrows; lia|].
  intros ->. rewrite Hre in Hrows. simpl in Hrows. lia.
Qed.

(** [sample_row] is inserted, the table is closed, reopened and scanned. *)
Lemma C1_witness :
  exists t h1 file rows t' g',
    run [insert_statement sample_row] (db_open []) sample_heap =
      Ret ([(EXECUTE_SUCCESS, [])], t, h1) /\
    num_rows t = 1 /\
    db_close t h1 = Ret (file, h1) /\
    num_rows (db_open file) = 13 /\
    execute_select select_statement (db_open file) sample_heap =
      Ret (EXECUTE_SUCCESS, rows, t', g') /\
    length rows = 13%nat /\
    rows <> [sample_row].
Proof.
  apply (C1_reopen_after_one_insert sample_row sample_heap sample_heap).
  apply valid_sample_row.
Defined.

(** * Further properties of the storage core *)

(** ** The byte layout of a row *)

Section Layout.
Implicit Types (r : Row) (mem : list byte) (off dst src n : Z).

Lemma load_app mem off n1 n2 :
  0 <= off -> 0 <= n1 -> 0 <= n2 ->
  load mem off (n1 + n2) = load mem off n1 ++ load mem (off + n1) n2.
Proof.
  intros Hoff H1 H2. unfold load.
  rewrite !Z2Nat.inj_add by lia. by rewrite <- take_take_drop, drop_drop.
Qed.

Lemma length_load mem off n :
  0 <= off -> 0 <= n -> off + n <= Z.of_nat (length mem) ->
  Z.of_nat (length (load mem off n)) = n.
Proof. intros. unfold load. rewrite length_take, length_drop. lia. Qed.

(** Writing back what was read changes nothing. *)
Lemma memcpy_load_id mem off n :
  0 <= off -> 0 <= n -> memcpy mem off (load mem off n) n = mem.
Proof.
  intros Hoff Hn. unfold memcpy, load. rewrite take_take, Nat.min_id.
  set (k := take (Z.to_nat n) (drop (Z.to_nat off) mem)).
  assert (Hk : (length k <= length mem - Z.to_nat off)%nat).
  { unfold k. rewrite length_take, length_drop. lia. }
  apply list_eq. intros j.
  destruct (decide (j < Z.to_nat off)%nat); [by apply list_lookup_inserts_lt|].
  destruct (decide (Z.to_nat off + length k <= j)%nat); [by apply list_lookup_inserts_ge|].
  rewrite list_lookup_inserts by lia.
  unfold k. rewrite lookup_take_lt, lookup_drop by (unfold k in *; rewrite length_take in *; lia).
  f_equal. lia.
Qed.

Lemma Z_of_byte_range (b : byte) : 0 <= Z_of_byte b < 256.
Proof. unfold Z_of_byte. pose proof (Byte.to_N_bounded b). lia. Qed.

Lemma byte_of_Z_of_byte (b : byte) x : byte_of_Z (Z_of_byte b + 256 * x) = b.
Proof.
  pose proof (Z_of_byte_range b) as Hb. unfold byte_of_Z.
  replace ((Z_of_byte b + 256 * x) mod 256) with (Z_of_byte b).
  - unfold Z_of_byte. by rewrite N2Z.id, Byte.of_to_N.
  - rewrite (Z.mul_comm 256 x), Z.mod_add by lia. by rewrite Z.mod_small.
Qed.

Lemma u32_to_of_bytes (bs : list byte) :
  length bs = 4%nat -> u32_to_bytes (u32_of_bytes bs) = bs.
Proof.
  destruct bs as [|b0 [|b1 [|b2 [|b3 [|]]]]]; try done. intros _.
  unfold u32_to_bytes, u32_of_bytes; cbn [foldr].
  pose proof (Z_of_byte_range b0). pose proof (Z_of_byte_range b1).
  pose proof (Z_of_byte_range b2). pose proof (Z_of_byte_range b3).
  set (z1 := Z_of_byte b1 + 256 * (Z_of_byte b2 + 256 * (Z_of_byte b3 + 256 * 0))).
  set (z2 := Z_of_byte b2 + 256 * (Z_of_byte b3 + 256 * 0)).
  set (z3 := Z_of_byte b3 + 256 * 0).
  replace ((Z_of_byte b0 + 256 * z1) / 2 ^ 8) with z1
    by (unfold z1; Z.to_euclidean_division_equations; lia).
  replace ((Z_of_byte b0 + 256 * z1) / 2 ^ 16) with z2
    by (unfold z1, z2; Z.to_euclidean_division_equations; lia).
  replace ((Z_of_byte b0 + 256 * z1) / 2 ^ 24) with z3
    by (unfold z1, z3; Z.to_euclidean_division_equations; lia).
  unfold z1, z2, z3. by rewrite !byte_of_Z_of_byte.
Qed.

Lemma u32_of_bytes_range (bs : list byte) :
  length bs = 4%nat -> 0 <= u32_of_bytes bs < 2 ^ 32.
Proof.
  destruct bs as [|b0 [|b1 [|b2 [|b3 [|]]]]]; try done. intros _.
  unfold u32_of_bytes; cbn [foldr].
  pose proof (Z_of_byte_range b0). pose proof (Z_of_byte_range b1).
  pose proof (Z_of_byte_range b2). pose proof (Z_of_byte_range b3). lia.
Qed.

(** Whatever the memory holds, the row decoded from a slot inside it is a
    well-formed [Row] object. *)
Lemma wf_deserialize_row mem src :
  0 <= src -> src + ROW_SIZE <= Z.of_nat (length mem) ->
  wf_row (deserialize_row mem src).
Proof.
  intros Hsrc Hmem. unfold wf_row, deserialize_row; cbn [id username email].
  split; [|split].
  - apply u32_of_bytes_range.
    pose proof (length_load mem (src + ID_OFFSET) ID_SIZE). consts. lia.
  - apply length_load; consts; lia.
  - apply length_load; consts; lia.
Qed.
End Layout.

(** X1.  The layout of a serialized row: the [ROW_SIZE] bytes of the slot are
    the four bytes of the id, then the 33 bytes of the username array, then
    the 256 bytes of the email array, without gaps. *)
Theorem serialize_row_layout (r : Row) (mem : list byte) (dst : Z) :
  wf_row r -> 0 <= dst -> dst + ROW_SIZE <= Z.of_nat (length mem) ->
  load (serialize_row r mem dst) dst ROW_SIZE =
    u32_to_bytes (id r) ++ username r ++ email r.
Proof.
  intros (Hid & Hu & He) Hdst Hmem.
  pose proof (length_u32_to_bytes (id r)) as Hi.
  change ROW_SIZE with (ID_SIZE + (USERNAME_SIZE + EMAIL_SIZE)).
  rewrite !load_app by (consts; lia).
  unfold serialize_row. f_equal; [|f_equal].
  - match goal with
    | |- load ?m dst ID_SIZE = _ =>
        replace (load m dst ID_SIZE) with (load m (dst + ID_OFFSET) ID_SIZE)
          by (f_equal; consts; lia)
    end.
    rewrite !load_memcpy_disjoint by (consts; lia).
    rewrite load_memcpy_same by (consts; lia). apply take_ge. consts; lia.
  - replace (dst + ID_SIZE) with (dst + USERNAME_OFFSET) by (consts; lia).
    rewrite load_memcpy_disjoint by (consts; lia).
    rewrite load_memcpy_same by (rewrite ?length_memcpy; consts; lia).
    apply take_ge. consts; lia.
  - replace (dst + ID_SIZE + USERNAME_SIZE) with (dst + EMAIL_OFFSET) by (consts; lia).
    rewrite load_memcpy_same by (rewrite ?length_memcpy; consts; lia).
    apply take_ge. consts; lia.
Qed.

(** The layout of [sample_row] in the first slot of a zeroed page. *)
Lemma serialize_row_layout_witness :
  load (serialize_row sample_row (replicate (Z.to_nat PAGE_SIZE) x00) 0) 0 ROW_SIZE =
    u32_to_bytes (id sample_row) ++ username sample_row ++ email sample_row.
Proof.
  apply (serialize_row_layout sample_row).
  - apply valid_sample_row.
  - lia.
  - rewrite length_replicate. vm_compute. discriminate.
Defined.

(** X2.  Decoding a slot and encoding the row into the same slot leaves the
    memory as it was: the codec loses nothing of the [ROW_SIZE] bytes. *)
Theorem serialize_deserialize (mem : list byte) (src : Z) :
  0 <= src -> src + ROW_SIZE <= Z.of_nat (length mem) ->
  serialize_row (deserialize_row mem src) mem src = mem.
Proof.
  intros Hsrc Hmem. unfold serialize_row, deserialize_row; cbn [id username email].
  rewrite u32_to_of_bytes.
  - by rewrite !memcpy_load_id by (consts; lia).
  - pose proof (length_load mem (src + ID_OFFSET) ID_SIZE). consts. lia.
Qed.

(** Slot 1 of a page of 0xaa bytes. *)
Lemma serialize_deserialize_witness :
  serialize_row (deserialize_row (replicate (Z.to_nat PAGE_SIZE) xaa) ROW_SIZE)
                (replicate (Z.to_nat PAGE_SIZE) xaa) ROW_SIZE
  = replicate (Z.to_nat PAGE_SIZE) xaa.
Proof.
  apply (serialize_deserialize (replicate (Z.to_nat PAGE_SIZE) xaa) ROW_SIZE).
  - vm_compute. discriminate.
  - rewrite length_replicate. vm_compute. discriminate.
Defined.

(** ** More on page requests and flushes *)

Section PagerMore.
Implicit Types (p : Pager) (h g : Heap) (f : list byte).

Lemma get_page_absent_heap p n h :
  n <= TABLE_MAX_PAGES ->
  pages p !! Z.to_nat n = Some None ->
  exists page,
    get_page p n h = Ret (set_page p n (Some page), next_heap h) /\
    Z.of_nat (length page) = PAGE_SIZE.
Proof.
  intros Hn Habs. unfold get_page.
  destruct (Z.gtb_spec n TABLE_MAX_PAGES); [lia|]. rewrite Habs.
  unfold bind, malloc, ret, next_heap. eexists. split; [reflexivity|].
  destruct (n <=? _); rewrite ?length_inserts, length_fmap, length_seq; done.
Qed.

Lemma length_pwrite f off data :
  0 <= off ->
  length (pwrite f off data) = (length f `max` (Z.to_nat off + length data))%nat.
Proof.
  intros Hoff. unfold pwrite.
  rewrite !length_app, length_take, length_replicate, length_drop. lia.
Qed.

Lemma pread_pwrite f off data :
  0 <= off -> pread (pwrite f off data) off (Z.of_nat (length data)) = data.
Proof.
  intros Hoff. unfold pread, pwrite. rewrite Nat2Z.id.
  rewrite (app_assoc (take _ f)), drop_app_length'.
  - by rewrite take_app_length.
  - rewrite length_app, length_take, length_replicate. lia.
Qed.

Lemma pwrite_prefix f off data (k : nat) :
  (k < Z.to_nat off)%nat -> (k < length f)%nat -> pwrite f off data !! k = f !! k.
Proof.
  intros Hk Hf. unfold pwrite.
  rewrite lookup_app_l by (rewrite length_take; lia). by apply lookup_take_lt.
Qed.

(** Writing at the end of the file appends. *)
Lemma pwrite_append f off data :
  off = Z.of_nat (length f) -> pwrite f off data = f ++ data.
Proof.
  intros ->. unfold pwrite. rewrite Nat2Z.id, Nat.sub_diag, take_ge by lia.
  rewrite drop_ge by lia. simpl. by rewrite app_nil_r.
Qed.
End PagerMore.

(** X3.  Once a page has been requested it stays as it is: the request makes
    the page resident, further requests for it return the same pager without
    allocating or reading; a request allocates at most one block, and leaves
    the file, its recorded length and every other entry of [pages] alone. *)
Theorem get_page_stable (p : Pager) (n : Z) (h : Heap) :
  wf_pager p -> 0 <= n < TABLE_MAX_PAGES ->
  exists p' h',
    get_page p n h = Ret (p', h') /\
    (forall g, get_page p' n g = Ret (p', g)) /\
    fd p' = fd p /\ file_length p' = file_length p /\
    (forall m : nat, m <> Z.to_nat n -> pages p' !! m = pages p !! m) /\
    (allocations h' <= S (allocations h))%nat.
Proof.
  intros [Hlen Hpages] Hn.
  assert (Hlt : (Z.to_nat n < length (pages p))%nat) by lia.
  destruct (lookup_lt_is_Some_2 _ _ Hlt) as [[page|] Hp].
  - exists p, h. rewrite (get_page_resident p n page) by (done || lia).
    split; [done|]. split; [intros g; apply (get_page_resident p n page); done || lia|].
    repeat split; try done. lia.
  - destruct (get_page_absent_heap p n h) as (page & Hget & _); [lia|done|].
    exists (set_page p n (Some page)), (next_heap h). split; [done|]. split.
    + intros g. apply (get_page_resident _ n page); [lia|].
      cbn [set_page pages]. by apply list_lookup_insert_eq.
    + repeat split; try done.
      intros m Hm. cbn [set_page pages]. by apply list_lookup_insert_ne.
Qed.

(** Page 3 of a pager just opened on an empty file. *)
Lemma get_page_stable_witness :
  exists p' h',
    get_page (pager_open []) 3 sample_heap = Ret (p', h') /\
    (forall g, get_page p' 3 g = Ret (p', g)) /\
    fd p' = fd (pager_open []) /\ file_length p' = file_length (pager_open []) /\
    (forall m : nat, m <> Z.to_nat 3 -> pages p' !! m = pages (pager_open []) !! m) /\
    (allocations h' <= S (allocations sample_heap))%nat.
Proof.
  apply (get_page_stable (pager_open []) 3 sample_heap).
  - apply wf_pager_open.
  - unfold TABLE_MAX_PAGES. lia.
Defined.

(** X4.  On a pager of the shape the C type gives it, a page request returns
    exactly when the index is below [TABLE_MAX_PAGES]; above
    [TABLE_MAX_PAGES] it terminates the process with [EXIT_FAILURE]. *)
Theorem get_page_returns_iff (p : Pager) (n : Z) (h : Heap) :
  wf_pager p -> 0 <= n ->
  ((exists p' h', get_page p n h = Ret (p', h')) <-> n < TABLE_MAX_PAGES) /\
  (TABLE_MAX_PAGES < n -> get_page p n h = Exit EXIT_FAILURE).
Proof.
  intros Hwf Hn. split; [split|].
  - intros (p' & h' & Hget). by eapply get_page_Ret_bound.
  - intros Hlt.
    destruct (get_page_in_bounds p n h Hwf) as (p' & h' & _ & Hget & _); [lia|].
    by exists p', h'.
  - apply get_page_above_max.
Qed.

(** Page 101 of a pager just opened on an empty file. *)
Lemma get_page_returns_iff_witness :
  ((exists p' h', get_page (pager_open []) 101 sample_heap = Ret (p', h')) <->
   101 < TABLE_MAX_PAGES) /\
  (TABLE_MAX_PAGES < 101 -> get_page (pager_open []) 101 sample_heap = Exit EXIT_FAILURE).
Proof.
  apply (get_page_returns_iff (pager_open []) 101 sample_heap).
  - apply wf_pager_open.
  - lia.
Defined.

(** X5.  A flush of a page that is not resident terminates the process.  A
    flush of a resident page writes its first [size] bytes at the page's
    offset: reading them back from the file gives those bytes, the file
    grows to the end of the written range if it was shorter, the bytes of
    the file before the offset are kept, and neither the page, which stays
    resident, nor the recorded file length changes. *)
Theorem pager_flush_writes (p : Pager) (n size : Z) (h : Heap) :
  0 <= n -> n * PAGE_SIZE < 2 ^ 32 ->
  (pages p !! Z.to_nat n = Some None ->
   pager_flush p n size h = Exit EXIT_FAILURE) /\
  (forall page,
     pages p !! Z.to_nat n = Some (Some page) ->
     0 <= size <= Z.of_nat (length page) ->
     exists p',
       pager_flush p n size h = Ret (p', h) /\
       pages p' = pages p /\ file_length p' = file_length p /\
       pread (fd p') (n * PAGE_SIZE) size = take (Z.to_nat size) page /\
       Z.of_nat (length (fd p')) =
         Z.of_nat (length (fd p)) `max` (n * PAGE_SIZE + size) /\
       forall k : nat,
         Z.of_nat k < n * PAGE_SIZE -> (k < length (fd p))%nat ->
         fd p' !! k = fd p !! k).
Proof.
  intros Hn Hoff.
  assert (Hu : u32 (n * PAGE_SIZE) = n * PAGE_SIZE).
  { unfold u32. apply Z.mod_small. unfold PAGE_SIZE in *. lia. }
  split.
  - intros Habs. unfold pager_flush. by rewrite Habs.
  - intros page Hres Hsize. unfold pager_flush. rewrite Hres, Hu.
    eexists. split; [reflexivity|]. cbn [pages file_length fd].
    assert (Hlen : Z.of_nat (length (take (Z.to_nat size) page)) = size)
      by (rewrite length_take; lia).
    split; [done|]. split; [done|]. split; [|split].
    + rewrite <- Hlen at 2. apply pread_pwrite. unfold PAGE_SIZE. lia.
    + rewrite length_pwrite by (unfold PAGE_SIZE; lia). unfold PAGE_SIZE in *. lia.
    + intros k Hk Hf. apply pwrite_prefix; [unfold PAGE_SIZE in *; lia|done].
Qed.

(** Page 0 of a pager on an empty file is fetched and flushed whole. *)
Lemma pager_flush_writes_witness :
  exists p',
    pager_flush (set_page (pager_open []) 0 (Some (replicate (Z.to_nat PAGE_SIZE) xaa)))
                0 PAGE_SIZE sample_heap = Ret (p', sample_heap) /\
    pages p' = pages (set_page (pager_open []) 0 (Some (replicate (Z.to_nat PAGE_SIZE) xaa))) /\
    file_length p' =
      file_length (set_page (pager_open []) 0 (Some (replicate (Z.to_nat PAGE_SIZE) xaa))) /\
    pread (fd p') (0 * PAGE_SIZE) PAGE_SIZE =
      take (Z.to_nat PAGE_SIZE) (replicate (Z.to_nat PAGE_SIZE) xaa) /\
    Z.of_nat (length (fd p')) =
      Z.of_nat (length (fd (set_page (pager_open []) 0
                              (Some (replicate (Z.to_nat PAGE_SIZE) xaa)))))
      `max` (0 * PAGE_SIZE + PAGE_SIZE) /\
    forall k : nat,
      Z.of_nat k < 0 * PAGE_SIZE ->
      (k < length (fd (set_page (pager_open []) 0
                         (Some (replicate (Z.to_nat PAGE_SIZE) xaa)))))%nat ->
      fd p' !! k =
        fd (set_page (pager_open []) 0 (Some (replicate (Z.to_nat PAGE_SIZE) xaa))) !! k.
Proof.
  apply (proj2 (pager_flush_writes
                  (set_page (pager_open []) 0 (Some (replicate (Z.to_nat PAGE_SIZE) xaa)))
                  0 PAGE_SIZE sample_heap ltac:(lia) ltac:(vm_compute; reflexivity))).
  - cbn [set_page pages pager_open]. apply list_lookup_insert_eq.
    rewrite length_replicate. unfold TABLE_MAX_PAGES. lia.
  - rewrite length_replicate. unfold PAGE_SIZE. lia.
Defined.

(** ** Statements do not write the file *)

Section KeepsFile.
Implicit Types (t : Table) (p : Pager) (h : Heap).

Lemma get_page_keeps_file p n h p' h' :
  get_page p n h = Ret (p', h') ->
  fd p' = fd p /\ file_length p' = file_length p.
Proof.
  unfold get_page. destruct (n >? TABLE_MAX_PAGES); [done|].
  destruct (pages p !! Z.to_nat n) as [[page|]|]; [| |done].
  - by intros [= <- <-].
  - unfold bind, malloc, ret.
    match goal with
    | |- Ret (set_page _ _ (Some ?page), ?h1) = _ -> _ => generalize page, h1
    end.
    by intros page h1 [= <- <-].
Qed.

Lemma row_slot_keeps_file t i h t' s h' :
  row_slot t i h = Ret (t', s, h') ->
  fd (pager t') = fd (pager t) /\ file_length (pager t') = file_length (pager t) /\
  num_rows t' = num_rows t.
Proof.
  unfold row_slot. intros (p' & h1 & Hget & Hk)%bind_Ret_inv.
  apply get_page_keeps_file in Hget as [? ?]. unfold ret in Hk.
  injection Hk as <- <- <-. done.
Qed.

Lemma select_row_keeps_file t i h row t' h' :
  select_row t i h = Ret (row, t', h') ->
  fd (pager t') = fd (pager t) /\ file_length (pager t') = file_length (pager t) /\
  num_rows t' = num_rows t.
Proof.
  unfold select_row. intros ([t1 s] & h1 & Hslot & Hk)%bind_Ret_inv.
  apply row_slot_keeps_file in Hslot.
  apply bind_Ret_inv in Hk as (row1 & h2 & _ & Hk). unfold ret in Hk.
  by injection Hk as <- <- <-.
Qed.

Lemma select_loop_keeps_file (n : nat) :
  forall i t h rows t' h',
    select_loop n i t h = Ret (rows, t', h') ->
    fd (pager t') = fd (pager t) /\ file_length (pager t') = file_length (pager t) /\
    num_rows t' = num_rows t.
Proof.
  induction n as [|n IH]; intros i t h rows t' h'; cbn [select_loop].
  { unfold ret. by intros [= <- <- <-]. }
  intros ([row t1] & h1 & Hrow & Hk)%bind_Ret_inv.
  apply select_row_keeps_file in Hrow as (? & ? & ?).
  apply bind_Ret_inv in Hk as ([rows2 t2] & h2 & Hloop & Hk).
  apply IH in Hloop as (? & ? & ?). unfold ret in Hk.
  injection Hk as <- <- <-. split; [congruence|]. split; congruence.
Qed.

Lemma execute_statement_keeps_file s t h result rows t' h' :
  execute_statement s t h = Ret (result, rows, t', h') ->
  fd (pager t') = fd (pager t) /\ file_length (pager t') = file_length (pager t).
Proof.
  unfold execute_statement. destruct (type s).
  - intros ([res t1] & h1 & Hins & Hk)%bind_Ret_inv. unfold ret in Hk.
    injection Hk as <- <- <- <-.
    unfold execute_insert in Hins. destruct (num_rows t >=? TABLE_MAX_ROWS).
    { unfold ret in Hins. by injection Hins as <- <- <-. }
    destruct (row_to_insert s) as [row|]; [|done].
    apply bind_Ret_inv in Hins as ([t2 sl] & h2 & Hslot & Hk).
    apply row_slot_keeps_file in Hslot as (? & ? & ?).
    apply bind_Ret_inv in Hk as (t3 & h3 & Hw & Hk). unfold ret in Hk.
    injection Hk as <- <- <-. cbn [pager].
    unfold write_slot in Hw.
    destruct (pages (pager t2) !! Z.to_nat (page_of sl)) as [[page|]|]; try done.
    unfold ret in Hw. injection Hw as <- <-. done.
  - unfold execute_select. destruct (num_rows t =? 0).
    { unfold ret. by intros [= <- <- <- <-]. }
    intros ([rows1 t1] & h1 & Hloop & Hk)%bind_Ret_inv.
    apply select_loop_keeps_file in Hloop as (? & ? & ?). unfold ret in Hk.
    by injection Hk as <- <- <- <-.
Qed.
End KeepsFile.

Lemma run_file_unchanged (statements : list Statement) :
  forall t h outputs t' h',
    run statements t h = Ret (outputs, t', h') ->
    fd (pager t') = fd (pager t) /\ file_length (pager t') = file_length (pager t).
Proof.
  induction statements as [|s statements IH]; intros t h outputs t' h'; cbn [run].
  { unfold ret. by intros [= <- <- <-]. }
  intros ([[result rows] t1] & h1 & Hexec & Hk)%bind_Ret_inv.
  apply execute_statement_keeps_file in Hexec as [? ?].
  apply bind_Ret_inv in Hk as ([outs t2] & h2 & Hrun & Hk).
  apply IH in Hrun as [? ?]. unfold ret in Hk.
  injection Hk as <- <- <-. split; congruence.
Qed.

(** X6.  No statement writes the file: whatever inserts and selects are run
    on whatever table, when the run returns the file behind the pager and
    its recorded length are what they were.  Only closing the table writes. *)
Theorem run_keeps_file (statements : list Statement) :
  forall t h outputs t' h',
    run statements t h = Ret (outputs, t', h') ->
    fd (pager t') = fd (pager t) /\ file_length (pager t') = file_length (pager t).
Proof. apply run_file_unchanged. Qed.

(** Two inserts and a select on a table opened on a file of two bytes. *)
Lemma run_keeps_file_witness :
  exists outputs t' h',
    run [insert_statement sample_row; insert_statement sample_row; select_statement]
        (db_open [x64; x62]) sample_heap = Ret (outputs, t', h') /\
    fd (pager t') = [x64; x62] /\ file_length (pager t') = 2.
Proof.
  destruct (run [insert_statement sample_row; insert_statement sample_row; select_statement]
              (db_open [x64; x62]) sample_heap) as [[[outputs t'] h']| |] eqn:Hrun.
  - exists outputs, t', h'. split; [done|].
    apply (run_keeps_file _ _ _ _ _ _ Hrun).
  - vm_compute in Hrun. discriminate Hrun.
  - vm_compute in Hrun. discriminate Hrun.
Defined.

(** ** The file that closing leaves *)

Section CloseImage.
Implicit Types (t : Table) (p : Pager) (h : Heap) (rs : list Row).

Lemma length_concat_uniform (B : nat) (blocks : list (list byte)) :
  Forall (fun b => length b = B) blocks ->
  length (concat blocks) = (length blocks * B)%nat.
Proof.
  induction 1 as [|b blocks Hb _ IH]; [done|].
  simpl. rewrite length_app, IH, Hb. done.
Qed.

(** In a sequence of blocks of one size, block [j] starts at [j] times the size. *)
Lemma concat_uniform_split (B : nat) (blocks : list (list byte)) (j : nat) blk :
  Forall (fun b => length b = B) blocks ->
  blocks !! j = Some blk ->
  exists pre post,
    concat blocks = pre ++ blk ++ post /\ length pre = (j * B)%nat.
Proof.
  intros Hall Hj. exists (concat (take j blocks)), (concat (drop (S j) blocks)).
  split.
  - rewrite <- (take_drop_middle blocks j blk Hj) at 1.
    by rewrite concat_app.
  - rewrite (length_concat_uniform B) by (by apply Forall_take).
    rewrite length_take. apply lookup_lt_Some in Hj. lia.
Qed.

Lemma load_concat_uniform (blocks : list (list byte)) (j : nat) blk off n :
  Forall (fun b => Z.of_nat (length b) = PAGE_SIZE) blocks ->
  blocks !! j = Some blk ->
  0 <= off -> 0 <= n -> off + n <= PAGE_SIZE ->
  load (concat blocks) (Z.of_nat j * PAGE_SIZE + off) n = load blk off n.
Proof.
  intros Hall Hj Hoff Hn Hfit.
  destruct (concat_uniform_split (Z.to_nat PAGE_SIZE) blocks j blk)
    as (pre & post & -> & Hpre); [|done|].
  { eapply Forall_impl; [exact Hall|]. intros b Hb. simpl in Hb. lia. }
  assert (Hblk : Z.of_nat (length blk) = PAGE_SIZE)
    by (eapply (proj1 (Forall_lookup _ _) Hall); exact Hj).
  unfold load.
  replace (Z.to_nat (Z.of_nat j * PAGE_SIZE + off))
    with (length pre + Z.to_nat off)%nat by (unfold PAGE_SIZE in *; lia).
  rewrite <- drop_drop, drop_app_length, drop_app_le by lia.
  rewrite take_app_le by (rewrite length_drop; lia). done.
Qed.

Lemma deserialize_concat_uniform (blocks : list (list byte)) (j : nat) blk off :
  Forall (fun b => Z.of_nat (length b) = PAGE_SIZE) blocks ->
  blocks !! j = Some blk ->
  0 <= off -> off + ROW_SIZE <= PAGE_SIZE ->
  deserialize_row (concat blocks) (Z.of_nat j * PAGE_SIZE + off) = deserialize_row blk off.
Proof.
  intros Hall Hj Hoff Hfit. unfold deserialize_row.
  rewrite <- !Z.add_assoc.
  rewrite !(load_concat_uniform blocks j blk) by (done || consts; lia). done.
Qed.

(** The first loop of [db_close] on pages that are all resident: it appends
    them to a file that ends where the first of them belongs. *)
Lemma db_close_full_pages_resident (n : nat) :
  forall i p h,
    0 <= i -> i + Z.of_nat n <= TABLE_MAX_PAGES ->
    (forall j : nat,
       (Z.to_nat i <= j < Z.to_nat i + n)%nat ->
       exists page, pages p !! j = Some (Some page) /\
                    Z.of_nat (length page) = PAGE_SIZE) ->
    Z.of_nat (length (fd p)) = i * PAGE_SIZE ->
    exists p',
      db_close_full_pages n i p h = Ret (p', h) /\
      fd p' = fd p ++ concat (default [] <$> take n (drop (Z.to_nat i) (pages p))) /\
      forall j : nat, (Z.to_nat i + n <= j)%nat -> pages p' !! j = pages p !! j.
Proof.
  induction n as [|n IH]; intros i p h Hi Hmax Hres Hlen.
  { exists p. cbn [db_close_full_pages]. rewrite take_0. simpl.
    by rewrite app_nil_r. }
  destruct (Hres (Z.to_nat i) ltac:(lia)) as (page & Hpage & Hplen).
  cbn [db_close_full_pages]. rewrite Hpage.
  unfold pager_flush at 1. rewrite Hpage.
  assert (Hu : u32 (i * PAGE_SIZE) = i * PAGE_SIZE).
  { unfold u32. apply Z.mod_small. unfold TABLE_MAX_PAGES, PAGE_SIZE in *. lia. }
  rewrite Hu, pwrite_append by lia. rewrite take_ge by lia.
  unfold bind at 1, ret at 1.
  set (p1 := set_page _ i None).
  destruct (IH (i + 1) p1 h) as (p' & Hloop & Hfd & Hrest).
  - lia.
  - lia.
  - intros j Hj. destruct (Hres j ltac:(lia)) as (pg & Hpg & Hpglen).
    exists pg. split; [|done]. unfold p1; cbn [set_page pages].
    rewrite list_lookup_insert_ne by lia. done.
  - unfold p1; cbn [set_page fd]. rewrite length_app. unfold PAGE_SIZE in *. lia.
  - exists p'. split; [exact Hloop|]. split.
    + rewrite Hfd. unfold p1; cbn [set_page fd pages].
      replace (Z.to_nat (i + 1)) with (S (Z.to_nat i)) by lia.
      rewrite drop_insert_lt by lia.
      rewrite (drop_S _ _ _ Hpage). cbn [take fmap list_fmap concat default from_option].
      simpl. by rewrite <- app_assoc.
    + intros j Hj. rewrite Hrest by lia. unfold p1; cbn [set_page pages].
      apply list_lookup_insert_ne. lia.
Qed.

(** The pages of the rows a table holds are resident. *)
Lemma holds_pages_resident rs t (j : nat) :
  holds rs t -> Z.of_nat j < pages_for (Z.of_nat (length rs)) ->
  exists page, pages (pager t) !! j = Some (Some page) /\
               Z.of_nat (length page) = PAGE_SIZE.
Proof.
  intros (Hwf & Hnum & Hmax & Hrows) Hj. unfold pages_for in Hj.
  assert (Hrow : (Z.to_nat (Z.of_nat j * ROWS_PER_PAGE) < length rs)%nat)
    by (rewrite ROWS_PER_PAGE_eq in *; Z.to_euclidean_division_equations; lia).
  destruct (lookup_lt_is_Some_2 _ _ Hrow) as [r Hr].
  destruct (Hrows (Z.of_nat j * ROWS_PER_PAGE) r ltac:(rewrite ROWS_PER_PAGE_eq; lia) Hr)
    as (page & Hpage & _).
  replace (Z.of_nat j * ROWS_PER_PAGE / ROWS_PER_PAGE) with (Z.of_nat j) in Hpage
    by (rewrite ROWS_PER_PAGE_eq; Z.to_euclidean_division_equations; lia).
  rewrite Nat2Z.id in Hpage. exists page. split; [done|]. eapply Hwf, Hpage.
Qed.

Lemma pages_for_bound n :
  0 <= n <= TABLE_MAX_ROWS -> 0 <= pages_for n <= TABLE_MAX_PAGES.
Proof. intros. unfold pages_for. arith. Qed.

Lemma pages_for_cases n :
  0 <= n <= TABLE_MAX_ROWS ->
  0 <= n / ROWS_PER_PAGE /\
  n / ROWS_PER_PAGE <= pages_for n <= TABLE_MAX_PAGES /\
  (n mod ROWS_PER_PAGE = 0 -> pages_for n = n / ROWS_PER_PAGE) /\
  (n mod ROWS_PER_PAGE <> 0 -> pages_for n = n / ROWS_PER_PAGE + 1).
Proof. intros. unfold pages_for. arith. Qed.

(** Closing a table that holds [rs] and whose file is empty leaves the pages
    of [rs], whole, one after the other. *)
Lemma db_close_holds rs t h :
  holds rs t -> fd (pager t) = [] ->
  db_close t h =
    Ret (image (Z.to_nat (pages_for (Z.of_nat (length rs)))) (pager t), h).
Proof.
  intros Hholds Hfd. pose proof Hholds as (Hwf & Hnum & Hmax & Hrows).
  rewrite Hnum in Hmax.
  pose proof (pages_for_cases (Z.of_nat (length rs)) ltac:(lia))
    as (Hq0 & Hq & Hzero & Hnonzero).
  assert (HTM : TABLE_MAX_PAGES = 100) by done.
  unfold db_close. rewrite Hnum.
  destruct (db_close_full_pages_resident
              (Z.to_nat (Z.of_nat (length rs) / ROWS_PER_PAGE)) 0 (pager t) h)
    as (p1 & Hloop & Hfd1 & Hrest).
  - done.
  - lia.
  - intros j Hj. apply (holds_pages_resident rs t j Hholds). lia.
  - by rewrite Hfd.
  - rewrite (bind_Ret _ _ _ _ _ Hloop). rewrite Hfd in Hfd1.
    change (Z.to_nat 0) with 0%nat in *. rewrite drop_0 in Hfd1. simpl in Hfd1.
    destruct (Z.eqb_spec (Z.of_nat (length rs) mod ROWS_PER_PAGE) 0) as [Hmod|Hmod].
    + unfold bind, ret. rewrite Hfd1. unfold image. by rewrite Hzero.
    + destruct (holds_pages_resident rs t
                  (Z.to_nat (Z.of_nat (length rs) / ROWS_PER_PAGE)) Hholds)
        as (page & Hpage & Hplen); [lia|].
      rewrite Hrest by (simpl; lia). rewrite Hpage.
      unfold pager_flush. rewrite Hrest by (simpl; lia). rewrite Hpage.
      assert (Hlen1 : Z.of_nat (length (fd p1)) =
                        Z.of_nat (length rs) / ROWS_PER_PAGE * PAGE_SIZE).
      { rewrite Hfd1, (length_concat_uniform (Z.to_nat PAGE_SIZE)).
        - rewrite length_fmap, length_take.
          destruct Hwf as [Hplen' _]. unfold PAGE_SIZE in *. lia.
        - apply Forall_fmap, Forall_forall. intros o Ho.
          apply list_elem_of_lookup in Ho as [j Ho].
          apply lookup_take_Some in Ho as [Ho Hj].
          destruct (holds_pages_resident rs t j Hholds) as (pg & Hpg & Hpglen); [lia|].
          rewrite Hpg in Ho. injection Ho as <-. simpl. lia. }
      assert (Hu : u32 (Z.of_nat (length rs) / ROWS_PER_PAGE * PAGE_SIZE) =
                     Z.of_nat (length rs) / ROWS_PER_PAGE * PAGE_SIZE).
      { unfold u32. apply Z.mod_small. unfold PAGE_SIZE. lia. }
      rewrite Hu, pwrite_append by lia. rewrite take_ge by lia.
      unfold bind, ret; cbn [set_page fd]. rewrite Hfd1. unfold image.
      rewrite (Hnonzero Hmod).
      replace (Z.to_nat (Z.of_nat (length rs) / ROWS_PER_PAGE + 1))
        with (S (Z.to_nat (Z.of_nat (length rs) / ROWS_PER_PAGE))) by lia.
      rewrite (take_S_r _ _ _ Hpage), fmap_app, concat_app. simpl.
      by rewrite app_nil_r.
Qed.
End CloseImage.

(** ** Insert, close, reopen *)

Section Reopen.
Implicit Types (t : Table) (p : Pager) (h g : Heap) (rs : list Row).

(** The table that a run of inserts builds on an empty file, and its close. *)
Lemma insert_close rs h :
  Forall wf_row rs -> Z.of_nat (length rs) <= TABLE_MAX_ROWS ->
  exists t h',
    run (insert_statement <$> rs) (db_open []) h =
      Ret ((fun _ => (EXECUTE_SUCCESS, [])) <$> rs, t, h') /\
    holds rs t /\
    db_close t h' =
      Ret (image (Z.to_nat (pages_for (Z.of_nat (length rs)))) (pager t), h').
Proof.
  intros Hwf Hlen.
  destruct (holds_run_inserts rs [] (db_open []) h holds_open_empty Hwf)
    as (t & h' & Hrun & Hholds); [simpl; lia|].
  exists t, h'. split; [done|]. split; [done|].
  apply db_close_holds; [done|].
  by destruct (run_file_unchanged _ _ _ _ _ _ Hrun) as [-> _].
Qed.

(** The pages of the image of a table that holds [rs]. *)
Lemma image_blocks rs t :
  holds rs t ->
  Forall (fun b => Z.of_nat (length b) = PAGE_SIZE)
         (default [] <$> take (Z.to_nat (pages_for (Z.of_nat (length rs)))) (pages (pager t))) /\
  Z.of_nat (length (default [] <$> take (Z.to_nat (pages_for (Z.of_nat (length rs))))
                                        (pages (pager t))))
    = pages_for (Z.of_nat (length rs)).
Proof.
  intros Hholds. pose proof Hholds as (Hwf & Hnum & Hmax & _). rewrite Hnum in Hmax.
  pose proof (pages_for_cases _ (conj (Nat2Z.is_nonneg (length rs)) Hmax)) as (? & ? & _).
  assert (HTM : TABLE_MAX_PAGES = 100) by done.
  split.
  - apply Forall_fmap, Forall_forall. intros o Ho.
    apply list_elem_of_lookup in Ho as [j Ho].
    apply lookup_take_Some in Ho as [Ho Hj].
    destruct (holds_pages_resident rs t j Hholds) as (pg & Hpg & Hpglen); [lia|].
    rewrite Hpg in Ho. by injection Ho as <-.
  - rewrite length_fmap, length_take. destruct Hwf as [Hplen _]. lia.
Qed.

Lemma image_block rs t (j : nat) page :
  holds rs t -> Z.of_nat j < pages_for (Z.of_nat (length rs)) ->
  pages (pager t) !! j = Some (Some page) ->
  (default [] <$> take (Z.to_nat (pages_for (Z.of_nat (length rs)))) (pages (pager t))) !! j
  = Some page.
Proof.
  intros Hholds Hj Hpage.
  rewrite list_lookup_fmap, lookup_take_lt by lia. by rewrite Hpage.
Qed.

Lemma length_image rs t :
  holds rs t ->
  Z.of_nat (length (image (Z.to_nat (pages_for (Z.of_nat (length rs)))) (pager t)))
  = pages_for (Z.of_nat (length rs)) * PAGE_SIZE.
Proof.
  intros Hholds. destruct (image_blocks rs t Hholds) as [Hall Hlen].
  unfold image. rewrite (length_concat_uniform (Z.to_nat PAGE_SIZE)).
  - unfold PAGE_SIZE in *. lia.
  - eapply Forall_impl; [exact Hall|]. intros b Hb. simpl in Hb. lia.
Qed.

(** Row [i] of a table that holds [rs] is found in the image at its place. *)
Lemma image_row rs t (i : nat) r :
  holds rs t -> rs !! i = Some r ->
  deserialize_row (image (Z.to_nat (pages_for (Z.of_nat (length rs)))) (pager t))
                  (file_offset (Z.of_nat i)) = r.
Proof.
  intros Hholds Hr. pose proof Hholds as (Hwf & Hnum & Hmax & Hrows).
  rewrite Hnum in Hmax. apply lookup_lt_Some in Hr as Hi.
  destruct (Hrows (Z.of_nat i) r ltac:(lia) ltac:(by rewrite Nat2Z.id))
    as (page & Hpage & Hdec).
  destruct (image_blocks rs t Hholds) as [Hall _].
  pose proof (row_offset_bound (Z.of_nat i) ltac:(lia)) as [Ho1 Ho2].
  assert (Hj : Z.of_nat i / ROWS_PER_PAGE < pages_for (Z.of_nat (length rs)))
    by (unfold pages_for; arith).
  assert (Hq : 0 <= Z.of_nat i / ROWS_PER_PAGE) by arith.
  unfold image, file_offset.
  rewrite <- (Z2Nat.id (Z.of_nat i / ROWS_PER_PAGE)) at 1 by done.
  rewrite (deserialize_concat_uniform _ _ page); [done|done| |done|done].
  apply (image_block rs t); [done|lia|done].
Qed.

(** A table reopened on the image decodes every row of [rs] at its index. *)
Lemma backed_reopen rs t :
  holds rs t ->
  backed rs (db_open (image (Z.to_nat (pages_for (Z.of_nat (length rs)))) (pager t))).
Proof.
  intros Hholds. pose proof Hholds as (Hwf & Hnum & Hmax & Hrows).
  rewrite Hnum in Hmax.
  set (file := image _ _).
  pose proof (length_image rs t Hholds) as Hflen. fold file in Hflen.
  pose proof (pages_for_cases _ (conj (Nat2Z.is_nonneg (length rs)) Hmax)) as (? & ? & _).
  assert (HTM : TABLE_MAX_PAGES = 100) by done.
  split; [apply wf_db_open|]. intros i r Hr g.
  apply lookup_lt_Some in Hr as Hi.
  destruct (Hrows (Z.of_nat i) r ltac:(lia) ltac:(by rewrite Nat2Z.id))
    as (page & Hpage & Hdec).
  assert (Hj : 0 <= Z.of_nat i / ROWS_PER_PAGE < pages_for (Z.of_nat (length rs)))
    by (unfold pages_for; arith).
  assert (Hplen : Z.of_nat (length page) = PAGE_SIZE) by (eapply Hwf, Hpage).
  destruct (get_page_loads (pager_open file) (Z.of_nat i / ROWS_PER_PAGE) g)
    as (page' & Hget & Hlen' & Hbytes).
  { lia. }
  { apply lookup_replicate_2. lia. }
  { cbn [pager_open file_length fd]. unfold u32. apply Z.mod_small.
    unfold PAGE_SIZE in *. lia. }
  { cbn [pager_open fd]. unfold PAGE_SIZE in *. lia. }
  assert (Heq : page' = page).
  { destruct (image_blocks rs t Hholds) as [Hall _].
    destruct (concat_uniform_split (Z.to_nat PAGE_SIZE)
                (default [] <$> take (Z.to_nat (pages_for (Z.of_nat (length rs))))
                                     (pages (pager t)))
                (Z.to_nat (Z.of_nat i / ROWS_PER_PAGE)) page)
      as (pre & post & Hsplit & Hpre).
    { eapply Forall_impl; [exact Hall|]. intros b Hb. simpl in Hb. lia. }
    { apply (image_block rs t); [done|lia|done]. }
    apply list_eq. intros k.
    destruct (decide (Z.of_nat k < PAGE_SIZE)) as [Hk|Hk].
    - rewrite (Hbytes k Hk). cbn [pager_open fd]. unfold file, image. rewrite Hsplit.
      replace (Z.to_nat (Z.of_nat i / ROWS_PER_PAGE * PAGE_SIZE) + k)%nat
        with (length pre + k)%nat by (unfold PAGE_SIZE in *; lia).
      rewrite lookup_app_r, lookup_app_l by lia.
      replace (length pre + k - length pre)%nat with k by lia.
      destruct (lookup_lt_is_Some_2 page k) as [b ->]; [lia|done].
    - rewrite !lookup_ge_None_2 by lia. done. }
  subst page'.
  assert (Hres : pages (set_page (pager_open file) (Z.of_nat i / ROWS_PER_PAGE) (Some page))
                    !! Z.to_nat (Z.of_nat i / ROWS_PER_PAGE) = Some (Some page)).
  { cbn [set_page pages]. apply list_lookup_insert_eq.
    cbn [pager_open pages]. rewrite length_replicate. lia. }
  rewrite (row_at_eq (db_open file) (Z.of_nat i) g _ _ page ltac:(lia) Hget Hres).
  by rewrite Hdec.
Qed.
End Reopen.

Section BackedScan.
Implicit Types (t : Table) (h g : Heap) (rs : list Row).

Lemma row_at_index_bound t i g r :
  wf_table t -> 0 <= i -> row_at t i g = Some r -> i < TABLE_MAX_ROWS.
Proof.
  intros Hwf Hi. unfold row_at, select_row.
  destruct (bind _ _ g) as [[[row t'] g']| |] eqn:Hsel; [|done..]. intros _.
  apply bind_Ret_inv in Hsel as ([t1 s] & h1 & Hslot & _).
  unfold row_slot in Hslot. apply bind_Ret_inv in Hslot as (p' & h2 & Hget & _).
  apply get_page_Ret_bound in Hget; [arith|done|arith].
Qed.

(** Decoding any row keeps what the table decodes at the indices of [rs]. *)
Lemma backed_select_row rs t i g :
  backed rs t -> 0 <= i < TABLE_MAX_ROWS ->
  exists row t' g',
    select_row t i g = Ret (row, t', g') /\
    row_at t i g = Some row /\
    backed rs t' /\ num_rows t' = num_rows t.
Proof.
  intros [Hwf Hback] Hi.
  pose proof (row_page_bound i Hi) as Hpi.
  destruct (get_page_in_bounds (pager t) (i / ROWS_PER_PAGE) g Hwf Hpi)
    as (p' & g' & page & Hget & Hwf' & Hfd & Hfl & Hpages & Hpage & _).
  pose proof (select_row_eq t i g p' g' page (proj1 Hi) Hget Hpage) as Hsel.
  eexists _, _, _. split; [exact Hsel|]. split; [|split; [split|]].
  - unfold row_at. by rewrite Hsel.
  - done.
  - intros i2 r2 Hr2 g2.
    pose proof (Hback i2 r2 Hr2 g) as Hat.
    pose proof (row_at_index_bound t (Z.of_nat i2) g r2 Hwf ltac:(lia) Hat) as Hi2.
    pose proof (row_page_bound (Z.of_nat i2) ltac:(lia)) as Hpi2.
    destruct (decide (Z.of_nat i2 / ROWS_PER_PAGE = i / ROWS_PER_PAGE)) as [Heq|Hne].
    + rewrite <- Hat.
      rewrite (row_at_eq t (Z.of_nat i2) g p' g' page) by (rewrite ?Heq; done || lia).
      unfold row_at.
      rewrite (select_row_resident (set_pager t p') (Z.of_nat i2) g2 page);
        [done|lia|lia|by rewrite Heq].
    + rewrite <- (Hback i2 r2 Hr2 g2).
      apply row_at_other_page; [done|lia|done|done|].
      cbn [set_pager pager]. rewrite Hpages. apply list_lookup_insert_ne. lia.
  - done.
Qed.

Lemma backed_select_loop rs (n : nat) :
  forall i t g,
    backed rs t -> 0 <= i -> i + Z.of_nat n <= TABLE_MAX_ROWS ->
    exists rows t' g',
      select_loop n i t g = Ret (rows, t', g') /\
      length rows = n /\
      forall (k : nat) r,
        rs !! (Z.to_nat i + k)%nat = Some r -> (k < n)%nat -> rows !! k = Some r.
Proof.
  induction n as [|n IH]; intros i t g Hback Hi Hn.
  { exists [], t, g. split; [done|]. split; [done|]. intros k r _ Hk. lia. }
  destruct (backed_select_row rs t i g Hback ltac:(lia))
    as (row & t1 & g1 & Hsel & Hat & Hback1 & _).
  assert (Hu : u32 (i + 1) = i + 1) by (unfold u32; apply Z.mod_small; arith).
  destruct (IH (i + 1) t1 g1 Hback1 ltac:(lia) ltac:(lia))
    as (rows & t' & g' & Hloop & Hlen & Hrows).
  exists (row :: rows), t', g'. split; [|split].
  - cbn [select_loop]. rewrite (bind_Ret _ _ _ _ _ Hsel). cbv beta iota.
    rewrite Hu. by rewrite (bind_Ret _ _ _ _ _ Hloop).
  - simpl. by rewrite Hlen.
  - intros [|k] r Hr Hk.
    + rewrite Nat.add_0_r in Hr. destruct Hback as [_ Hback].
      pose proof (Hback _ _ Hr g) as Hat'. rewrite Z2Nat.id in Hat' by done.
      simpl. congruence.
    + simpl. apply Hrows; [|lia].
      replace (Z.to_nat (i + 1) + k)%nat with (Z.to_nat i + S k)%nat by lia. done.
Qed.

(** A select on a table that decodes [rs] prints [rs] first. *)
Lemma backed_execute_select rs t g s :
  backed rs t -> 0 < num_rows t <= TABLE_MAX_ROWS ->
  Z.of_nat (length rs) <= num_rows t ->
  exists rows t' g',
    execute_select s t g = Ret (EXECUTE_SUCCESS, rows, t', g') /\
    Z.of_nat (length rows) = num_rows t /\
    take (length rs) rows = rs.
Proof.
  intros Hback Hn Hlen. unfold execute_select.
  destruct (Z.eqb_spec (num_rows t) 0) as [H0|_]; [lia|].
  destruct (backed_select_loop rs (Z.to_nat (num_rows t)) 0 t g Hback)
    as (rows & t' & g' & Hloop & Hrlen & Hrows); [lia..|].
  exists rows, t', g'. rewrite (bind_Ret _ _ _ _ _ Hloop).
  split; [done|]. split; [lia|].
  apply list_eq. intros k. destruct (decide (k < length rs)%nat) as [Hk|Hk].
  - rewrite lookup_take_lt by done.
    destruct (lookup_lt_is_Some_2 rs k Hk) as [r Hr]. rewrite Hr.
    apply Hrows; [done|lia].
  - rewrite lookup_take_ge, lookup_ge_None_2 by lia. done.
Qed.

(** The first loop of [db_close] on pages none of which is resident. *)
Lemma db_close_full_pages_absent (n : nat) :
  forall i p h,
    0 <= i ->
    (forall j : nat, (Z.to_nat i <= j < Z.to_nat i + n)%nat -> pages p !! j = Some None) ->
    db_close_full_pages n i p h = Ret (p, h).
Proof.
  induction n as [|n IH]; intros i p h Hi Habs; [done|].
  cbn [db_close_full_pages]. rewrite (Habs (Z.to_nat i)) by lia.
  apply IH; [lia|]. intros j Hj. apply Habs. lia.
Qed.
End BackedScan.

(** X7.  The format of the file.  After [N <= TABLE_MAX_ROWS] rows have been
    inserted into a table opened on an empty file and the table has been
    closed, the file consists of whole pages, [PAGE_SIZE] bytes for each
    page that holds a row, and row [i] is found in it at page
    [i / ROWS_PER_PAGE], slot [i mod ROWS_PER_PAGE]. *)
Theorem close_file_layout (rs : list Row) (h : Heap) :
  Forall wf_row rs -> Z.of_nat (length rs) <= TABLE_MAX_ROWS ->
  exists t h' file,
    run (insert_statement <$> rs) (db_open []) h =
      Ret ((fun _ => (EXECUTE_SUCCESS, [])) <$> rs, t, h') /\
    db_close t h' = Ret (file, h') /\
    Z.of_nat (length file) = pages_for (Z.of_nat (length rs)) * PAGE_SIZE /\
    forall (i : nat) r,
      rs !! i = Some r -> deserialize_row file (file_offset (Z.of_nat i)) = r.
Proof.
  intros Hwf Hlen.
  destruct (insert_close rs h Hwf Hlen) as (t & h' & Hrun & Hholds & Hclose).
  eexists t, h', _. split; [done|]. split; [exact Hclose|]. split.
  - by apply length_image.
  - intros i r Hr. by apply image_row.
Qed.

(** Fourteen rows: two pages. *)
Lemma close_file_layout_witness :
  exists t h' file,
    run (insert_statement <$> replicate 14 sample_row) (db_open []) sample_heap =
      Ret ((fun _ => (EXECUTE_SUCCESS, [])) <$> replicate 14 sample_row, t, h') /\
    db_close t h' = Ret (file, h') /\
    Z.of_nat (length file) = pages_for (Z.of_nat (length (replicate 14 sample_row))) * PAGE_SIZE /\
    forall (i : nat) r,
      replicate 14 sample_row !! i = Some r ->
      deserialize_row file (file_offset (Z.of_nat i)) = r.
Proof.
  apply (close_file_layout (replicate 14 sample_row) sample_heap).
  - apply Forall_replicate, valid_sample_row.
  - rewrite length_replicate. vm_compute. discriminate.
Defined.

(** X8.  No inserted row is lost by closing and reopening, but rows are
    gained: the table reopened on the file counts
    [pages * PAGE_SIZE / ROW_SIZE] rows, which is at least [N], and decodes
    at every index below [N] the row that was inserted there, whatever the
    allocator returns. *)
Theorem reopen_keeps_rows (rs : list Row) (h : Heap) :
  Forall wf_row rs -> Z.of_nat (length rs) <= TABLE_MAX_ROWS ->
  exists t h' file,
    run (insert_statement <$> rs) (db_open []) h =
      Ret ((fun _ => (EXECUTE_SUCCESS, [])) <$> rs, t, h') /\
    db_close t h' = Ret (file, h') /\
    num_rows (db_open file) =
      pages_for (Z.of_nat (length rs)) * PAGE_SIZE / ROW_SIZE /\
    Z.of_nat (length rs) <= num_rows (db_open file) /\
    forall (i : nat) r g,
      rs !! i = Some r -> row_at (db_open file) (Z.of_nat i) g = Some r.
Proof.
  intros Hwf Hlen.
  destruct (insert_close rs h Hwf Hlen) as (t & h' & Hrun & Hholds & Hclose).
  eexists t, h', _. split; [done|]. split; [exact Hclose|].
  pose proof (length_image rs t Hholds) as Hflen.
  pose proof (pages_for_cases _ (conj (Nat2Z.is_nonneg (length rs)) Hlen)) as (? & ? & _).
  assert (Hnum : num_rows (db_open (image (Z.to_nat (pages_for (Z.of_nat (length rs)))) (pager t)))
                 = pages_for (Z.of_nat (length rs)) * PAGE_SIZE / ROW_SIZE).
  { unfold db_open, pager_open; cbn [num_rows file_length]. rewrite Hflen.
    unfold u32. rewrite Z.mod_small; [done|].
    unfold PAGE_SIZE, TABLE_MAX_PAGES in *. lia. }
  split; [done|]. split.
  - rewrite Hnum. unfold pages_for. arith.
  - intros i r g Hr. by apply (backed_reopen rs t Hholds).
Qed.

(** Fourteen rows are inserted; the reopened table counts twenty-seven. *)
Lemma reopen_keeps_rows_witness :
  exists t h' file,
    run (insert_statement <$> replicate 14 sample_row) (db_open []) sample_heap =
      Ret ((fun _ => (EXECUTE_SUCCESS, [])) <$> replicate 14 sample_row, t, h') /\
    db_close t h' = Ret (file, h') /\
    num_rows (db_open file) =
      pages_for (Z.of_nat (length (replicate 14 sample_row))) * PAGE_SIZE / ROW_SIZE /\
    Z.of_nat (length (replicate 14 sample_row)) <= num_rows (db_open file) /\
    forall (i : nat) r g,
      replicate 14 sample_row !! i = Some r ->
      row_at (db_open file) (Z.of_nat i) g = Some r.
Proof.
  apply (reopen_keeps_rows (replicate 14 sample_row) sample_heap).
  - apply Forall_replicate, valid_sample_row.
  - rewrite length_replicate. vm_compute. discriminate.
Defined.

(** X9.  What a select prints after a close and a reopen: for between 1 and
    1209 inserted rows it succeeds and prints the inserted rows first, in
    order, followed by the rows that the reopened table counts in excess;
    it prints exactly the inserted rows if and only if there were 13 of
    them, one full page. *)
Theorem reopen_select_prefix (rs : list Row) (h g : Heap) :
  Forall wf_row rs -> rs <> [] -> Z.of_nat (length rs) <= 1209 ->
  exists t h' file rows t' g',
    run (insert_statement <$> rs) (db_open []) h =
      Ret ((fun _ => (EXECUTE_SUCCESS, [])) <$> rs, t, h') /\
    db_close t h' = Ret (file, h') /\
    execute_select select_statement (db_open file) g =
      Ret (EXECUTE_SUCCESS, rows, t', g') /\
    Z.of_nat (length rows) = pages_for (Z.of_nat (length rs)) * PAGE_SIZE / ROW_SIZE /\
    take (length rs) rows = rs /\
    (rows = rs <-> length rs = 13%nat).
Proof.
  intros Hwf Hne Hlen.
  assert (Hpos : 0 < Z.of_nat (length rs)) by (destruct rs; [done|simpl; lia]).
  destruct (insert_close rs h Hwf) as (t & h' & Hrun & Hholds & Hclose);
    [rewrite TABLE_MAX_ROWS_eq; lia|].
  set (file := image _ _) in *.
  pose proof (length_image rs t Hholds) as Hflen. fold file in Hflen.
  assert (Hnum : num_rows (db_open file) =
                   pages_for (Z.of_nat (length rs)) * PAGE_SIZE / ROW_SIZE).
  { unfold db_open, pager_open; cbn [num_rows file_length]. rewrite Hflen.
    unfold u32. rewrite Z.mod_small; [done|]. unfold pages_for. arith. }
  destruct (backed_execute_select rs (db_open file) g select_statement
              (backed_reopen rs t Hholds))
    as (rows & t' & g' & Hsel & Hrlen & Htake).
  { rewrite Hnum. unfold pages_for. arith. }
  { rewrite Hnum. unfold pages_for. arith. }
  exists t, h', file, rows, t', g'.
  split; [done|]. split; [done|]. split; [done|]. split; [by rewrite Hrlen|].
  split; [done|]. rewrite Hnum in Hrlen. split.
  - intros ->. unfold pages_for in Hrlen. arith.
  - intros H13. transitivity (take (length rs) rows); [|exact Htake].
    symmetry. apply take_ge.
    rewrite H13 in Hrlen. change (pages_for (Z.of_nat 13) * PAGE_SIZE / ROW_SIZE) with 13 in Hrlen.
    lia.
Qed.

(** Fourteen rows are inserted; twenty-seven are printed after the reopen. *)
Lemma reopen_select_prefix_witness :
  exists t h' file rows t' g',
    run (insert_statement <$> replicate 14 sample_row) (db_open []) sample_heap =
      Ret ((fun _ => (EXECUTE_SUCCESS, [])) <$> replicate 14 sample_row, t, h') /\
    db_close t h' = Ret (file, h') /\
    execute_select select_statement (db_open file) sample_heap =
      Ret (EXECUTE_SUCCESS, rows, t', g') /\
    Z.of_nat (length rows) =
      pages_for (Z.of_nat (length (replicate 14 sample_row))) * PAGE_SIZE / ROW_SIZE /\
    take (length (replicate 14 sample_row)) rows = replicate 14 sample_row /\
    (rows = replicate 14 sample_row <-> length (replicate 14 sample_row) = 13%nat).
Proof.
  apply (reopen_select_prefix (replicate 14 sample_row) sample_heap sample_heap).
  - apply Forall_replicate, valid_sample_row.
  - discriminate.
  - rewrite length_replicate. lia.
Defined.

(** X10.  After more than 1209 inserts (the table takes up to 1300), a
    close and a reopen, the reopened table counts more than
    [TABLE_MAX_ROWS] rows and a select on it does not return: its scan
    requests page [TABLE_MAX_PAGES]. *)
Theorem reopen_select_overrun (rs : list Row) (h g : Heap) :
  Forall wf_row rs -> 1209 < Z.of_nat (length rs) <= TABLE_MAX_ROWS ->
  exists t h' file,
    run (insert_statement <$> rs) (db_open []) h =
      Ret ((fun _ => (EXECUTE_SUCCESS, [])) <$> rs, t, h') /\
    db_close t h' = Ret (file, h') /\
    TABLE_MAX_ROWS < num_rows (db_open file) /\
    execute_select select_statement (db_open file) g = Undefined.
Proof.
  intros Hwf Hlen.
  destruct (insert_close rs h Hwf) as (t & h' & Hrun & Hholds & Hclose); [lia|].
  set (file := image _ _) in *.
  pose proof (length_image rs t Hholds) as Hflen. fold file in Hflen.
  assert (Hnum : TABLE_MAX_ROWS < num_rows (db_open file)).
  { unfold db_open, pager_open; cbn [num_rows file_length]. rewrite Hflen.
    unfold u32. rewrite Z.mod_small; unfold pages_for; arith. }
  exists t, h', file. split; [done|]. split; [done|]. split; [done|].
  apply execute_select_oversize; [apply wf_db_open|done].
Qed.

(** The table is filled: 1300 rows. *)
Lemma reopen_select_overrun_witness :
  exists t h' file,
    run (insert_statement <$> replicate (Z.to_nat TABLE_MAX_ROWS) sample_row)
        (db_open []) sample_heap =
      Ret ((fun _ => (EXECUTE_SUCCESS, [])) <$> replicate (Z.to_nat TABLE_MAX_ROWS) sample_row,
           t, h') /\
    db_close t h' = Ret (file, h') /\
    TABLE_MAX_ROWS < num_rows (db_open file) /\
    execute_select select_statement (db_open file) sample_heap = Undefined.
Proof.
  apply (reopen_select_overrun (replicate (Z.to_nat TABLE_MAX_ROWS) sample_row)
           sample_heap sample_heap).
  - apply Forall_replicate, valid_sample_row.
  - rewrite length_replicate, Z2Nat.id by done. rewrite TABLE_MAX_ROWS_eq. lia.
Defined.

(** X11.  Opening a file and closing the table without a statement in
    between writes nothing: no page is resident, so no page is flushed.
    (The file must not count more than [TABLE_MAX_ROWS] rows: beyond that
    the loop of [db_close] leaves the [pages] array.) *)
Theorem open_close_untouched (file : list byte) (h : Heap) :
  num_rows (db_open file) <= TABLE_MAX_ROWS ->
  db_close (db_open file) h = Ret (file, h).
Proof.
  intros Hmax.
  assert (Hpos : 0 <= num_rows (db_open file)).
  { unfold db_open, pager_open; cbn [num_rows file_length]. arith. }
  pose proof (pages_for_cases _ (conj Hpos Hmax)) as (Hq0 & Hq & _ & Hnz).
  assert (HTM : TABLE_MAX_PAGES = 100) by done.
  assert (Habs : forall j : nat, (j < 100)%nat ->
                   pages (pager (db_open file)) !! j = Some None).
  { intros j Hj. cbn [db_open pager pager_open pages]. apply lookup_replicate_2.
    unfold TABLE_MAX_PAGES. lia. }
  assert (Hloop : db_close_full_pages
                    (Z.to_nat (num_rows (db_open file) / ROWS_PER_PAGE)) 0
                    (pager (db_open file)) h = Ret (pager (db_open file), h)).
  { apply db_close_full_pages_absent; [lia|]. intros j Hj. apply Habs. lia. }
  unfold db_close. rewrite (bind_Ret _ _ _ _ _ Hloop).
  destruct (Z.eqb_spec (num_rows (db_open file) mod ROWS_PER_PAGE) 0) as [Hz|Hz].
  - done.
  - rewrite Habs by (specialize (Hnz Hz); lia). done.
Qed.

(** A file of one page. *)
Lemma open_close_untouched_witness :
  db_close (db_open (replicate (Z.to_nat PAGE_SIZE) xaa)) sample_heap
  = Ret (replicate (Z.to_nat PAGE_SIZE) xaa, sample_heap).
Proof.
  apply (open_close_untouched (replicate (Z.to_nat PAGE_SIZE) xaa) sample_heap).
  unfold db_open, pager_open; cbn [num_rows file_length].
  rewrite length_replicate, Z2Nat.id by (unfold PAGE_SIZE; lia).
  vm_compute. discriminate.
Defined.

(** * The command line *)

(** ** Strings and tokens *)

Section Strings.
Implicit Types (s tok rest : list byte) (b : byte).

Lemma eqb_neq b c : b <> c -> Byte.eqb b c = false.
Proof.
  intros Hne. destruct (Byte.eqb b c) eqn:Heq; [|done].
  by apply Byte.byte_dec_bl in Heq.
Qed.

Lemma eqb_refl b : Byte.eqb b b = true.
Proof. by apply Byte.byte_dec_lb. Qed.

Lemma cstr_no_nul s : x00 ∉ s -> cstr s = s.
Proof.
  induction s as [|b s IH]; [done|]. intros Hnot.
  apply not_elem_of_cons in Hnot as [Hb Hs]. simpl.
  rewrite eqb_neq by done. by rewrite IH.
Qed.

Lemma strlen_no_nul s : x00 ∉ s -> strlen s = Z.of_nat (length s).
Proof.
  induction s as [|b s IH]; [done|]. intros Hnot.
  apply not_elem_of_cons in Hnot as [Hb Hs]. cbn [strlen length].
  rewrite eqb_neq by done. rewrite IH by done. lia.
Qed.

(** A string that holds [s], a NUL and anything after it has the content [s]. *)
Lemma cstr_terminated s rest : x00 ∉ s -> cstr (s ++ x00 :: rest) = s.
Proof.
  induction s as [|b s IH]; [done|]. intros Hnot.
  apply not_elem_of_cons in Hnot as [Hb Hs]. simpl.
  rewrite eqb_neq by done. by rewrite IH.
Qed.

Lemma cstr_prefix s (l : list byte) :
  x00 ∉ s -> take (length s) l = s -> l !! length s = Some x00 -> cstr l = s.
Proof.
  intros Hnot Htake Hnul.
  rewrite <- (take_drop (length s) l), Htake.
  rewrite (drop_S _ _ _ Hnul). by apply cstr_terminated.
Qed.

Lemma token_split tok rest :
  x20 ∉ tok -> (rest = [] \/ exists r, rest = x20 :: r) ->
  token (tok ++ rest) = (tok, drop 1 rest).
Proof.
  intros Hnot Hrest. induction tok as [|b tok IH].
  - destruct Hrest as [->|[r ->]]; [done|]. simpl. done.
  - apply not_elem_of_cons in Hnot as [Hb Htok]. simpl.
    rewrite eqb_neq by done. by rewrite IH.
Qed.

(** [strtok] returns a token that is followed by a space or by the end of
    the string, and saves the position after the space. *)
Lemma strtok_token tok rest :
  is_token tok -> (rest = [] \/ exists r, rest = x20 :: r) ->
  strtok (tok ++ rest) = (Some tok, drop 1 rest).
Proof.
  intros (Hne & Hsp & _) Hrest. unfold strtok.
  destruct tok as [|b tok]; [done|].
  pose proof Hsp as Hsp'. apply not_elem_of_cons in Hsp as [Hb _].
  cbn [app skip_delim]. rewrite eqb_neq by done.
  change (b :: tok ++ rest) with ((b :: tok) ++ rest).
  by rewrite token_split.
Qed.

Lemma is_tokenb_correct s : is_tokenb s = true -> is_token s.
Proof.
  unfold is_tokenb, is_token. intros [Hne Hall]%andb_prop.
  split; [|split].
  - intros ->. done.
  - intros Hin. rewrite forallb_forall in Hall.
    apply list_elem_of_In, Hall in Hin. by rewrite eqb_refl in Hin.
  - intros Hin. rewrite forallb_forall in Hall.
    apply list_elem_of_In, Hall in Hin. rewrite eqb_refl in Hin.
    by destruct (Byte.eqb x00 x20).
Qed.

Lemma strtok_nil : strtok [] = (None, []).
Proof. done. Qed.

(** A part of what [memcpy] wrote is read back. *)
Lemma load_memcpy_inside (mem src : list byte) off n k m :
  0 <= off -> 0 <= k -> 0 <= m -> k + m <= n ->
  off + n <= Z.of_nat (length mem) -> n <= Z.of_nat (length src) ->
  load (memcpy mem off src n) (off + k) m = take (Z.to_nat m) (drop (Z.to_nat k) src).
Proof.
  intros Hoff Hk Hm Hkm Hmem Hsrc. unfold load, memcpy.
  apply list_eq. intros j.
  destruct (decide (j < Z.to_nat m)%nat) as [Hj|Hj].
  - rewrite !lookup_take_lt, !lookup_drop by done.
    rewrite list_lookup_inserts by (rewrite ?length_take; lia).
    rewrite lookup_take_lt by lia. f_equal. lia.
  - rewrite !lookup_take_ge by lia. done.
Qed.
End Strings.

(** ** Parsing an insert *)

Section Prepare.
Implicit Types (kw ids user mail tail raw : list byte) (h : Heap) (st : Statement).

Lemma malloc_eq size h : malloc size h = Ret (fresh_block size h, next_heap h).
Proof. done. Qed.

Lemma length_fresh_block size h :
  0 <= size -> Z.of_nat (length (fresh_block size h)) = size.
Proof. intros. unfold fresh_block. rewrite length_fmap, length_seq. lia. Qed.

(** [prepare_insert] on a line of at least four tokens. *)
Lemma prepare_insert_eq kw ids user mail tail st h :
  is_token kw -> is_token ids -> is_token user -> is_token mail ->
  (tail = [] \/ exists r, tail = x20 :: r) ->
  prepare_insert (kw ++ [x20] ++ ids ++ [x20] ++ user ++ [x20] ++ mail ++ tail) st h =
    let raw := fresh_block SIZEOF_ROW h in
    match atoi ids with
    | None => Undefined
    | Some id =>
        if id =? 0 then Ret (PREPARE_NOT_ID, insert_of raw, next_heap h)
        else if strlen user >? USERNAME_SIZE
        then Ret (PREPARE_STRING_TOO_LONG, insert_of raw, next_heap h)
        else if strlen mail >? EMAIL_SIZE
        then Ret (PREPARE_STRING_TOO_LONG, insert_of raw, next_heap h)
        else Ret (PREPARE_SUCCESS, insert_of (filled raw id user mail), next_heap h)
    end.
Proof.
  intros Hkw Hids Huser Hmail Htail.
  unfold prepare_insert, bind. rewrite malloc_eq. cbv beta iota.
  rewrite (strtok_token kw) by eauto. cbn [app drop]. rewrite drop_0.
  rewrite (strtok_token ids) by eauto. cbn [drop]. rewrite drop_0.
  rewrite (strtok_token user) by eauto. cbn [drop]. rewrite drop_0.
  rewrite (strtok_token mail) by eauto. cbv beta iota.
  destruct (atoi ids) as [id|]; [|done].
  destruct (id =? 0); [done|].
  destruct (strlen user >? USERNAME_SIZE); [done|].
  destruct (strlen mail >? EMAIL_SIZE); done.
Qed.

Lemma take_load (mem : list byte) off n m :
  0 <= m <= n -> take (Z.to_nat m) (load mem off n) = load mem off m.
Proof. intros. unfold load. rewrite take_take. f_equal. lia. Qed.

Lemma lookup_load (mem : list byte) off n (j : nat) :
  0 <= off -> Z.of_nat j < n -> load mem off n !! j = mem !! (Z.to_nat off + j)%nat.
Proof. intros. unfold load. rewrite lookup_take_lt, lookup_drop by lia. done. Qed.

Lemma strcpy_eq (mem s : list byte) off :
  x00 ∉ s ->
  strcpy mem off s = memcpy mem off (s ++ [x00]) (Z.of_nat (length s) + 1).
Proof. intros Hs. unfold strcpy. by rewrite cstr_no_nul, strlen_no_nul. Qed.

Lemma length_filled raw id user mail :
  length (filled raw id user mail) = length raw.
Proof. unfold filled, strcpy. by rewrite !length_memcpy. Qed.

(** The fields of the row that [prepare_insert] has filled in. *)
Lemma row_object_filled raw n user mail :
  Z.of_nat (length raw) = SIZEOF_ROW ->
  x00 ∉ user -> x00 ∉ mail ->
  Z.of_nat (length user) <= USERNAME_SIZE -> Z.of_nat (length mail) <= EMAIL_SIZE ->
  let r := row_object (filled raw n user mail) in
  wf_row r /\
  id r = u32 n /\
  take (length user) (username r) = user /\
  (Z.of_nat (length user) <= COLUMN_USERNAME_SIZE -> cstr (username r) = user) /\
  take (length mail) (email r) = mail /\
  (Z.of_nat (length mail) <= COLUMN_EMAIL_SIZE -> cstr (email r) = mail).
Proof.
  intros Hraw Hu0 Hm0 Hulen Hmlen r.
  pose proof (length_u32_to_bytes (u32 n)) as Hidlen.
  assert (Hrange : 0 <= u32 n < 2 ^ 32) by (unfold u32; apply Z.mod_pos_bound; lia).
  assert (Hlen3 : Z.of_nat (length (filled raw n user mail)) = SIZEOF_ROW)
    by (by rewrite length_filled).
  assert (Hwf : wf_row r).
  { unfold r, wf_row, row_object; cbn [id username email]. split; [|split].
    - apply u32_of_bytes_range.
      pose proof (length_load (filled raw n user mail) ID_OFFSET ID_SIZE).
      unfold SIZEOF_ROW in *. consts. lia.
    - apply length_load; unfold SIZEOF_ROW in *; consts; lia.
    - apply length_load; unfold SIZEOF_ROW in *; consts; lia. }
  assert (Htu : take (length user) (username r) = user).
  { unfold r, row_object; cbn [username].
    rewrite <- (Nat2Z.id (length user)) at 1. rewrite take_load by (consts; lia).
    unfold filled. rewrite (strcpy_eq _ mail), (strcpy_eq _ user) by done.
    rewrite load_memcpy_disjoint
      by (rewrite ?length_app; simpl; unfold SIZEOF_ROW in *; consts; lia).
    replace USERNAME_OFFSET with (USERNAME_OFFSET + 0) at 2 by lia.
    rewrite load_memcpy_inside
      by (rewrite ?length_memcpy, ?length_app; simpl; unfold SIZEOF_ROW in *; consts; lia).
    rewrite Nat2Z.id. change (Z.to_nat 0) with 0%nat. by rewrite drop_0, take_app_length. }
  assert (Htm : take (length mail) (email r) = mail).
  { unfold r, row_object; cbn [email].
    rewrite <- (Nat2Z.id (length mail)) at 1. rewrite take_load by (consts; lia).
    unfold filled. rewrite (strcpy_eq _ mail) by done.
    replace EMAIL_OFFSET with (EMAIL_OFFSET + 0) at 2 by lia.
    rewrite load_memcpy_inside
      by (unfold strcpy; rewrite ?length_memcpy, ?length_app; simpl;
          unfold SIZEOF_ROW in *; consts; lia).
    rewrite Nat2Z.id. change (Z.to_nat 0) with 0%nat. by rewrite drop_0, take_app_length. }
  split; [done|]. split; [|split; [done|split; [|split; [done|]]]].
  - unfold r, row_object; cbn [id]. unfold filled.
    rewrite (strcpy_eq _ mail), (strcpy_eq _ user) by done.
    rewrite !load_memcpy_disjoint
      by (rewrite ?length_app; simpl; unfold SIZEOF_ROW in *; consts; lia).
    rewrite load_memcpy_same by (unfold SIZEOF_ROW in *; consts; lia).
    rewrite take_ge by (consts; lia). by apply u32_of_to_bytes.
  - intros Hshort. apply cstr_prefix; [done|done|].
    unfold r, row_object; cbn [username].
    rewrite lookup_load by (consts; lia).
    unfold filled. rewrite (strcpy_eq _ mail), (strcpy_eq _ user) by done.
    unfold memcpy at 1. rewrite list_lookup_inserts_lt by (consts; lia).
    unfold memcpy at 1.
    rewrite list_lookup_inserts
      by (rewrite ?length_memcpy, ?length_take, ?length_app; simpl;
          unfold SIZEOF_ROW in *; consts; lia).
    rewrite lookup_take_lt by lia.
    replace (Z.to_nat USERNAME_OFFSET + length user - Z.to_nat USERNAME_OFFSET)%nat
      with (length user + 0)%nat by lia.
    by rewrite lookup_app_r, Nat.add_0_r, Nat.sub_diag by lia.
  - intros Hshort. apply cstr_prefix; [done|done|].
    unfold r, row_object; cbn [email].
    rewrite lookup_load by (consts; lia).
    unfold filled. rewrite (strcpy_eq _ mail) by done.
    unfold memcpy at 1.
    rewrite list_lookup_inserts
      by (unfold strcpy; rewrite ?length_memcpy, ?length_take, ?length_app; simpl;
          unfold SIZEOF_ROW in *; consts; lia).
    rewrite lookup_take_lt by lia.
    replace (Z.to_nat EMAIL_OFFSET + length mail - Z.to_nat EMAIL_OFFSET)%nat
      with (length mail + 0)%nat by lia.
    by rewrite lookup_app_r, Nat.add_0_r, Nat.sub_diag by lia.
Qed.

(** Any block of [sizeof(Row)] bytes is a well-formed row. *)
Lemma wf_row_object raw :
  Z.of_nat (length raw) = SIZEOF_ROW -> wf_row (row_object raw).
Proof.
  intros Hraw. apply (wf_deserialize_row raw 0); [lia|].
  rewrite Hraw, ROW_SIZE_eq. unfold SIZEOF_ROW. lia.
Qed.
End Prepare.

Section PrepareStatement.
Implicit Types (kw ids user mail tail raw buffer : list byte) (h : Heap) (st : Statement).

Lemma atoi_range s v : atoi s = Some v -> INT_MIN <= v <= INT_MAX.
Proof.
  unfold atoi.
  match goal with |- context [if (INT_MIN <=? ?x) && _ then _ else _] => set (w := x) end.
  destruct (Z.leb_spec INT_MIN w), (Z.leb_spec w INT_MAX); simpl; try done.
  intros [= <-]. done.
Qed.

(** A line whose first token begins with [insert] goes to [prepare_insert]. *)
Lemma prepare_statement_insert_line kw rest st h :
  take 6 kw = kw_insert ->
  prepare_statement (kw ++ rest) st h = prepare_insert (kw ++ rest) st h.
Proof.
  intros Hkw. unfold prepare_statement, strncmp_eq.
  assert (Hlen : (6 <= length kw)%nat).
  { apply (f_equal length) in Hkw. rewrite length_take in Hkw.
    change (length kw_insert) with 6%nat in Hkw. lia. }
  rewrite take_app_le, Hkw by done. by rewrite bool_decide_eq_true_2.
Qed.

Lemma head_insert_line kw rest :
  take 6 kw = kw_insert -> head (kw ++ rest) <> Some x2e.
Proof. destruct kw as [|b kw]; [done|]. simpl. by intros [= -> _]. Qed.
End PrepareStatement.

(** X12.  Parsing an insert.  A line of four or more tokens separated by
    single spaces whose first token begins with [insert] (it may go on:
    [insertx] is taken for an insert), whose second token [atoi] reads as a
    non-zero [int], whose third has at most 33 bytes and whose fourth at most
    256, is prepared successfully; tokens after the fourth are ignored.  The
    row has the id converted to [uint32_t] (a negative id is accepted and
    wraps to [id + 2^32]) and begins its username and email arrays with the
    tokens; a username of at most 32 bytes and an email of at most 255 bytes
    are terminated there, so the strings of the row are the tokens. *)
Theorem prepare_statement_insert kw ids user mail tail (st : Statement) (h : Heap) (v : Z) :
  is_token kw -> is_token ids -> is_token user -> is_token mail ->
  (tail = [] \/ exists r, tail = x20 :: r) ->
  take 6 kw = kw_insert ->
  atoi ids = Some v -> v <> 0 ->
  Z.of_nat (length user) <= USERNAME_SIZE -> Z.of_nat (length mail) <= EMAIL_SIZE ->
  exists r,
    prepare_statement (kw ++ [x20] ++ ids ++ [x20] ++ user ++ [x20] ++ mail ++ tail) st h =
      Ret (PREPARE_SUCCESS,
           {| type := STATEMENT_INSERT; row_to_insert := Some r |}, next_heap h) /\
    wf_row r /\
    id r = u32 v /\ (v < 0 -> id r = v + 2 ^ 32) /\
    take (length user) (username r) = user /\
    (Z.of_nat (length user) <= COLUMN_USERNAME_SIZE -> cstr (username r) = user) /\
    take (length mail) (email r) = mail /\
    (Z.of_nat (length mail) <= COLUMN_EMAIL_SIZE -> cstr (email r) = mail).
Proof.
  intros Hkw Hids Huser Hmail Htail Hins Hatoi Hv Hulen Hmlen.
  exists (row_object (filled (fresh_block SIZEOF_ROW h) v user mail)).
  destruct (row_object_filled (fresh_block SIZEOF_ROW h) v user mail)
    as (Hwf & Hid & Hu & Hcu & Hm & Hcm);
    [by apply length_fresh_block|apply Huser|apply Hmail|done|done|].
  split.
  - rewrite prepare_statement_insert_line by done.
    rewrite prepare_insert_eq by done. cbv zeta. rewrite Hatoi.
    destruct (Z.eqb_spec v 0); [done|].
    rewrite !strlen_no_nul by (apply Huser || apply Hmail).
    destruct (Z.gtb_spec (Z.of_nat (length user)) USERNAME_SIZE); [lia|].
    destruct (Z.gtb_spec (Z.of_nat (length mail)) EMAIL_SIZE); [lia|]. done.
  - split; [done|]. split; [done|]. split; [|done].
    intros Hneg. rewrite Hid. apply atoi_range in Hatoi.
    unfold u32, INT_MIN, INT_MAX in *. Z.to_euclidean_division_equations. lia.
Qed.

(** [insertx -5 bob b@c d]. *)
Lemma prepare_statement_insert_witness :
  exists r,
    prepare_statement
      ((kw_insert ++ [x78]) ++ [x20] ++ [x2d; x35] ++ [x20] ++ [x62; x6f; x62] ++ [x20]
         ++ [x62; x40; x63] ++ [x20; x64])
      select_statement sample_heap =
      Ret (PREPARE_SUCCESS,
           {| type := STATEMENT_INSERT; row_to_insert := Some r |}, next_heap sample_heap) /\
    wf_row r /\
    id r = u32 (-5) /\ (-5 < 0 -> id r = -5 + 2 ^ 32) /\
    take (length [x62; x6f; x62]) (username r) = [x62; x6f; x62] /\
    (Z.of_nat (length [x62; x6f; x62]) <= COLUMN_USERNAME_SIZE ->
     cstr (username r) = [x62; x6f; x62]) /\
    take (length [x62; x40; x63]) (email r) = [x62; x40; x63] /\
    (Z.of_nat (length [x62; x40; x63]) <= COLUMN_EMAIL_SIZE ->
     cstr (email r) = [x62; x40; x63]).
Proof.
  apply (prepare_statement_insert (kw_insert ++ [x78]) [x2d; x35] [x62; x6f; x62]
           [x62; x40; x63] [x20; x64] select_statement sample_heap (-5)).
  - by apply is_tokenb_correct.
  - by apply is_tokenb_correct.
  - by apply is_tokenb_correct.
  - by apply is_tokenb_correct.
  - right. by eexists.
  - reflexivity.
  - vm_compute. reflexivity.
  - lia.
  - vm_compute. discriminate.
  - vm_compute. discriminate.
Defined.

(** X13.  The length check of [prepare_insert] compares with the size of the
    array, not with the column width: a username of exactly 33 bytes is
    accepted.  It fills the whole array of the row, which then holds no
    terminator, so the row is not a valid row. *)
Theorem prepare_statement_long_username kw ids user mail tail
    (st : Statement) (h : Heap) (v : Z) :
  is_token kw -> is_token ids -> is_token user -> is_token mail ->
  (tail = [] \/ exists r, tail = x20 :: r) ->
  take 6 kw = kw_insert ->
  atoi ids = Some v -> v <> 0 ->
  Z.of_nat (length user) = USERNAME_SIZE -> Z.of_nat (length mail) <= EMAIL_SIZE ->
  exists r,
    prepare_statement (kw ++ [x20] ++ ids ++ [x20] ++ user ++ [x20] ++ mail ++ tail) st h =
      Ret (PREPARE_SUCCESS,
           {| type := STATEMENT_INSERT; row_to_insert := Some r |}, next_heap h) /\
    username r = user /\ (x00 ∉ username r) /\ ~ valid_row r.
Proof.
  intros Hkw Hids Huser Hmail Htail Hins Hatoi Hv Hulen Hmlen.
  exists (row_object (filled (fresh_block SIZEOF_ROW h) v user mail)).
  destruct (row_object_filled (fresh_block SIZEOF_ROW h) v user mail)
    as (Hwf & Hid & Hu & Hcu & Hm & Hcm);
    [by apply length_fresh_block|apply Huser|apply Hmail|lia|done|].
  assert (Heq : username (row_object (filled (fresh_block SIZEOF_ROW h) v user mail)) = user).
  { rewrite <- Hu at 2. symmetry. apply take_ge.
    destruct Hwf as (_ & Hl & _). lia. }
  split; [|split; [done|split]].
  - rewrite prepare_statement_insert_line by done.
    rewrite prepare_insert_eq by done. cbv zeta. rewrite Hatoi.
    destruct (Z.eqb_spec v 0); [done|].
    rewrite !strlen_no_nul by (apply Huser || apply Hmail).
    destruct (Z.gtb_spec (Z.of_nat (length user)) USERNAME_SIZE); [lia|].
    destruct (Z.gtb_spec (Z.of_nat (length mail)) EMAIL_SIZE); [lia|]. done.
  - rewrite Heq. apply Huser.
  - intros (_ & Hstr & _). rewrite Heq, strlen_no_nul in Hstr by apply Huser.
    consts. lia.
Qed.

(** A username of 33 letters [a]. *)
Lemma prepare_statement_long_username_witness :
  exists r,
    prepare_statement
      (kw_insert ++ [x20] ++ [x31] ++ [x20] ++ replicate 33 x61 ++ [x20] ++ [x62] ++ [])
      select_statement sample_heap =
      Ret (PREPARE_SUCCESS,
           {| type := STATEMENT_INSERT; row_to_insert := Some r |}, next_heap sample_heap) /\
    username r = replicate 33 x61 /\ (x00 ∉ username r) /\ ~ valid_row r.
Proof.
  apply (prepare_statement_long_username kw_insert [x31] (replicate 33 x61) [x62] []
           select_statement sample_heap 1).
  - by apply is_tokenb_correct.
  - by apply is_tokenb_correct.
  - by apply is_tokenb_correct.
  - by apply is_tokenb_correct.
  - by left.
  - reflexivity.
  - vm_compute. reflexivity.
  - lia.
  - reflexivity.
  - vm_compute. discriminate.
Defined.

(** X14.  [prepare_statement] never returns [PREPARE_NEGATIVE_ID] nor
    [PREPARE_SYNTAX_ERROR]: the two results are declared and [main] has a
    case for each, but no path produces them. *)
Theorem prepare_statement_never (buffer : list byte) (st : Statement) (h : Heap)
    (result : PrepareResult) (st' : Statement) (h' : Heap) :
  prepare_statement buffer st h = Ret (result, st', h') ->
  result <> PREPARE_NEGATIVE_ID /\ result <> PREPARE_SYNTAX_ERROR.
Proof.
  unfold prepare_statement.
  destruct (strncmp_eq buffer kw_insert 6).
  - unfold prepare_insert, bind. rewrite malloc_eq. cbv beta iota.
    generalize (fresh_block SIZEOF_ROW h). intros raw.
    destruct (strtok buffer) as [t0 s0]. destruct (strtok s0) as [t1 s1].
    destruct (strtok s1) as [t2 s2]. destruct (strtok s2) as [t3 s3].
    destruct t1 as [t1|]; [|by intros [= <- _ _]].
    destruct t2 as [t2|]; [|by intros [= <- _ _]].
    destruct t3 as [t3|]; [|by intros [= <- _ _]].
    destruct (atoi t1) as [v|]; [|done].
    destruct (v =? 0); [by intros [= <- _ _]|].
    destruct (strlen t2 >? USERNAME_SIZE); [by intros [= <- _ _]|].
    destruct (strlen t3 >? EMAIL_SIZE); by intros [= <- _ _].
  - destruct (strcmp_eq buffer kw_select); by intros [= <- _ _].
Qed.

(** The line [insert -1 a b]. *)
Lemma prepare_statement_never_witness :
  exists st' h',
    prepare_statement (command_line kw_insert [[x2d; x31]; [x61]; [x62]])
                      select_statement sample_heap
      = Ret (PREPARE_SUCCESS, st', h') /\
    PREPARE_SUCCESS <> PREPARE_NEGATIVE_ID /\ PREPARE_SUCCESS <> PREPARE_SYNTAX_ERROR.
Proof.
  destruct (prepare_statement (command_line kw_insert [[x2d; x31]; [x61]; [x62]])
              select_statement sample_heap) as [[[result st'] h']| |] eqn:Hprep.
  - assert (Hres : result = PREPARE_SUCCESS).
    { unfold prepare_statement, command_line in Hprep. simpl in Hprep.
      unfold prepare_insert, bind in Hprep. rewrite malloc_eq in Hprep.
      simpl in Hprep. by injection Hprep as <- _ _. }
    subst result. exists st', h'. split; [done|].
    apply (prepare_statement_never _ _ _ _ _ _ Hprep).
  - unfold prepare_statement, command_line in Hprep. simpl in Hprep.
    unfold prepare_insert, bind in Hprep. rewrite malloc_eq in Hprep.
    simpl in Hprep. discriminate Hprep.
  - unfold prepare_statement, command_line in Hprep. simpl in Hprep.
    unfold prepare_insert, bind in Hprep. rewrite malloc_eq in Hprep.
    simpl in Hprep. discriminate Hprep.
Defined.

(** ** One turn of the loop *)

Section MainStep.
Implicit Types (kw ids user mail tail raw buffer : list byte) (t : Table) (h g : Heap).

(** An insert into a table with room, as a statement of the loop. *)
Lemma execute_statement_insert_row t r h :
  wf_table t -> wf_row r -> 0 <= num_rows t < TABLE_MAX_ROWS ->
  exists t' h',
    execute_statement (insert_statement r) t h = Ret (EXECUTE_SUCCESS, [], t', h') /\
    num_rows t' = num_rows t + 1 /\
    (forall g, row_at t' (num_rows t) g = Some r) /\
    (forall rs, holds rs t -> holds (rs ++ [r]) t') /\
    fd (pager t') = fd (pager t).
Proof.
  intros Hwf Hr Hn.
  destruct (execute_insert_eq t r h Hwf Hn)
    as (p1 & h1 & page & Hget & Hwf1 & Hfd & _ & Hpages & Hpage & _ & Hins).
  exists {| num_rows := num_rows t + 1;
            pager := set_page p1 (num_rows t / ROWS_PER_PAGE)
                       (Some (serialize_row r page
                                (num_rows t mod ROWS_PER_PAGE * ROW_SIZE))) |}, h1.
  split; [|split; [|split; [|split; [|exact Hfd]]]].
  - rewrite execute_statement_insert. by rewrite (bind_Ret _ _ _ _ _ Hins).
  - done.
  - intros g. unfold row_at.
    pose proof (row_page_bound (num_rows t) Hn) as Hpn.
    pose proof (row_offset_bound (num_rows t) (proj1 Hn)) as [Ho1 Ho2].
    assert (Hlen : Z.of_nat (length page) = PAGE_SIZE) by (eapply Hwf1, Hpage).
    rewrite (select_row_resident _ (num_rows t) g
               (serialize_row r page (num_rows t mod ROWS_PER_PAGE * ROW_SIZE)));
      [|lia|cbn [num_rows]; lia|].
    + by rewrite deserialize_serialize by (done || lia).
    + cbn [pager set_page pages]. apply list_lookup_insert_eq.
      eapply lookup_lt_Some, Hpage.
  - intros rs Hholds.
    destruct (holds_insert rs t r h Hholds Hr ltac:(lia)) as (t2 & h2 & Hins2 & Hholds2).
    rewrite Hins in Hins2. by injection Hins2 as <- <-.
Qed.

(** A turn of the loop on a line that is not a meta command and that
    [prepare_statement] answers with an insert that [main] does not stop:
    the insert is executed. *)
Lemma main_step_executes buffer t h result raw :
  head buffer <> Some x2e ->
  (forall st, prepare_statement buffer st (next_heap h) =
                Ret (result, insert_of raw, next_heap (next_heap h))) ->
  result = PREPARE_SUCCESS \/ result = PREPARE_NOT_ID \/
    result = PREPARE_STRING_NOT_RIGHT ->
  Z.of_nat (length raw) = SIZEOF_ROW ->
  wf_table t -> 0 <= num_rows t < TABLE_MAX_ROWS ->
  exists t' h',
    main_step buffer t h = Ret (Continue [out_executed] t', h') /\
    num_rows t' = num_rows t + 1 /\
    (forall g, row_at t' (num_rows t) g = Some (row_object raw)) /\
    (forall rs, holds rs t -> holds (rs ++ [row_object raw]) t') /\
    fd (pager t') = fd (pager t).
Proof.
  intros Hhead Hprep Hres Hraw Hwf Hn.
  destruct (execute_statement_insert_row t (row_object raw) (next_heap (next_heap h)) Hwf)
    as (t' & h' & Hexec & Hnum & Hrow & Hholds & Hfd); [by apply wf_row_object|done|].
  exists t', h'. split; [|done].
  unfold main_step. rewrite bool_decide_eq_false_2 by done.
  unfold create_statement. unfold bind at 1. unfold bind at 1. rewrite malloc_eq.
  unfold ret at 1. rewrite (bind_Ret _ _ _ _ _ (Hprep _)). cbv beta iota.
  change (insert_of raw) with (insert_statement (row_object raw)).
  destruct Hres as [->|[->| ->]]; by rewrite (bind_Ret _ _ _ _ _ Hexec).
Qed.

Lemma prepare_statement_zero_id kw ids user mail tail h st :
  is_token kw -> is_token ids -> is_token user -> is_token mail ->
  (tail = [] \/ exists r, tail = x20 :: r) ->
  take 6 kw = kw_insert -> atoi ids = Some 0 ->
  prepare_statement (kw ++ [x20] ++ ids ++ [x20] ++ user ++ [x20] ++ mail ++ tail) st h =
    Ret (PREPARE_NOT_ID, insert_of (fresh_block SIZEOF_ROW h), next_heap h).
Proof.
  intros Hkw Hids Huser Hmail Htail Hins Hatoi.
  rewrite prepare_statement_insert_line by done.
  rewrite prepare_insert_eq by done. cbv zeta. by rewrite Hatoi.
Qed.

Lemma prepare_statement_missing kw (args : list (list byte)) h st :
  is_token kw -> Forall is_token args -> (length args < 3)%nat ->
  take 6 kw = kw_insert ->
  prepare_statement (command_line kw args) st h =
    Ret (PREPARE_STRING_NOT_RIGHT, insert_of (fresh_block SIZEOF_ROW h), next_heap h).
Proof.
  intros Hkw Hargs Hlen Hins. unfold command_line.
  rewrite prepare_statement_insert_line by done.
  unfold prepare_insert, bind. rewrite malloc_eq. cbv beta iota.
  destruct args as [|a [|b [|c args]]]; [| | |simpl in Hlen; lia]; cbn [fmap list_fmap concat].
  - rewrite (strtok_token kw []) by eauto. cbn [drop]. by rewrite !strtok_nil.
  - apply Forall_cons in Hargs as [Ha _]. rewrite app_nil_r.
    rewrite (strtok_token kw (x20 :: a)) by eauto. cbn [drop]. rewrite drop_0.
    rewrite <- (app_nil_r a), (strtok_token a []) by eauto. cbn [drop].
    by rewrite !strtok_nil.
  - apply Forall_cons in Hargs as [Ha Hargs]. apply Forall_cons in Hargs as [Hb _].
    rewrite app_nil_r.
    rewrite (strtok_token kw ((x20 :: a) ++ x20 :: b)) by (done || (right; by eexists)).
    cbn [app drop]. rewrite drop_0.
    rewrite (strtok_token a (x20 :: b)) by eauto. cbn [drop]. rewrite drop_0.
    rewrite <- (app_nil_r b), (strtok_token b []) by eauto. cbn [drop].
    by rewrite !strtok_nil.
Qed.
End MainStep.

(** X15.  An insert whose id [atoi] reads as 0 (the digit 0, or a token
    that is not a number) is not refused.  [prepare_insert] returns
    [PREPARE_NOT_ID] before it has filled the row in, [main] has no case for
    that result, and the statement is executed: the table gains a row, which
    is the content of the block that [malloc] returned for it, and
    [Executed.] is printed. *)
Theorem main_step_zero_id kw ids user mail tail (t : Table) (h : Heap) :
  is_token kw -> is_token ids -> is_token user -> is_token mail ->
  (tail = [] \/ exists r, tail = x20 :: r) ->
  take 6 kw = kw_insert -> atoi ids = Some 0 ->
  wf_table t -> 0 <= num_rows t < TABLE_MAX_ROWS ->
  exists t' h',
    main_step (kw ++ [x20] ++ ids ++ [x20] ++ user ++ [x20] ++ mail ++ tail) t h =
      Ret (Continue [out_executed] t', h') /\
    num_rows t' = num_rows t + 1 /\
    forall g,
      row_at t' (num_rows t) g =
        Some (row_object (fresh_block SIZEOF_ROW (next_heap h))).
Proof.
  intros Hkw Hids Huser Hmail Htail Hins Hatoi Hwf Hn.
  destruct (main_step_executes
              (kw ++ [x20] ++ ids ++ [x20] ++ user ++ [x20] ++ mail ++ tail) t h
              PREPARE_NOT_ID (fresh_block SIZEOF_ROW (next_heap h)))
    as (t' & h' & Hstep & Hnum & Hrow & _ & _);
    [by apply head_insert_line
    |intros st; by apply prepare_statement_zero_id
    |auto
    |apply length_fresh_block; unfold SIZEOF_ROW; lia
    |done|done|].
  by exists t', h'.
Qed.

(** The line [insert abc user mail] on a table opened on an empty file. *)
Lemma main_step_zero_id_witness :
  exists t' h',
    main_step (kw_insert ++ [x20] ++ [x61; x62; x63] ++ [x20] ++ [x75] ++ [x20] ++ [x6d] ++ [])
              (db_open []) sample_heap =
      Ret (Continue [out_executed] t', h') /\
    num_rows t' = num_rows (db_open []) + 1 /\
    forall g,
      row_at t' (num_rows (db_open [])) g =
        Some (row_object (fresh_block SIZEOF_ROW (next_heap sample_heap))).
Proof.
  apply (main_step_zero_id kw_insert [x61; x62; x63] [x75] [x6d] [] (db_open []) sample_heap).
  - by apply is_tokenb_correct.
  - by apply is_tokenb_correct.
  - by apply is_tokenb_correct.
  - by apply is_tokenb_correct.
  - by left.
  - reflexivity.
  - reflexivity.
  - apply wf_db_open.
  - rewrite db_open_empty, TABLE_MAX_ROWS_eq. simpl. lia.
Defined.

(** X16.  An insert with fewer than three arguments is not refused either.
    [prepare_insert] returns [PREPARE_STRING_NOT_RIGHT], for which [main]
    has no case: the statement is executed with the row that [malloc]
    returned, the table gains a row and [Executed.] is printed. *)
Theorem main_step_missing_fields kw (args : list (list byte)) (t : Table) (h : Heap) :
  is_token kw -> Forall is_token args -> (length args < 3)%nat ->
  take 6 kw = kw_insert ->
  wf_table t -> 0 <= num_rows t < TABLE_MAX_ROWS ->
  exists t' h',
    main_step (command_line kw args) t h = Ret (Continue [out_executed] t', h') /\
    num_rows t' = num_rows t + 1 /\
    forall g,
      row_at t' (num_rows t) g =
        Some (row_object (fresh_block SIZEOF_ROW (next_heap h))).
Proof.
  intros Hkw Hargs Hlen Hins Hwf Hn.
  destruct (main_step_executes (command_line kw args) t h
              PREPARE_STRING_NOT_RIGHT (fresh_block SIZEOF_ROW (next_heap h)))
    as (t' & h' & Hstep & Hnum & Hrow & _ & _);
    [unfold command_line; by apply head_insert_line
    |intros st; by apply prepare_statement_missing
    |auto
    |apply length_fresh_block; unfold SIZEOF_ROW; lia
    |done|done|].
  by exists t', h'.
Qed.

(** The line [insert 7] on a table opened on an empty file. *)
Lemma main_step_missing_fields_witness :
  exists t' h',
    main_step (command_line kw_insert [[x37]]) (db_open []) sample_heap =
      Ret (Continue [out_executed] t', h') /\
    num_rows t' = num_rows (db_open []) + 1 /\
    forall g,
      row_at t' (num_rows (db_open [])) g =
        Some (row_object (fresh_block SIZEOF_ROW (next_heap sample_heap))).
Proof.
  apply (main_step_missing_fields kw_insert [[x37]] (db_open []) sample_heap).
  - by apply is_tokenb_correct.
  - repeat constructor; by apply is_tokenb_correct.
  - simpl. lia.
  - reflexivity.
  - apply wf_db_open.
  - rewrite db_open_empty, TABLE_MAX_ROWS_eq. simpl. lia.
Defined.

(** X17.  An insert whose username is longer than 33 bytes or whose email
    is longer than 256 bytes is refused without a change of the table, and
    because the case of [main] for it has no [continue] two messages are
    printed: [Error: string is too long.] and [Syntax error.] *)
Theorem main_step_too_long kw ids user mail tail (t : Table) (h : Heap) (v : Z) :
  is_token kw -> is_token ids -> is_token user -> is_token mail ->
  (tail = [] \/ exists r, tail = x20 :: r) ->
  take 6 kw = kw_insert -> atoi ids = Some v -> v <> 0 ->
  USERNAME_SIZE < Z.of_nat (length user) \/ EMAIL_SIZE < Z.of_nat (length mail) ->
  main_step (kw ++ [x20] ++ ids ++ [x20] ++ user ++ [x20] ++ mail ++ tail) t h =
    Ret (Continue [out_too_long; out_syntax_error] t, next_heap (next_heap h)).
Proof.
  intros Hkw Hids Huser Hmail Htail Hins Hatoi Hv Hlong.
  unfold main_step. rewrite bool_decide_eq_false_2 by (by apply head_insert_line).
  unfold create_statement. unfold bind at 1. unfold bind at 1. rewrite malloc_eq.
  unfold ret at 1.
  assert (Hprep : forall st,
            prepare_statement
              (kw ++ [x20] ++ ids ++ [x20] ++ user ++ [x20] ++ mail ++ tail) st (next_heap h) =
              Ret (PREPARE_STRING_TOO_LONG,
                   insert_of (fresh_block SIZEOF_ROW (next_heap h)),
                   next_heap (next_heap h))).
  { intros st. rewrite prepare_statement_insert_line by done.
    rewrite prepare_insert_eq by done. cbv zeta. rewrite Hatoi.
    destruct (Z.eqb_spec v 0); [done|].
    rewrite !strlen_no_nul by (apply Huser || apply Hmail).
    destruct (Z.gtb_spec (Z.of_nat (length user)) USERNAME_SIZE); [done|].
    destruct (Z.gtb_spec (Z.of_nat (length mail)) EMAIL_SIZE); [done|]. lia. }
  by rewrite (bind_Ret _ _ _ _ _ (Hprep _)).
Qed.

(** A username of 34 letters [a]. *)
Lemma main_step_too_long_witness :
  main_step (kw_insert ++ [x20] ++ [x31] ++ [x20] ++ replicate 34 x61 ++ [x20] ++ [x62] ++ [])
            (db_open []) sample_heap =
    Ret (Continue [out_too_long; out_syntax_error] (db_open []),
         next_heap (next_heap sample_heap)).
Proof.
  apply (main_step_too_long kw_insert [x31] (replicate 34 x61) [x62] []
           (db_open []) sample_heap 1).
  - by apply is_tokenb_correct.
  - by apply is_tokenb_correct.
  - by apply is_tokenb_correct.
  - by apply is_tokenb_correct.
  - by left.
  - reflexivity.
  - reflexivity.
  - lia.
  - left. vm_compute. reflexivity.
Defined.

(** ** Sessions *)

Section Session.
Implicit Types (t : Table) (h : Heap) (c : Command) (stdin : list (list byte)).

Lemma read_input_line (body : list byte) (b : byte) h :
  x00 ∉ body -> read_input (body ++ [b]) h = Ret (body, h).
Proof.
  intros Hbody. unfold read_input. rewrite length_app. simpl.
  destruct (Z.leb_spec (Z.of_nat (length body + 1)) 0); [lia|].
  replace (length body + 1 - 1)%nat with (length body) by lia.
  by rewrite take_app_length, cstr_no_nul.
Qed.

Lemma main_loop_step raw stdin t h buffer out t' h' :
  read_input raw h = Ret (buffer, h) ->
  main_step buffer t h = Ret (Continue out t', h') ->
  main_loop (raw :: stdin) t h = with_output (out_prompt :: out) (main_loop stdin t' h').
Proof.
  intros Hread Hstep. cbn [main_loop].
  rewrite (bind_Ret _ _ _ _ _ Hread), (bind_Ret _ _ _ _ _ Hstep).
  unfold bind, with_output. by destruct (main_loop stdin t' h') as [[[outs file] h2]| |].
Qed.

Lemma with_output_app out1 out2 o :
  with_output out1 (with_output out2 o) = with_output (out1 ++ out2) o.
Proof. destruct o as [[[outs file] h]| |]; [|done..]. simpl. by rewrite app_assoc. Qed.

Lemma kw_insert_token : is_token kw_insert.
Proof. by apply is_tokenb_correct. Qed.

(** The turn of the loop for an accepted insert line. *)
Lemma main_step_good_command c t h :
  good_command c -> wf_table t -> 0 <= num_rows t < TABLE_MAX_ROWS ->
  exists body r t' h',
    line_of c = body ++ [x0a] /\ (x00 ∉ body) /\
    main_step body t h = Ret (Continue [out_executed] t', h') /\
    answers c r /\
    (forall rs, holds rs t -> holds (rs ++ [r]) t') /\
    fd (pager t') = fd (pager t).
Proof.
  destruct c as [[ids user] mail].
  intros (Hids & Huser & Hmail & (v & Hatoi & Hv) & Hulen & Hmlen) Hwf Hn.
  set (body := kw_insert ++ [x20] ++ ids ++ [x20] ++ user ++ [x20] ++ mail ++ []).
  set (raw := filled (fresh_block SIZEOF_ROW (next_heap h)) v user mail).
  destruct (row_object_filled (fresh_block SIZEOF_ROW (next_heap h)) v user mail)
    as (Hwfr & Hid & _ & Hcu & _ & Hcm);
    [apply length_fresh_block; unfold SIZEOF_ROW; lia
    |apply Huser|apply Hmail|consts; lia|consts; lia|].
  fold raw in Hwfr, Hid, Hcu, Hcm.
  destruct (main_step_executes body t h PREPARE_SUCCESS raw)
    as (t' & h' & Hstep & _ & _ & Hholds & Hfd).
  - by apply head_insert_line.
  - intros st. unfold body.
    rewrite prepare_statement_insert_line by done.
    rewrite prepare_insert_eq by (done || apply kw_insert_token || by left).
    cbv zeta. rewrite Hatoi. destruct (Z.eqb_spec v 0); [done|].
    rewrite !strlen_no_nul by (apply Huser || apply Hmail).
    destruct (Z.gtb_spec (Z.of_nat (length user)) USERNAME_SIZE); [consts; lia|].
    destruct (Z.gtb_spec (Z.of_nat (length mail)) EMAIL_SIZE); [consts; lia|]. done.
  - auto.
  - unfold raw. rewrite length_filled. apply length_fresh_block. unfold SIZEOF_ROW. lia.
  - done.
  - done.
  - exists body, (row_object raw), t', h'. split; [|split; [|split; [done|split; [|done]]]].
    + unfold line_of, insert_line, body. by rewrite !app_nil_r, <- !app_assoc.
    + unfold body. rewrite !not_elem_of_app. destruct Hids as (_ & _ & ?).
      destruct Huser as (_ & _ & ?). destruct Hmail as (_ & _ & ?).
      repeat split; try done; try apply kw_insert_token; try apply not_elem_of_nil;
        (rewrite not_elem_of_cons; split; [done|apply not_elem_of_nil]).
    + split; [done|]. split; [by exists v|]. split; [by apply Hcu|by apply Hcm].
Qed.

(** A run of accepted insert lines: each is executed, and the loop goes on
    with the rest of the input. *)
Lemma main_loop_inserts (cmds : list Command) :
  forall rs0 t h stdin,
    Forall good_command cmds -> holds rs0 t ->
    Z.of_nat (length rs0) + Z.of_nat (length cmds) <= TABLE_MAX_ROWS ->
    exists rs t' h',
      Forall2 answers cmds rs /\
      holds (rs0 ++ rs) t' /\
      fd (pager t') = fd (pager t) /\
      main_loop ((line_of <$> cmds) ++ stdin) t h =
        with_output (concat (replicate (length cmds) [out_prompt; out_executed]))
                    (main_loop stdin t' h').
Proof.
  induction cmds as [|c cmds IH]; intros rs0 t h stdin Hgood Hholds Hlen.
  { exists [], t, h. rewrite app_nil_r. split; [constructor|]. split; [done|].
    split; [done|]. simpl. by destruct (main_loop stdin t h) as [[[outs file] h2]| |]. }
  apply Forall_cons in Hgood as [Hc Hgood]. simpl in Hlen.
  pose proof Hholds as (Hwf & Hnum & _).
  destruct (main_step_good_command c t h Hc Hwf ltac:(lia))
    as (body & r & t1 & h1 & Hline & Hbody & Hstep & Hans & Hholds1 & Hfd1).
  destruct (IH (rs0 ++ [r]) t1 h1 stdin Hgood (Hholds1 rs0 Hholds))
    as (rs & t' & h' & Hall & Hholds' & Hfd' & Hloop).
  { rewrite length_app. simpl. lia. }
  exists (r :: rs), t', h'. split; [by constructor|].
  split; [by rewrite <- app_assoc in Hholds'|]. split; [congruence|].
  rewrite fmap_cons. cbn [app]. rewrite Hline.
  rewrite (main_loop_step _ _ t h body [out_executed] t1 h1);
    [|by apply read_input_line|done].
  rewrite Hloop, with_output_app. done.
Qed.
End Session.

Section SessionEnd.
Implicit Types (t : Table) (h : Heap) (rs : list Row) (stdin : list (list byte)).

(** The turn of the loop for the line [select] on a table that holds rows. *)
Lemma main_step_select rs t h :
  holds rs t -> rs <> [] ->
  main_step kw_select t h =
    Ret (Continue ((out_row <$> rs) ++ [out_executed]) t, next_heap h).
Proof.
  intros Hholds Hne. unfold main_step.
  rewrite bool_decide_eq_false_2 by done.
  unfold create_statement. unfold bind at 1. unfold bind at 1. rewrite malloc_eq.
  unfold ret at 1. unfold prepare_statement.
  assert (Hins : strncmp_eq kw_select kw_insert 6 = false)
    by (by apply bool_decide_eq_false_2).
  assert (Hsel : strcmp_eq kw_select kw_select = true)
    by (by apply bool_decide_eq_true_2).
  rewrite Hins, Hsel. unfold bind at 1, ret at 1. cbv beta iota.
  unfold execute_statement; cbn [type].
  by rewrite (bind_Ret _ _ _ _ _ (holds_execute_select rs t (next_heap h) _ Hholds Hne)).
Qed.

(** The line [.exit]: the table is closed and nothing more is read. *)
Lemma main_loop_exit rs t h stdin :
  holds rs t -> fd (pager t) = [] ->
  main_loop ((kw_exit ++ [x0a]) :: stdin) t h =
    Ret ([out_prompt], image (Z.to_nat (pages_for (Z.of_nat (length rs)))) (pager t), h).
Proof.
  intros Hholds Hfd. cbn [main_loop].
  rewrite (bind_Ret _ _ _ _ _ (read_input_line kw_exit x0a h ltac:(by apply (is_tokenb_correct kw_exit)))).
  unfold main_step. rewrite bool_decide_eq_true_2 by done.
  unfold do_meta_command.
  assert (Hexit : strcmp_eq kw_exit kw_exit = true) by (by apply bool_decide_eq_true_2).
  rewrite Hexit. unfold bind. by rewrite (db_close_holds rs t h Hholds Hfd).
Qed.
End SessionEnd.

Section Printing.
Implicit Types (t : Table) (h : Heap) (r : Row) (c : Command).

(** [%d] shows the [int] that was stored as a [uint32_t]. *)
Lemma as_int_u32 v : INT_MIN <= v <= INT_MAX -> as_int (u32 v) = v.
Proof.
  unfold as_int, u32, INT_MIN, INT_MAX.
  change (2 ^ 32) with 4294967296. change (2 ^ 31) with 2147483648. intros Hv.
  destruct (Z.leb_spec (v mod 4294967296) (2147483648 - 1)) as [Hle|Hgt];
    Z.to_euclidean_division_equations; lia.
Qed.

(** An array whose content is shorter than the array holds a terminator. *)
Lemma print_string_cstr (s : list byte) :
  (length (cstr s) < length s)%nat -> print_string s = Some (cstr s).
Proof.
  intros Hlt. unfold print_string.
  destruct (decide (x00 ∈ s)) as [Hin|Hnot].
  - by rewrite bool_decide_eq_true_2.
  - rewrite cstr_no_nul in Hlt by done. lia.
Qed.

(** The line printed for the row of an accepted insert shows the arguments
    of the insert. *)
Lemma answers_printed c r : good_command c -> answers c r -> printed_as c r.
Proof.
  destruct c as [[ids user] mail].
  intros (_ & _ & _ & _ & Hulen & Hmlen) ((_ & Hu & Hm) & (v & Hatoi & Hid) & Hcu & Hcm).
  exists v. split; [done|]. unfold print_row.
  rewrite !print_string_cstr
    by (rewrite ?Hcu, ?Hcm; consts; lia).
  rewrite Hid, as_int_u32 by (by eapply atoi_range). by rewrite Hcu, Hcm.
Qed.

(** When the input ends without [.exit] the process ends in [read_input],
    whatever table the loop holds. *)
Lemma main_state_end (stdin : list (list byte)) :
  forall t h t' h',
    main_state stdin t h = Ret (Some t', h') ->
    main_loop stdin t h = Exit EXIT_FAILURE.
Proof.
  induction stdin as [|raw stdin IH]; intros t h t' h' H; [done|].
  cbn [main_state main_loop] in *. unfold bind in *.
  destruct (read_input raw h) as [[buffer h1]| |]; [|done..].
  destruct (main_step buffer t h1) as [[[out t1|file] h2]| |]; [| |done..].
  - by rewrite (IH _ _ _ _ H).
  - done.
Qed.

(** The table that the loop holds after a run of accepted insert lines. *)
Lemma main_state_inserts (cmds : list Command) :
  forall rs0 t h,
    Forall good_command cmds -> holds rs0 t ->
    Z.of_nat (length rs0) + Z.of_nat (length cmds) <= TABLE_MAX_ROWS ->
    exists rs t' h',
      Forall2 answers cmds rs /\
      holds (rs0 ++ rs) t' /\
      fd (pager t') = fd (pager t) /\
      main_state (line_of <$> cmds) t h = Ret (Some t', h').
Proof.
  induction cmds as [|c cmds IH]; intros rs0 t h Hgood Hholds Hlen.
  { exists [], t, h. rewrite app_nil_r. split; [constructor|]. done. }
  apply Forall_cons in Hgood as [Hc Hgood]. simpl in Hlen.
  pose proof Hholds as (Hwf & Hnum & _).
  destruct (main_step_good_command c t h Hc Hwf ltac:(lia))
    as (body & r & t1 & h1 & Hline & Hbody & Hstep & Hans & Hholds1 & Hfd1).
  destruct (IH (rs0 ++ [r]) t1 h1 Hgood (Hholds1 rs0 Hholds))
    as (rs & t' & h' & Hall & Hholds' & Hfd' & Hstate).
  { rewrite length_app. simpl. lia. }
  exists (r :: rs), t', h'. split; [by constructor|].
  split; [by rewrite <- app_assoc in Hholds'|]. split; [congruence|].
  rewrite fmap_cons. cbn [main_state]. rewrite Hline.
  rewrite (bind_Ret _ _ _ _ _ (read_input_line body x0a h Hbody)).
  by rewrite (bind_Ret _ _ _ _ _ Hstep).
Qed.
End Printing.

(** X18.  A whole session.  On an empty file, a non-empty sequence of at most
    [TABLE_MAX_ROWS] accepted insert lines, then [select], then [.exit]:
    every insert prints [Executed.], the select calls [print_row] on the rows
    in the order of the lines, and [.exit] leaves a file of whole pages in
    which row [i] is found at its place.  Each row holds the id of its line
    as a [uint32_t] and the strings of its line; the line printed for it
    shows the id as the [int] of the line ([%d], so a negative id is printed
    negative) and the two strings. *)
Theorem session_insert_select_exit (cmds : list Command) (h : Heap) :
  Forall good_command cmds -> cmds <> [] ->
  Z.of_nat (length cmds) <= TABLE_MAX_ROWS ->
  exists rs file h',
    main_loop ((line_of <$> cmds) ++ [kw_select ++ [x0a]; kw_exit ++ [x0a]])
              (db_open []) h =
      Ret (concat (replicate (length cmds) [out_prompt; out_executed]) ++
           [out_prompt] ++ (out_row <$> rs) ++ [out_executed] ++ [out_prompt],
           file, h') /\
    Forall2 answers cmds rs /\
    Forall2 printed_as cmds rs /\
    Z.of_nat (length file) = pages_for (Z.of_nat (length cmds)) * PAGE_SIZE /\
    forall (i : nat) r,
      rs !! i = Some r -> deserialize_row file (file_offset (Z.of_nat i)) = r.
Proof.
  intros Hgood Hne Hlen.
  destruct (main_loop_inserts cmds [] (db_open []) h
              [kw_select ++ [x0a]; kw_exit ++ [x0a]] Hgood holds_open_empty)
    as (rs & t & h1 & Hall & Hholds & Hfd & Hloop); [simpl; lia|].
  cbn [app] in Hholds. rewrite db_open_empty in Hfd. cbn [pager pager_open fd] in Hfd.
  pose proof (Forall2_length _ _ _ Hall) as Hrlen.
  assert (Hrne : rs <> []) by (destruct cmds, rs; done).
  exists rs, (image (Z.to_nat (pages_for (Z.of_nat (length rs)))) (pager t)), (next_heap h1).
  split; [|split; [done|split; [|split]]].
  - rewrite Hloop.
    rewrite (main_loop_step _ _ t h1 kw_select ((out_row <$> rs) ++ [out_executed])
               t (next_heap h1));
      [|by apply read_input_line, (is_tokenb_correct kw_select)
       |by apply main_step_select].
    rewrite (main_loop_exit rs t (next_heap h1) [] Hholds Hfd).
    simpl. by rewrite <- !app_assoc.
  - clear -Hgood Hall. induction Hall as [|c r cmds rs Hcr Hall IH]; [constructor|].
    apply Forall_cons in Hgood as [Hc Hgood].
    constructor; [by apply answers_printed|by apply IH].
  - rewrite Hrlen. by apply length_image.
  - intros i r Hr. by apply image_row.
Qed.

(** [insert 1 user1 person1@example.com], [insert -5 bob b@c], [select], [.exit]. *)
Lemma session_insert_select_exit_witness :
  exists rs file h',
    main_loop ((line_of <$> [([x31], [x75; x73; x65; x72; x31],
                              [x70; x65; x72; x73; x6f; x6e; x31; x40; x65; x78; x61; x6d;
                               x70; x6c; x65; x2e; x63; x6f; x6d]);
                             ([x2d; x35], [x62; x6f; x62], [x62; x40; x63])])
               ++ [kw_select ++ [x0a]; kw_exit ++ [x0a]])
              (db_open []) sample_heap =
      Ret (concat (replicate 2 [out_prompt; out_executed]) ++
           [out_prompt] ++ (out_row <$> rs) ++ [out_executed] ++ [out_prompt],
           file, h') /\
    Forall2 answers
      [([x31], [x75; x73; x65; x72; x31],
        [x70; x65; x72; x73; x6f; x6e; x31; x40; x65; x78; x61; x6d;
         x70; x6c; x65; x2e; x63; x6f; x6d]);
       ([x2d; x35], [x62; x6f; x62], [x62; x40; x63])] rs /\
    Forall2 printed_as
      [([x31], [x75; x73; x65; x72; x31],
        [x70; x65; x72; x73; x6f; x6e; x31; x40; x65; x78; x61; x6d;
         x70; x6c; x65; x2e; x63; x6f; x6d]);
       ([x2d; x35], [x62; x6f; x62], [x62; x40; x63])] rs /\
    Z.of_nat (length file) = pages_for 2 * PAGE_SIZE /\
    forall (i : nat) r,
      rs !! i = Some r -> deserialize_row file (file_offset (Z.of_nat i)) = r.
Proof.
  apply (session_insert_select_exit
           [([x31], [x75; x73; x65; x72; x31],
             [x70; x65; x72; x73; x6f; x6e; x31; x40; x65; x78; x61; x6d;
              x70; x6c; x65; x2e; x63; x6f; x6d]);
            ([x2d; x35], [x62; x6f; x62], [x62; x40; x63])] sample_heap).
  - repeat constructor; try (by apply is_tokenb_correct);
      try (by eexists; split; [vm_compute; reflexivity|]);
      vm_compute; discriminate.
  - discriminate.
  - vm_compute. discriminate.
Defined.

(** X19.  The input ends without [.exit]: after any sequence of accepted
    insert lines on an empty file the next [getline] fails and the process
    exits with [EXIT_FAILURE].  [db_close] is not reached: the table that
    the loop holds at that moment counts all the rows, and the file is
    still empty, so none of the rows is in it. *)
Theorem session_without_exit (cmds : list Command) (h : Heap) :
  Forall good_command cmds -> Z.of_nat (length cmds) <= TABLE_MAX_ROWS ->
  main_loop (line_of <$> cmds) (db_open []) h = Exit EXIT_FAILURE /\
  exists rs t h',
    main_state (line_of <$> cmds) (db_open []) h = Ret (Some t, h') /\
    Forall2 answers cmds rs /\
    holds rs t /\
    num_rows t = Z.of_nat (length cmds) /\
    fd (pager t) = [].
Proof.
  intros Hgood Hlen.
  destruct (main_state_inserts cmds [] (db_open []) h Hgood holds_open_empty)
    as (rs & t & h1 & Hall & Hholds & Hfd & Hstate); [simpl; lia|].
  cbn [app] in Hholds.
  split; [by eapply main_state_end|].
  exists rs, t, h1. split; [done|]. split; [done|]. split; [done|].
  split; [|by rewrite Hfd].
  destruct Hholds as (_ & -> & _). by rewrite (Forall2_length _ _ _ Hall).
Qed.

(** [insert 1 user1 person1@example.com] and the end of the input. *)
Lemma session_without_exit_witness :
  main_loop (line_of <$> [([x31], [x75; x73; x65; x72; x31],
                           [x70; x65; x72; x73; x6f; x6e; x31; x40; x65; x78; x61; x6d;
                            x70; x6c; x65; x2e; x63; x6f; x6d])])
            (db_open []) sample_heap = Exit EXIT_FAILURE /\
  exists rs t h',
    main_state (line_of <$> [([x31], [x75; x73; x65; x72; x31],
                              [x70; x65; x72; x73; x6f; x6e; x31; x40; x65; x78; x61; x6d;
                               x70; x6c; x65; x2e; x63; x6f; x6d])])
               (db_open []) sample_heap = Ret (Some t, h') /\
    Forall2 answers [([x31], [x75; x73; x65; x72; x31],
                      [x70; x65; x72; x73; x6f; x6e; x31; x40; x65; x78; x61; x6d;
                       x70; x6c; x65; x2e; x63; x6f; x6d])] rs /\
    holds rs t /\
    num_rows t = Z.of_nat 1 /\
    fd (pager t) = [].
Proof.
  apply (session_without_exit
           [([x31], [x75; x73; x65; x72; x31],
             [x70; x65; x72; x73; x6f; x6e; x31; x40; x65; x78; x61; x6d;
              x70; x6c; x65; x2e; x63; x6f; x6d])] sample_heap).
  - repeat constructor; try (by apply is_tokenb_correct);
      try (by eexists; split; [vm_compute; reflexivity|]);
      vm_compute; discriminate.
  - vm_compute. discriminate.
Defined.
